(** * API gateway: request pipeline

    A shallow embedding of the gateway's request-processing core:
    - [ResponseUtils.standardizeResponse]       (response.utils.ts)
    - the typed exceptions                       (core/exceptions/*.ts)
    - [AllExceptionsFilter.catch]                (all-exception.filter.ts)
    - [RedisService.incrementByThrottler]        (redis.service.ts)
    - [ThrottlerService] and [ThrottlerGuard]    (core/throttler/*.ts)
    - [CircuitBreaker]                           (circuit-breaker.service.ts)
    - [ServiceAService.handleError]              (service-a.service.ts)
    - [JwtAuthGuard.canActivate]                 (jwt-auth.guard.ts)
    - the upload pipe of [ServiceCController]    (service-c.controller.ts)

    JavaScript values are modelled by [JsValue]; numbers are integers ([Z]),
    which is all the modelled code computes with (statuses, counters,
    epoch times).  [Date.now()] is an explicit argument.  Logging is left
    out: it never influences a result. *)

From Stdlib Require Import ZArith Ascii String List Bool Lia DecimalString.
From stdpp Require Import gmap strings.

Set Warnings "-register-all".
Open Scope string_scope.
Open Scope list_scope.
Open Scope Z_scope.

(* ===================================================================== *)
(** ** JavaScript values *)
(* ===================================================================== *)

Module Js.

(** Objects keep their keys in insertion order, as JS objects and their
    JSON serialisation do. *)
Inductive JsValue :=
| JUndefined
| JNull
| JBool (b : bool)
| JNum (n : Z)
| JStr (s : string)
| JArr (items : list JsValue)
| JObj (entries : list (string * JsValue)).

(** JavaScript truthiness (the condition of [if], [!], [&&], [||]). *)
Definition truthy (v : JsValue) : bool :=
  match v with
  | JUndefined | JNull => false
  | JBool b => b
  | JNum n => negb (Z.eqb n 0)
  | JStr s => negb (String.eqb s "")
  | JArr _ | JObj _ => true
  end.

(** [a || b] *)
Definition js_or (a b : JsValue) : JsValue := if truthy a then a else b.

(** [typeof v === 'object'] (true of [null], arrays and objects). *)
Definition typeof_object (v : JsValue) : bool :=
  match v with
  | JNull | JArr _ | JObj _ => true
  | _ => false
  end.

Definition str_truthy (s : string) : bool := negb (String.eqb s "").

Fixpoint assoc_get {A} (k : string) (l : list (string * A)) : option A :=
  match l with
  | [] => None
  | (k', v) :: r => if String.eqb k k' then Some v else assoc_get k r
  end.

Definition assoc_mem {A} (k : string) (l : list (string * A)) : bool :=
  match assoc_get k l with Some _ => true | None => false end.

(** [v.k] on a value that is neither [null] nor [undefined]: own
    properties of an object, [undefined] for anything else. *)
Definition prop (v : JsValue) (k : string) : JsValue :=
  match v with
  | JObj l => match assoc_get k l with Some x => x | None => JUndefined end
  | _ => JUndefined
  end.

(** [k in v] for an object or an array of JSON data (named keys only). *)
Definition has_key (k : string) (v : JsValue) : bool :=
  match v with
  | JObj l => assoc_mem k l
  | _ => false
  end.

(** [{...base, ...extra}] on entry lists: the keys of [base] stay in
    place and take the value [extra] gives them; the new keys of [extra]
    follow in their order. *)
Definition obj_assign (base extra : list (string * JsValue))
  : list (string * JsValue) :=
  map (fun kv => (fst kv, match assoc_get (fst kv) extra with
                          | Some v' => v'
                          | None => snd kv
                          end)) base
  ++ filter (fun kv => negb (assoc_mem (fst kv) base)) extra.

(** The own enumerable entries [{...v}] copies. *)
Definition entries_of (v : JsValue) : list (string * JsValue) :=
  match v with
  | JObj l => l
  | _ => []
  end.

(** [o.k = x] on an object held in a variable of type [any]. *)
Definition set_prop (o : JsValue) (k : string) (x : JsValue) : JsValue :=
  match o with
  | JObj l => JObj (obj_assign l [(k, x)])
  | _ => o
  end.

(** [v === s] for a string literal [s]. *)
Definition is_str (v : JsValue) (s : string) : bool :=
  match v with
  | JStr s' => String.eqb s' s
  | _ => false
  end.

(** [s.includes(sub)] *)
Fixpoint includes (s sub : string) : bool :=
  String.prefix sub s ||
  match s with
  | EmptyString => false
  | String _ r => includes r sub
  end.

(** [n.toString()] for an integer. *)
Definition num_to_string (n : Z) : string :=
  NilZero.string_of_int (Z.to_int n).

(** Number of constructors of a value. *)
Fixpoint js_size (v : JsValue) : nat :=
  match v with
  | JArr l =>
      S ((fix go (l : list JsValue) : nat :=
            match l with
            | [] => 0
            | x :: r => js_size x + go r
            end%nat) l)
  | JObj l =>
      S ((fix go (l : list (string * JsValue)) : nat :=
            match l with
            | [] => 0
            | (_, x) :: r => js_size x + go r
            end%nat) l)
  | _ => 1%nat
  end.

End Js.
Import Js.

(* ===================================================================== *)
(** ** services/shared/utils/response.utils.ts *)
(* ===================================================================== *)

Module ResponseUtils.

(** [data && typeof data === 'object' && 'success' in data && 'data' in data] *)
Definition has_expected_structure (data : JsValue) : bool :=
  truthy data && typeof_object data
  && has_key "success" data && has_key "data" data.

Definition standardizeResponse (data : JsValue) : JsValue :=
  if has_expected_structure data then data
  else JObj [("success", JBool true); ("data", data)].

End ResponseUtils.

(* ===================================================================== *)
(** ** core/exceptions/*.ts *)
(* ===================================================================== *)

Module HttpStatus.
Definition BAD_REQUEST : Z := 400.
Definition UNAUTHORIZED : Z := 401.
Definition FORBIDDEN : Z := 403.
Definition NOT_FOUND : Z := 404.
Definition CONFLICT : Z := 409.
Definition PAYLOAD_TOO_LARGE : Z := 413.
Definition UNPROCESSABLE_ENTITY : Z := 422.
Definition TOO_MANY_REQUESTS : Z := 429.
Definition INTERNAL_SERVER_ERROR : Z := 500.
Definition SERVICE_UNAVAILABLE : Z := 503.
Definition GATEWAY_TIMEOUT : Z := 504.
End HttpStatus.

Module Exceptions.

(** The [response] of an axios error: the upstream's status and body. *)
Record AxiosResponse := {
  status : Z;
  data : JsValue
}.

(** An [Error] object as the HTTP client rejects with: transport [code],
    [message], the upstream [response] when one was received, and the
    request's [config.url]. *)
Record JsError := {
  code : option string;
  message : string;
  response : option AxiosResponse;
  config_url : string
}.

(** What a [throw] can carry.  [BaseException] extends [HttpException];
    it is kept apart because the filter tests [instanceof BaseException]
    first.  Its fields are the constructor's arguments. *)
Inductive Exception :=
| BaseException (errorType message : string) (statusCode : Z)
    (errorCode : option string) (validationErrors : option (list JsValue))
| HttpException (response : JsValue) (status : Z)
| ErrorObject (e : JsError)
| ThrownValue (v : JsValue).

Definition instanceof_HttpException (e : Exception) : bool :=
  match e with
  | BaseException _ _ _ _ _ | HttpException _ _ => true
  | _ => false
  end.

(** [exception.getStatus()] of an [HttpException]. *)
Definition getStatus (e : Exception) : Z :=
  match e with
  | BaseException _ _ st _ _ => st
  | HttpException _ st => st
  | _ => HttpStatus.INTERNAL_SERVER_ERROR
  end.

(** The body [BaseException]'s constructor hands to [HttpException]. *)
Definition base_response (errorType message : string)
    (errorCode : option string) (validationErrors : option (list JsValue))
  : JsValue :=
  let response := [("error", JStr errorType); ("message", JStr message)] in
  let response :=
    match errorCode with
    | Some c => if str_truthy c
                then obj_assign response [("errorCode", JStr c)]
                else response
    | None => response
    end in
  let response :=
    match validationErrors with
    | Some ve => obj_assign response [("validationErrors", JArr ve)]
    | None => response
    end in
  JObj response.

(** [exception.getResponse()] of an [HttpException]. *)
Definition getResponse (e : Exception) : JsValue :=
  match e with
  | BaseException ty msg _ ec ve => base_response ty msg ec ve
  | HttpException r _ => r
  | _ => JUndefined
  end.

(* auth-exceptions.ts *)
Definition AuthenticationException (message : option string) : Exception :=
  BaseException "Unauthorized"
    (match message with Some m => m | None => "Authentication failed." end)
    HttpStatus.UNAUTHORIZED (Some "ERR_AUTHENTICATION_FAILED") None.

Definition ForbiddenException (resource action : string) : Exception :=
  BaseException "Forbidden"
    ("You don't have permission to " +:+ action +:+ " this " +:+ resource)
    HttpStatus.FORBIDDEN (Some "ERR_INSUFFICIENT_PERMISSIONS") None.

(* connection-exceptions.ts *)
Definition ServiceUnavailableException (service : option string) : Exception :=
  let serviceMsg :=
    match service with
    | Some s => if str_truthy s then s +:+ " service" else "service"
    | None => "service"
    end in
  BaseException "ServiceUnavailable"
    ("The " +:+ serviceMsg +:+ " is currently unavailable. Please try again later.")
    HttpStatus.SERVICE_UNAVAILABLE (Some "ERR_SERVICE_UNAVAILABLE") None.

Definition GatewayTimeoutException : Exception :=
  BaseException "GatewayTimeout"
    "The server did not receive a timely response from an upstream server."
    HttpStatus.GATEWAY_TIMEOUT (Some "ERR_GATEWAY_TIMEOUT") None.

(* rate-limit-exceptions.ts; [resetIso] is the rendering
   [new Date(resetTime * 1000).toISOString()] of a truthy [resetTime]. *)
Definition RateLimitExceededException (scope : option string)
    (resetIso : option string) : Exception :=
  let scope := match scope with Some s => s | None => "request" end in
  let message := "Too many " +:+ scope +:+ "s, please try again later." in
  let message :=
    match resetIso with
    | Some iso => message +:+ " Rate limit resets at " +:+ iso
    | None => message
    end in
  BaseException "TooManyRequests" message
    HttpStatus.TOO_MANY_REQUESTS (Some "ERR_RATE_LIMIT_EXCEEDED") None.

(* validation-exceptions.ts *)
Definition ValidationException (message : string)
    (validationErrors : option (list JsValue)) : Exception :=
  BaseException "ValidationError" message
    HttpStatus.UNPROCESSABLE_ENTITY (Some "ERR_VALIDATION_FAILED")
    validationErrors.

Definition InvalidFileException (message : string) : Exception :=
  BaseException "InvalidFile" message
    HttpStatus.BAD_REQUEST (Some "ERR_INVALID_FILE") None.

Definition InvalidContentException : Exception :=
  BaseException "InvalidContent" "The provided content is not valid"
    HttpStatus.BAD_REQUEST (Some "ERR_INVALID_CONTENT") None.

Definition InvalidFileNameException : Exception :=
  BaseException "InvalidFileName" "File must have a valid extension"
    HttpStatus.BAD_REQUEST (Some "ERR_INVALID_FILENAME") None.

Definition FileTooLargeException : Exception :=
  BaseException "FileTooLarge" "File size exceeds the limit."
    HttpStatus.PAYLOAD_TOO_LARGE (Some "ERR_FILE_TOO_LARGE") None.

(* resource-exceptions.ts *)
Definition ResourceNotFoundException (resourceType identifier : string)
  : Exception :=
  BaseException "NotFound"
    ("The " +:+ resourceType +:+ " with identifier " +:+ identifier
       +:+ " could not be found.")
    HttpStatus.NOT_FOUND (Some "ERR_RESOURCE_NOT_FOUND") None.

Definition ResourceLimitExceededException (resourceType : string) (limit : Z)
  : Exception :=
  BaseException (resourceType +:+ "LimitExceeded")
    ("The " +:+ resourceType +:+ " has reached the maximum limit of "
       +:+ num_to_string limit +:+ ".")
    HttpStatus.FORBIDDEN (Some "ERR_RESOURCE_LIMIT_EXCEEDED") None.

Definition ResourceConflictException (resourceType identifier : string)
  : Exception :=
  BaseException "Conflict"
    ("The " +:+ resourceType +:+ " with identifier " +:+ identifier
       +:+ " already exists.")
    HttpStatus.CONFLICT (Some "ERR_RESOURCE_CONFLICT") None.

(** The framework's [UnauthorizedException(message)]: an [HttpException]
    with status 401 whose body names the status. *)
Definition UnauthorizedException (message : string) : Exception :=
  HttpException
    (JObj [("message", JStr message); ("error", JStr "Unauthorized");
           ("statusCode", JNum HttpStatus.UNAUTHORIZED)])
    HttpStatus.UNAUTHORIZED.

(** Results of code that may throw. *)
Definition Result (A : Type) : Type := Exception + A.
Definition Throw {A} (e : Exception) : Result A := inl e.
Definition Return {A} (a : A) : Result A := inr a.

End Exceptions.
Import Exceptions.

(* ===================================================================== *)
(** ** The request as the guards and the filter read it *)
(* ===================================================================== *)

Record Request := {
  req_method : string;
  req_path : string;
  req_url : string;
  req_headers : gmap string string;   (* lower-cased header names *)
  req_ip : option string;
  req_user : JsValue;                 (* [request.user], [undefined] at first *)
  req_params : JsValue;
  req_body : JsValue;
  req_query : JsValue
}.

(** [request.headers[name]] as a JS value. *)
Definition header (request : Request) (name : string) : JsValue :=
  match req_headers request !! name with
  | Some v => JStr v
  | None => JUndefined
  end.

Definition set_user (request : Request) (user : JsValue) : Request :=
  {| req_method := req_method request; req_path := req_path request;
     req_url := req_url request; req_headers := req_headers request;
     req_ip := req_ip request; req_user := user;
     req_params := req_params request; req_body := req_body request;
     req_query := req_query request |}.

(* ===================================================================== *)
(** ** core/filters/all-exception.filter.ts *)
(* ===================================================================== *)

Module AllExceptionsFilter.

Definition getErrorTypeFromStatus (status : Z) : string :=
  if status =? HttpStatus.BAD_REQUEST then "BadRequest"
  else if status =? HttpStatus.UNAUTHORIZED then "Unauthorized"
  else if status =? HttpStatus.FORBIDDEN then "Forbidden"
  else if status =? HttpStatus.NOT_FOUND then "NotFound"
  else if status =? HttpStatus.CONFLICT then "Conflict"
  else if status =? HttpStatus.UNPROCESSABLE_ENTITY then "ValidationError"
  else if status =? HttpStatus.TOO_MANY_REQUESTS then "TooManyRequests"
  else if status =? HttpStatus.GATEWAY_TIMEOUT then "GatewayTimeout"
  else if status =? HttpStatus.PAYLOAD_TOO_LARGE then "PayloadTooLarge"
  else if status =? HttpStatus.SERVICE_UNAVAILABLE then "ServiceUnavailable"
  else "InternalServerError".

Definition getDefaultMessageForStatus (status : Z) : string :=
  if status =? HttpStatus.BAD_REQUEST
  then "The request was malformed or contained invalid parameters."
  else if status =? HttpStatus.UNAUTHORIZED
  then "Authentication is required to access this resource."
  else if status =? HttpStatus.FORBIDDEN
  then "You do not have permission to access this resource."
  else if status =? HttpStatus.NOT_FOUND
  then "The requested resource could not be found."
  else if status =? HttpStatus.CONFLICT
  then "The request could not be completed due to a conflict with the current state of the resource."
  else if status =? HttpStatus.UNPROCESSABLE_ENTITY
  then "The request was well-formed but contained invalid fields."
  else if status =? HttpStatus.TOO_MANY_REQUESTS
  then "Too many requests have been sent in a given amount of time."
  else if status =? HttpStatus.GATEWAY_TIMEOUT
  then "The server did not receive a timely response from an upstream server."
  else if status =? HttpStatus.SERVICE_UNAVAILABLE
  then "The service is currently unavailable. Please try again later."
  else if status =? HttpStatus.PAYLOAD_TOO_LARGE
  then "File size exceeds the limit."
  else "An unexpected error occurred while processing the request.".

(** The [timestamp] and [path] every branch stamps on the envelope;
    [now] is [new Date().toISOString()]. *)
Definition stamp (now : string) (request : Request)
  : list (string * JsValue) :=
  [("timestamp", JStr now); ("path", JStr (req_url request))].

(** The [HttpException] branch (not a [BaseException]); the response
    of an [HttpException] is a string or an object, never [null]. *)
Definition http_exception_response (now : string) (request : Request)
    (exceptionResponse : JsValue) (status : Z) : list (string * JsValue) :=
  if typeof_object exceptionResponse then
    let errorType :=
      js_or (prop exceptionResponse "error")
            (JStr (getErrorTypeFromStatus status)) in
    let errorType :=
      if is_str errorType "Bad Request" then JStr "BadRequest"
      else errorType in
    let errorResponse :=
      [("error", errorType);
       ("message", js_or (prop exceptionResponse "message")
                         (JStr (getDefaultMessageForStatus status)))]
      ++ stamp now request in
    let errorResponse :=
      if truthy (prop exceptionResponse "validationErrors")
      then obj_assign errorResponse
             [("validationErrors", prop exceptionResponse "validationErrors")]
      else errorResponse in
    if truthy (prop exceptionResponse "errorCode")
    then obj_assign errorResponse
           [("errorCode", prop exceptionResponse "errorCode")]
    else errorResponse
  else
    [("error", JStr (getErrorTypeFromStatus status));
     ("message", js_or exceptionResponse
                       (JStr (getDefaultMessageForStatus status)))]
    ++ stamp now request.

Definition is_timeout (err : JsError) : bool :=
  match code err with
  | Some c => String.eqb c "ETIMEDOUT" || String.eqb c "ECONNABORTED"
  | None => false
  end
  || (str_truthy (message err)
      && (includes (message err) "timeout"
          || includes (message err) "Timeout")).

Definition is_connection_error (err : JsError) : bool :=
  match code err with
  | Some c => String.eqb c "ECONNREFUSED" || String.eqb c "ENOTFOUND"
  | None => false
  end
  || (str_truthy (message err) && includes (message err) "connect").

(** The [Error] branch: errors of the HTTP client that reach the filter. *)
Definition error_response (now : string) (request : Request) (err : JsError)
  : Z * list (string * JsValue) :=
  if is_timeout err then
    (HttpStatus.GATEWAY_TIMEOUT,
     [("error", JStr "GatewayTimeout");
      ("message", JStr "The server did not receive a timely response from an upstream server.");
      ("errorCode", JStr "ERR_GATEWAY_TIMEOUT")] ++ stamp now request)
  else if is_connection_error err then
    (HttpStatus.SERVICE_UNAVAILABLE,
     [("error", JStr "ServiceUnavailable");
      ("message", JStr "The service is currently unavailable. Please try again later.");
      ("errorCode", JStr "ERR_SERVICE_UNAVAILABLE")] ++ stamp now request)
  else
    match response err with
    | Some r =>
        if truthy (data r) then
          let status :=
            if status r =? 0 then HttpStatus.INTERNAL_SERVER_ERROR
            else status r in
          if truthy (prop (data r) "error") && truthy (prop (data r) "message")
          then
            let data :=
              if is_str (prop (data r) "error") "Bad Request"
              then set_prop (data r) "error" (JStr "BadRequest")
              else data r in
            (status, obj_assign (entries_of data) (stamp now request))
          else
            (status,
             [("error", JStr (getErrorTypeFromStatus status));
              ("message",
               js_or (prop (data r) "message")
                 (js_or (JStr (message err))
                        (JStr (getDefaultMessageForStatus status))))]
             ++ stamp now request)
        else
          (HttpStatus.INTERNAL_SERVER_ERROR,
           [("error", JStr "UnexpectedError");
            ("message", JStr (message err))] ++ stamp now request)
    | None =>
        (HttpStatus.INTERNAL_SERVER_ERROR,
         [("error", JStr "UnexpectedError");
          ("message", JStr (message err))] ++ stamp now request)
    end.

(** The first half of [catch]: the status and the envelope the branch
    on the exception's class settles on. *)
Definition classify (now : string) (exception : Exception) (request : Request)
  : Z * list (string * JsValue) :=
  match exception with
  | BaseException ty msg st ec ve =>
      (st, obj_assign (entries_of (base_response ty msg ec ve))
                      (stamp now request))
  | HttpException exceptionResponse st =>
      (st, http_exception_response now request exceptionResponse st)
  | ErrorObject err => error_response now request err
  | ThrownValue _ =>
      (HttpStatus.INTERNAL_SERVER_ERROR,
       [("error", JStr "InternalServerError");
        ("message", JStr "An unexpected error occurred.")]
       ++ stamp now request)
  end.

(** The second half of [catch]: the [Bad Request] rewrite, the 413
    envelope and the request id. *)
Definition finish (now : string) (request : Request) (status : Z)
    (errorResponse : list (string * JsValue)) : JsValue :=
  let errorResponse :=
    if is_str (prop (JObj errorResponse) "error") "Bad Request"
    then obj_assign errorResponse [("error", JStr "BadRequest")]
    else errorResponse in
  let errorResponse :=
    if status =? HttpStatus.PAYLOAD_TOO_LARGE then
      [("error", JStr "PayloadTooLarge");
       ("message", JStr "File size exceeds the limit.");
       ("errorCode", JStr "ERR_PAYLOAD_TOO_LARGE")] ++ stamp now request
    else errorResponse in
  let errorResponse :=
    if truthy (header request "x-request-id")
    then obj_assign errorResponse [("requestId", header request "x-request-id")]
    else errorResponse in
  JObj errorResponse.

(** [catch(exception, host)]: the status and the JSON body written to the
    client. *)
Definition catch (now : string) (exception : Exception) (request : Request)
  : Z * JsValue :=
  let '(status, errorResponse) := classify now exception request in
  (status, finish now request status errorResponse).

End AllExceptionsFilter.

(* ===================================================================== *)
(** ** core/redis/redis.service.ts *)
(* ===================================================================== *)

Module Redis.

(** The two commands of the redis client the throttler uses.  Each takes
    the store to its next state and either resolves or rejects. *)
Class RedisClient (R : Type) := {
  incrBy : string -> Z -> R -> (JsError + Z) * R;
  expire : string -> Z -> R -> (JsError + bool) * R
}.

Section RedisService.
Context {R : Type} `{RedisClient R}.

(** [ttl && value === increment]: the TTL is set on the first increment
    of a key only.  Every rejection is caught, logged and answered with
    0. *)
Definition incrementByThrottler (key : string) (increment : Z)
    (ttl : option Z) (r : R) : Result Z * R :=
  match incrBy key increment r with
  | (inl _, r1) => (Return 0, r1)
  | (inr value, r1) =>
      match ttl with
      | Some t =>
          if negb (t =? 0) && (value =? increment) then
            match expire key t r1 with
            | (inl _, r2) => (Return 0, r2)
            | (inr _, r2) => (Return value, r2)
            end
          else (Return value, r1)
      | None => (Return value, r1)
      end
  end.

End RedisService.

(** An in-memory store: counters, the TTL last set on a key, and the
    number of commands the connection still answers ([None]: it stays
    up). *)
Record MemRedis := {
  counters : gmap string Z;
  expiries : gmap string Z;
  healthy_ops : option nat
}.

Definition connection_error : JsError :=
  {| code := Some "ECONNREFUSED"; message := "connect ECONNREFUSED";
     response := None; config_url := "" |}.

(** One command reaches the server, unless the connection is down. *)
Definition tick (r : MemRedis) : option MemRedis :=
  match healthy_ops r with
  | None => Some r
  | Some O => None
  | Some (S n) =>
      Some {| counters := counters r; expiries := expiries r;
              healthy_ops := Some n |}
  end.

Definition mem_incrBy (key : string) (increment : Z) (r : MemRedis)
  : (JsError + Z) * MemRedis :=
  match tick r with
  | None => (inl connection_error, r)
  | Some r' =>
      let value := default 0 (counters r' !! key) + increment in
      (inr value,
       {| counters := <[key := value]> (counters r');
          expiries := expiries r'; healthy_ops := healthy_ops r' |})
  end.

Definition mem_expire (key : string) (ttl : Z) (r : MemRedis)
  : (JsError + bool) * MemRedis :=
  match tick r with
  | None => (inl connection_error, r)
  | Some r' =>
      match counters r' !! key with
      | Some _ =>
          (inr true,
           {| counters := counters r';
              expiries := <[key := ttl]> (expiries r');
              healthy_ops := healthy_ops r' |})
      | None => (inr false, r')
      end
  end.

#[export] Instance MemRedis_client : RedisClient MemRedis :=
  {| incrBy := mem_incrBy; expire := mem_expire |}.

End Redis.
Import Redis.

(* ===================================================================== *)
(** ** core/throttler/throttler.service.ts *)
(* ===================================================================== *)

Module ThrottlerService.

Record RateLimitResult := {
  limited : bool;
  current : Z;
  limit : Z;
  remaining : Z;
  resetTime : Z
}.

(** [THROTTLE_TTL] and [THROTTLE_LIMIT] after [parseInt]. *)
Record Config := {
  defaultTtl : Z;
  defaultLimit : Z
}.

Section Service.
Variable cfg : Config.

Definition limitMap : gmap string Z :=
  list_to_map
    [("POST:user", 5); ("PUT:user", 10);
     ("POST:product", 5); ("PUT:product", 10);
     ("POST:file", 10); ("PUT:file", 15);
     ("POST:function", 15); ("PUT:function", 20); ("DELETE:function", 10);
     ("POST:version", 5); ("DELETE:version", 5);
     ("POST:data", 20); ("DELETE:data", 10);
     ("POST:chat", 60);
     ("GET", defaultLimit cfg); ("DELETE", 20)].

Definition ttlMap : gmap string Z :=
  list_to_map
    [("POST:user", defaultTtl cfg); ("PUT:user", defaultTtl cfg);
     ("POST:product", defaultTtl cfg); ("PUT:product", defaultTtl cfg);
     ("POST:file", defaultTtl cfg); ("PUT:file", defaultTtl cfg);
     ("POST:function", defaultTtl cfg); ("PUT:function", defaultTtl cfg);
     ("DELETE:function", defaultTtl cfg);
     ("POST:version", defaultTtl cfg); ("DELETE:version", defaultTtl cfg);
     ("POST:data", defaultTtl cfg); ("DELETE:data", defaultTtl cfg);
     ("POST:sync", defaultTtl cfg * 2);
     ("POST:chat", defaultTtl cfg);
     ("GET", defaultTtl cfg); ("DELETE", defaultTtl cfg * 2)].

(** [m[k]] when it is truthy: present and not 0. *)
Definition lookup_truthy (m : gmap string Z) (k : string) : option Z :=
  match m !! k with
  | Some v => if v =? 0 then None else Some v
  | None => None
  end.

(** [`${method}:${resource}`] under the guard [resource && ...]. *)
Definition method_resource (method : string) (resource : option string)
  : option string :=
  match resource with
  | Some res => if str_truthy res then Some (method +:+ ":" +:+ res) else None
  | None => None
  end.

(** The [(limit, ttl)] pair the head of [checkRateLimit] settles on. *)
Definition resolve_rule (method : string) (resource : option string)
  : Z * Z :=
  let specific :=
    match method_resource method resource with
    | Some k => option_map (fun l => (k, l)) (lookup_truthy limitMap k)
    | None => None
    end in
  match specific with
  | Some (k, l) => (l, default (defaultTtl cfg) (lookup_truthy ttlMap k))
  | None =>
      match lookup_truthy limitMap method with
      | Some l => (l, default (defaultTtl cfg) (lookup_truthy ttlMap method))
      | None => (defaultLimit cfg, defaultTtl cfg)
      end
  end.

(** [Math.floor(Date.now() / (d * 1000))] rendered into the key; JS
    division by a zero window gives an infinity or NaN. *)
Definition period_string (now d : Z) : string :=
  if d * 1000 =? 0 then
    (if 0 <? now then "Infinity" else if now =? 0 then "NaN" else "-Infinity")
  else num_to_string (now / (d * 1000)).

Definition generateKey (now : Z) (identifier method : string)
    (resource : option string) (ttl : option Z) : string :=
  let resourcePart :=
    match resource with
    | Some res => if str_truthy res then ":" +:+ res else ""
    | None => ""
    end in
  let period :=
    match ttl with
    | Some t => if t =? 0 then period_string now (defaultTtl cfg)
                else period_string now t
    | None => period_string now (defaultTtl cfg)
    end in
  "api-gateway:" +:+ identifier +:+ ":" +:+ method +:+ resourcePart
    +:+ ":" +:+ period.

(** [Math.ceil(Date.now() / 1000)] *)
Definition ceil_seconds (now : Z) : Z := - ((- now) / 1000).

Context {R : Type} `{RedisClient R}.

Definition checkRateLimit (now : Z) (key method : string)
    (resource : option string) (r : R) : Result RateLimitResult * R :=
  let '(limit, ttl) := resolve_rule method resource in
  (* try *)
  let redisKey := generateKey now key method resource (Some ttl) in
  match incrementByThrottler redisKey 1 (Some ttl) r with
  | (inr current, r') =>
      let resetTime := ceil_seconds now + ttl in
      let remaining := Z.max 0 (limit - current) in
      (Return {| limited := limit <? current; current := current;
                 limit := limit; remaining := remaining;
                 resetTime := resetTime |}, r')
  | (inl _, r') =>
      (* catch: fail open *)
      (Return {| limited := false; current := 0; limit := limit;
                 remaining := limit;
                 resetTime := ceil_seconds now + ttl |}, r')
  end.

Definition getTtl (method : string) (resource : option string) : Z :=
  match match method_resource method resource with
        | Some k => lookup_truthy ttlMap k
        | None => None
        end with
  | Some t => t
  | None => default (defaultTtl cfg) (lookup_truthy ttlMap method)
  end.

Definition getLimit (method : string) (resource : option string) : Z :=
  match match method_resource method resource with
        | Some k => lookup_truthy limitMap k
        | None => None
        end with
  | Some l => l
  | None => default (defaultLimit cfg) (lookup_truthy limitMap method)
  end.

End Service.

End ThrottlerService.

(* ===================================================================== *)
(** ** core/throttler/throttler.guard.ts *)
(* ===================================================================== *)

Module ThrottlerGuard.
Import ThrottlerService.

Definition is_colon (c : Ascii.ascii) : bool := Ascii.eqb c ":"%char.

(** [.replace(/:{2,}/g, ':')] *)
Fixpoint collapse_colons (s : string) : string :=
  match s with
  | EmptyString => EmptyString
  | String c r =>
      if is_colon c then
        match r with
        | String c' _ =>
            if is_colon c' then collapse_colons r
            else String c (collapse_colons r)
        | EmptyString => String c EmptyString
        end
      else String c (collapse_colons r)
  end.

(** [.replace(/:$/, '')] *)
Fixpoint strip_trailing_colon (s : string) : string :=
  match s with
  | EmptyString => EmptyString
  | String c r =>
      match r with
      | EmptyString => if is_colon c then EmptyString else s
      | _ => String c (strip_trailing_colon r)
      end
  end.

(** [.replace(/^:/, '')] *)
Definition strip_leading_colon (s : string) : string :=
  match s with
  | String c r => if is_colon c then r else s
  | EmptyString => EmptyString
  end.

Fixpoint skip (n : nat) (s : string) : string :=
  match n, s with
  | S n', String _ r => skip n' r
  | _, _ => s
  end.

(** The token [ffff] followed by [$] or [:]. *)
Definition ffff_here (s : string) : bool :=
  String.prefix "ffff" s &&
  match skip 4 s with
  | EmptyString => true
  | String c _ => is_colon c
  end.

(** [.replace(/(^|:)ffff($|:)/g, '$1$2')]: a left-to-right scan for
    non-overlapping matches; [at_start] tells whether [^] can match. *)
Fixpoint drop_ffff (fuel : nat) (at_start : bool) (s : string) : string :=
  match fuel with
  | O => s
  | S fuel' =>
      match s with
      | EmptyString => EmptyString
      | String c r =>
          if at_start && ffff_here s then
            match skip 4 s with
            | EmptyString => EmptyString
            | String _ rest => ":" +:+ drop_ffff fuel' false rest
            end
          else if is_colon c && ffff_here r then
            match skip 4 r with
            | EmptyString => ":"
            | String _ rest => "::" +:+ drop_ffff fuel' false rest
            end
          else String c (drop_ffff fuel' false r)
      end
  end.

Definition normalize_identifier (identifier : string) : string :=
  let s := collapse_colons identifier in
  let s := strip_trailing_colon s in
  let s := strip_leading_colon s in
  let s := drop_ffff (S (String.length s)) true s in
  let s := collapse_colons s in
  strip_trailing_colon (strip_leading_colon s).

(** A value inside a template literal. *)
Fixpoint template (v : JsValue) : string :=
  match v with
  | JUndefined => "undefined"
  | JNull => "null"
  | JBool true => "true"
  | JBool false => "false"
  | JNum n => num_to_string n
  | JStr s => s
  | JArr l =>
      (fix join (l : list JsValue) : string :=
         match l with
         | [] => ""
         | x :: r =>
             let sx := match x with
                       | JUndefined | JNull => ""
                       | _ => template x
                       end in
             match r with
             | [] => sx
             | _ => sx +:+ "," +:+ join r
             end
         end) l
  | JObj _ => "[object Object]"
  end.

(** [user?.k] *)
Definition opt_prop (user : JsValue) (k : string) : JsValue :=
  match user with
  | JUndefined | JNull => JUndefined
  | _ => prop user k
  end.

Definition ip_value (request : Request) : JsValue :=
  match req_ip request with
  | Some ip => JStr ip
  | None => JUndefined
  end.

(** The client identifier before normalisation.  Without an API key the
    value is used as it is, and [.replace] exists on strings only. *)
Definition raw_identifier (request : Request) : Result string :=
  let apiKey := header request "x-api-key" in
  let user := req_user request in
  if truthy apiKey then
    Return ("api-key:" +:+ template apiKey +:+ ":"
              +:+ template (js_or (ip_value request)
                              (js_or (opt_prop user "id") (JStr "anonymous"))))
  else
    match js_or (opt_prop user "id")
                (js_or (ip_value request) (JStr "anonymous")) with
    | JStr s => Return s
    | _ => Throw (ErrorObject
                    {| code := None;
                       message := "identifier.replace is not a function";
                       response := None; config_url := "" |})
    end.

Definition resourceIntensiveOps : list string :=
  ["POST:user"; "POST:product"; "POST:file"; "POST:sync"; "POST:data";
   "DELETE:data"].

Definition isResourceIntensiveOperation (method : string)
    (resource : option string) : bool :=
  match method_resource method resource with
  | Some k => existsb (String.eqb k) resourceIntensiveOps
  | None => false
  end.

Definition too_many_requests (message : string) : Exception :=
  HttpException
    (JObj [("statusCode", JNum HttpStatus.TOO_MANY_REQUESTS);
           ("message", JStr message);
           ("error", JStr "Too Many Requests")])
    HttpStatus.TOO_MANY_REQUESTS.

(** Response headers in the order they were set. *)
Definition Headers := list (string * string).

Definition rate_limit_headers (prefix : string) (res : RateLimitResult)
  : Headers :=
  [(prefix +:+ "-Limit", num_to_string (limit res));
   (prefix +:+ "-Remaining", num_to_string (remaining res));
   (prefix +:+ "-Reset", num_to_string (resetTime res))].

Section Guard.
Variable cfg : Config.
Context {R : Type} `{RedisClient R}.

(** The optional tenant-level check.  It ends the request only with the
    429 it throws itself; any other error is logged and ignored. *)
Definition tenant_check (enableTenantRateLimits : bool) (now : Z)
    (request : Request) (resource : option string) (r : R)
  : option Exception * Headers * R :=
  let user := req_user request in
  let tenantName := opt_prop user "tenantName" in
  let tenantId := opt_prop user "tenantId" in
  let method := req_method request in
  if enableTenantRateLimits && truthy tenantName && truthy tenantId
     && isResourceIntensiveOperation method resource then
    let tenantKey :=
      "tenant:" +:+ template tenantName +:+ ":" +:+ template tenantId in
    match checkRateLimit cfg now tenantKey method resource r with
    | (inr tenantLimit, r') =>
        if limited tenantLimit then
          (Some (too_many_requests
                   "Tenant rate limit exceeded, please try again later."),
           rate_limit_headers "X-Tenant-RateLimit" tenantLimit, r')
        else (None, [], r')
    | (inl e, r') =>
        if instanceof_HttpException e then (Some e, [], r')
        else (None, [], r')
    end
  else (None, [], r).

(** [canActivate]: [isPublic], [skipThrottle] and [resource] are the
    route's metadata. *)
Definition canActivate (isPublic skipThrottle : bool)
    (resource : option string) (enableTenantRateLimits : bool) (now : Z)
    (request : Request) (r : R) : Result bool * Headers * R :=
  if isPublic then (Return true, [], r)
  else if skipThrottle then (Return true, [], r)
  else if String.eqb (req_path request) "/health"
          || String.eqb (req_path request) "/api/health"
  then (Return true, [], r)
  else
    match raw_identifier request with
    | inl e => (Throw e, [], r)
    | inr identifier =>
        let identifier := normalize_identifier identifier in
        let method := req_method request in
        match tenant_check enableTenantRateLimits now request resource r with
        | (Some e, hs, r1) => (Throw e, hs, r1)
        | (None, hs, r1) =>
            match checkRateLimit cfg now identifier method resource r1 with
            | (inl e, r2) => (Throw e, hs, r2)
            | (inr res, r2) =>
                let hs := hs ++ rate_limit_headers "X-RateLimit" res in
                if limited res then
                  (Throw (too_many_requests
                            "Too many requests, please try again later."),
                   hs, r2)
                else (Return true, hs, r2)
            end
        end
    end.

End Guard.

End ThrottlerGuard.

(* ===================================================================== *)
(** ** services/shared/services/circuit-breaker.service.ts *)
(* ===================================================================== *)

Module CircuitBreaker.

Inductive CircuitState := CLOSED | OPEN | HALF_OPEN.

Definition state_eqb (a b : CircuitState) : bool :=
  match a, b with
  | CLOSED, CLOSED | OPEN, OPEN | HALF_OPEN, HALF_OPEN => true
  | _, _ => false
  end.

Record CircuitOptions := {
  failureThreshold : Z;
  resetTimeout : Z;        (* milliseconds *)
  halfOpenAttempts : Z
}.

(** [Partial<CircuitOptions>] *)
Record PartialOptions := {
  failureThreshold_opt : option Z;
  resetTimeout_opt : option Z;
  halfOpenAttempts_opt : option Z
}.

Definition default_options : CircuitOptions :=
  {| failureThreshold := 3; resetTimeout := 30000; halfOpenAttempts := 2 |}.

(** [Object.assign(this.options, options)] *)
Definition assign_options (base : CircuitOptions)
    (options : option PartialOptions) : CircuitOptions :=
  match options with
  | None => base
  | Some o =>
      {| failureThreshold :=
           default (failureThreshold base) (failureThreshold_opt o);
         resetTimeout := default (resetTimeout base) (resetTimeout_opt o);
         halfOpenAttempts :=
           default (halfOpenAttempts base) (halfOpenAttempts_opt o) |}
  end.

Record CircuitBreaker := {
  serviceName : string;
  options : CircuitOptions;
  state : CircuitState;
  failureCount : Z;
  lastError : option Exception;
  nextAttempt : Z;
  halfOpenSuccesses : Z
}.

(** [new CircuitBreaker(serviceName, options)] *)
Definition new_breaker (serviceName : string)
    (options : option PartialOptions) : CircuitBreaker :=
  {| serviceName := serviceName;
     options := assign_options default_options options;
     state := CLOSED; failureCount := 0; lastError := None;
     nextAttempt := 0; halfOpenSuccesses := 0 |}.

Definition trip (now : Z) (b : CircuitBreaker) : CircuitBreaker :=
  {| serviceName := serviceName b; options := options b;
     state := OPEN; failureCount := failureCount b;
     lastError := lastError b;
     nextAttempt := now + resetTimeout (options b);
     halfOpenSuccesses := halfOpenSuccesses b |}.

Definition reset (b : CircuitBreaker) : CircuitBreaker :=
  {| serviceName := serviceName b; options := options b;
     state := CLOSED; failureCount := 0; lastError := None;
     nextAttempt := 0; halfOpenSuccesses := 0 |}.

(** [checkState()]; [now] is its [Date.now()]. *)
Definition checkState (now : Z) (b : CircuitBreaker)
  : Result unit * CircuitBreaker :=
  let b :=
    if state_eqb (state b) OPEN && (nextAttempt b <=? now) then
      {| serviceName := serviceName b; options := options b;
         state := HALF_OPEN; failureCount := failureCount b;
         lastError := lastError b; nextAttempt := nextAttempt b;
         halfOpenSuccesses := 0 |}
    else b in
  if state_eqb (state b) OPEN
  then (Throw (ServiceUnavailableException (Some (serviceName b))), b)
  else (Return tt, b).

Definition onSuccess (b : CircuitBreaker) : CircuitBreaker :=
  match state b with
  | HALF_OPEN =>
      let b :=
        {| serviceName := serviceName b; options := options b;
           state := state b; failureCount := failureCount b;
           lastError := lastError b; nextAttempt := nextAttempt b;
           halfOpenSuccesses := halfOpenSuccesses b + 1 |} in
      if halfOpenAttempts (options b) <=? halfOpenSuccesses b
      then reset b else b
  | CLOSED =>
      {| serviceName := serviceName b; options := options b;
         state := state b; failureCount := 0;
         lastError := lastError b; nextAttempt := nextAttempt b;
         halfOpenSuccesses := halfOpenSuccesses b |}
  | OPEN => b
  end.

(** [onFailure(error)]; [now] is the [Date.now()] of [trip()]. *)
Definition onFailure (now : Z) (error : Exception) (b : CircuitBreaker)
  : CircuitBreaker :=
  let b :=
    {| serviceName := serviceName b; options := options b;
       state := state b; failureCount := failureCount b;
       lastError := Some error; nextAttempt := nextAttempt b;
       halfOpenSuccesses := halfOpenSuccesses b |} in
  match state b with
  | HALF_OPEN => trip now b
  | CLOSED =>
      let b :=
        {| serviceName := serviceName b; options := options b;
           state := state b; failureCount := failureCount b + 1;
           lastError := lastError b; nextAttempt := nextAttempt b;
           halfOpenSuccesses := halfOpenSuccesses b |} in
      if failureThreshold (options b) <=? failureCount b
      then trip now b else b
  | OPEN => b
  end.

Section Execute.
(** [W] is everything the wrapped function can touch (the upstream);
    [fn] takes it to its next state and resolves or rejects. *)
Context {W T : Type}.

(** [execute(fn)]: [now] is the time of [checkState], [later] the time
    at which [fn] has settled. *)
Definition execute (now : Z) (fn : W -> Result T * W) (later : Z)
    (b : CircuitBreaker) (w : W) : Result T * CircuitBreaker * W :=
  match checkState now b with
  | (inl e, b1) => (Throw e, b1, w)
  | (inr _, b1) =>
      match fn w with
      | (inr result, w') => (Return result, onSuccess b1, w')
      | (inl error, w') => (Throw error, onFailure later error b1, w')
      end
  end.

(** [CircuitBreakerService]: the breakers by service name. *)
Definition getCircuit (serviceName : string)
    (options : option PartialOptions) (circuits : gmap string CircuitBreaker)
  : CircuitBreaker * gmap string CircuitBreaker :=
  match circuits !! serviceName with
  | Some c => (c, circuits)
  | None =>
      let circuit := new_breaker serviceName options in
      (circuit, <[serviceName := circuit]> circuits)
  end.

Definition executeWithCircuitBreaker (serviceName : string)
    (now : Z) (fn : W -> Result T * W) (later : Z)
    (options : option PartialOptions)
    (circuits : gmap string CircuitBreaker) (w : W)
  : Result T * gmap string CircuitBreaker * W :=
  let '(circuit, circuits) := getCircuit serviceName options circuits in
  let '(res, circuit', w') := execute now fn later circuit w in
  (res, <[serviceName := circuit']> circuits, w').

End Execute.

(** What one call does to a breaker, seen from outside. *)
Inductive Event :=
| Success (now : Z)
    (* a call at [now] whose wrapped function resolves *)
| Failure (now later : Z) (e : Exception).
    (* a call at [now] whose wrapped function rejects with [e] at [later] *)

(** The breaker after a call at which the wrapped function, if it is
    invoked, behaves as the event says. *)
Definition step (b : CircuitBreaker) (ev : Event) : CircuitBreaker :=
  match ev with
  | Success now =>
      snd (fst (execute now (fun w : unit => (Return tt, w)) now b tt))
  | Failure now later e =>
      snd (fst (execute (T := unit) now (fun w : unit => (Throw e, w))
                  later b tt))
  end.

Definition run (b : CircuitBreaker) (evs : list Event) : CircuitBreaker :=
  fold_left step evs b.

End CircuitBreaker.

(* ===================================================================== *)
(** ** services/service-a/service-a.service.ts *)
(* ===================================================================== *)

Module ServiceAService.
Import CircuitBreaker.

Definition is_slash (c : Ascii.ascii) : bool := Ascii.eqb c "/"%char.
Definition is_qmark (c : Ascii.ascii) : bool := Ascii.eqb c "?"%char.

(** [s.split('/').pop()] *)
Fixpoint last_segment (acc s : string) : string :=
  match s with
  | EmptyString => acc
  | String c r =>
      if is_slash c then last_segment EmptyString r
      else last_segment (acc +:+ String c EmptyString) r
  end.

(** [s.split('?')[0]] *)
Fixpoint before_query (s : string) : string :=
  match s with
  | EmptyString => EmptyString
  | String c r => if is_qmark c then EmptyString else String c (before_query r)
  end.

Definition timeout_error (error : JsError) : bool :=
  match code error with
  | Some c => String.eqb c "ECONNABORTED" || String.eqb c "ETIMEDOUT"
  | None => false
  end
  || (str_truthy (message error)
      && (includes (message error) "timeout"
          || includes (message error) "Timeout")).

Definition connect_error (error : JsError) : bool :=
  match code error with
  | Some c => String.eqb c "ECONNREFUSED" || String.eqb c "ENOTFOUND"
  | None => false
  end
  || (str_truthy (message error) && includes (message error) "connect").

(** [handleError(error)] never returns: this is the exception it throws. *)
Definition handleError (error : JsError) : Exception :=
  if timeout_error error then GatewayTimeoutException
  else if connect_error error then ServiceUnavailableException (Some "Service A")
  else
    match response error with
    | Some r =>
        if status r =? 404 then
          let resourceId :=
            before_query (last_segment EmptyString (config_url error)) in
          ResourceNotFoundException "item" resourceId
        else
          HttpException
            (js_or (data r)
               (JObj [("error", JStr "Unknown error");
                      ("message", JStr "Service A request failed")]))
            (if status r =? 0 then HttpStatus.INTERNAL_SERVER_ERROR
             else status r)
    | None =>
        HttpException
          (JObj [("error", JStr "InternalServerError");
                 ("message", JStr "Service A request failed")])
          HttpStatus.INTERNAL_SERVER_ERROR
    end.

Section Calls.
(** The upstream as the HTTP client shows it: a request resolves with
    the response or rejects with an error. *)
Context {W : Type}.
Definition Upstream := W -> (JsError + AxiosResponse) * W.

(** The function every method hands to the breaker:
    [firstValueFrom(http.get(url).pipe(catchError(this.handleError)))]
    followed by [standardizeResponse(data)]. *)
Definition wrapped_call (upstream : Upstream) (w : W) : Result JsValue * W :=
  match upstream w with
  | (inr resp, w') =>
      (Return (ResponseUtils.standardizeResponse (data resp)), w')
  | (inl error, w') => (Throw (handleError error), w')
  end.

(** [getAllItems] from the breaker on: the outer [catch] rethrows an
    [HttpException] and turns anything else into a 500. *)
Definition getAllItems (now : Z) (upstream : Upstream) (later : Z)
    (circuits : gmap string CircuitBreaker) (w : W)
  : Result JsValue * gmap string CircuitBreaker * W :=
  match executeWithCircuitBreaker "service-a" now (wrapped_call upstream)
          later None circuits w with
  | (inl error, circuits', w') =>
      if instanceof_HttpException error then (Throw error, circuits', w')
      else
        (Throw (HttpException
                  (JObj [("error", JStr "InternalServerError");
                         ("message", JStr "Failed to get items")])
                  HttpStatus.INTERNAL_SERVER_ERROR), circuits', w')
  | ok => ok
  end.

End Calls.

End ServiceAService.

(* ===================================================================== *)
(** ** core/auth/auth.provider.ts *)
(* ===================================================================== *)

Module AuthenticationProvider.

Definition type_error (msg : string) : Exception :=
  ErrorObject {| code := None; message := msg; response := None;
                 config_url := "" |}.

(** [validateToken(token)]; [introspect] is the GET to the identity
    provider's [/validate], resolving with [response.data] or rejecting.
    Whatever goes wrong inside the [try], the caller sees
    [UnauthorizedException('Invalid token')]: the rejected request, and
    the [TypeError] of [userData.roles] on [null], [undefined] or (class
    bodies being strict code) a primitive. *)
Definition validateToken (introspect : string -> JsError + JsValue)
    (token : string) : Result JsValue :=
  match introspect token with
  | inl _ => Throw (UnauthorizedException "Invalid token")
  | inr userData =>
      match userData with
      | JObj _ =>
          Return (set_prop userData "roles"
                    (js_or (prop userData "roles") (JArr [])))
      | JArr _ => Return userData   (* [roles] set on an array: unobserved *)
      | _ => Throw (UnauthorizedException "Invalid token")
      end
  end.

End AuthenticationProvider.

(* ===================================================================== *)
(** ** core/auth/guards/jwt-auth.guard.ts *)
(* ===================================================================== *)

Module JwtAuthGuard.
Import AuthenticationProvider.

(** [userAccess.find(access => access.tenantId === tenantId)]; reading
    [.tenantId] of [null] or [undefined] throws. *)
Fixpoint find_access (tenantId : string) (userAccess : list JsValue)
  : Result (option JsValue) :=
  match userAccess with
  | [] => Return None
  | access :: rest =>
      match access with
      | JUndefined | JNull =>
          Throw (type_error "Cannot read properties of null")
      | _ =>
          if is_str (prop access "tenantId") tenantId
          then Return (Some access)
          else find_access tenantId rest
      end
  end.

(** [request.body?.k], [request.query?.k] *)
Definition opt_chain (v : JsValue) (k : string) : JsValue :=
  match v with
  | JUndefined | JNull => JUndefined
  | _ => prop v k
  end.

(** [tenantAccess.tenantName || request.params.tenantName ||
    request.body?.tenantName || request.query?.tenantName ||
    userData.tenantName]; [request.params] is read only when the first
    operand is falsy, and reading a property of [undefined] throws. *)
Definition tenant_name (request : Request) (tenantAccess userData : JsValue)
  : Result JsValue :=
  if truthy (prop tenantAccess "tenantName")
  then Return (prop tenantAccess "tenantName")
  else
    match req_params request with
    | JUndefined | JNull =>
        Throw (type_error "Cannot read properties of undefined")
    | params =>
        Return (js_or (prop params "tenantName")
                  (js_or (opt_chain (req_body request) "tenantName")
                     (js_or (opt_chain (req_query request) "tenantName")
                            (prop userData "tenantName"))))
    end.

(** The body of the [try]: from the validated token to [request.user]. *)
Definition authenticate (validate : string -> Result JsValue)
    (request : Request) (authHeader tenantId : string) : Result JsValue :=
  match validate authHeader with
  | inl e => Throw e
  | inr userData =>
      match prop userData "userAccess" with
      | JArr userAccess =>
          match find_access tenantId userAccess with
          | inl e => Throw e
          | inr None =>
              Throw (UnauthorizedException
                       ("Access denied for tenant: " +:+ tenantId))
          | inr (Some tenantAccess) =>
              let roles :=
                if is_str (prop tenantAccess "type") "ADMIN"
                then JArr [JStr "admin"] else JArr [JStr "user"] in
              match tenant_name request tenantAccess userData with
              | inl e => Throw e
              | inr tenantName =>
                  let userData := set_prop userData "roles" roles in
                  Return
                    (JObj (obj_assign
                             [("id", js_or (prop userData "userId")
                                           (JStr "unknown"));
                              ("tenantId", JStr tenantId);
                              ("tenantName", js_or tenantName (JStr "unknown"));
                              ("roles", roles)]
                             (entries_of userData)))
              end
          end
      | _ => Throw (UnauthorizedException "Access denied")
      end
  end.

(** [canActivate]: the verdict and the request with [request.user] as
    the guard leaves it. *)
Definition canActivate (isPublic : bool)
    (validate : string -> Result JsValue) (request : Request)
  : Result bool * Request :=
  if isPublic then (Return true, request)
  else if String.eqb (req_path request) "/health"
          || String.eqb (req_path request) "/api/health"
  then (Return true, request)
  else if truthy (req_user request) && truthy (prop (req_user request) "roles")
  then (Return true, request)
  else
    match req_headers request !! "authorization" with
    | None => (Throw (UnauthorizedException "Missing authorization token"),
               request)
    | Some authHeader =>
        if negb (str_truthy authHeader)
        then (Throw (UnauthorizedException "Missing authorization token"),
              request)
        else
          match req_headers request !! "tenantid" with
          | None => (Throw (UnauthorizedException "Missing tenant ID header"),
                     request)
          | Some tenantId =>
              if negb (str_truthy tenantId)
              then (Throw (UnauthorizedException "Missing tenant ID header"),
                    request)
              else
                match authenticate validate request authHeader tenantId with
                | inr user => (Return true, set_user request user)
                | inl _ =>
                    (Throw (UnauthorizedException "Invalid token"), request)
                end
          end
    end.

End JwtAuthGuard.

(* ===================================================================== *)
(** ** services/service-c/service-c.controller.ts: the upload pipe *)
(* ===================================================================== *)

Module ServiceCController.

(** What the pipe reads of an [Express.Multer.File]. *)
Record UploadedFile := {
  originalname : string;
  mimetype : string;
  size : Z
}.

(** [maxSize: 10 * 1024 * 1024] *)
Definition maxSize : Z := 10 * 1024 * 1024.

(** [new MaxFileSizeValidator({ maxSize })], by the framework's
    [isValid]: ['size' in file && file.size < maxSize], a strict
    comparison. *)
Definition MaxFileSizeValidator (maxSize : Z) (file : UploadedFile) : bool :=
  size file <? maxSize.

Section UploadPipe.
(** The framework's type validator constructed with the extension
    pattern, by its [isValid]. *)
Variable FileTypeValidator : UploadedFile -> bool.

(** [ParseFilePipe] with the two validators and
    [exceptionFactory: () => new FileTooLargeException()]: a file is
    required, the validators run in order, and the first failure throws
    what the factory builds. *)
Definition parse_file (file : option UploadedFile) : Result UploadedFile :=
  match file with
  | None => Throw FileTooLargeException
  | Some f =>
      if negb (MaxFileSizeValidator maxSize f) then Throw FileTooLargeException
      else if negb (FileTypeValidator f) then Throw FileTooLargeException
      else Return f
  end.

(** What the client receives when the pipe rejects the upload, and
    [None] when the file reaches the handler. *)
Definition upload_rejection (now : string) (request : Request)
    (file : option UploadedFile) : option (Z * JsValue) :=
  match parse_file file with
  | inl e => Some (AllExceptionsFilter.catch now e request)
  | inr _ => None
  end.

End UploadPipe.

End ServiceCController.

(* ===================================================================== *)
(** ** services/shared/utils/error.utils.ts *)
(* ===================================================================== *)

Module ErrorUtils.

(** [createErrorResponse(errorType, message, errorCode?, details?)] *)
Definition createErrorResponse (errorType message : string)
    (errorCode : option string) (details : option JsValue) : JsValue :=
  let errorResponse := [("error", JStr errorType); ("message", JStr message)] in
  let errorResponse :=
    match errorCode with
    | Some c => if str_truthy c
                then obj_assign errorResponse [("errorCode", JStr c)]
                else errorResponse
    | None => errorResponse
    end in
  let errorResponse :=
    match details with
    | Some d => if truthy d
                then obj_assign errorResponse [("details", d)]
                else errorResponse
    | None => errorResponse
    end in
  JObj errorResponse.

Definition getErrorTypeFromStatus (status : Z) : string :=
  if status =? HttpStatus.BAD_REQUEST then "BadRequest"
  else if status =? HttpStatus.UNAUTHORIZED then "Unauthorized"
  else if status =? HttpStatus.FORBIDDEN then "Forbidden"
  else if status =? HttpStatus.NOT_FOUND then "NotFound"
  else if status =? HttpStatus.CONFLICT then "Conflict"
  else if status =? HttpStatus.UNPROCESSABLE_ENTITY then "ValidationError"
  else if status =? HttpStatus.TOO_MANY_REQUESTS then "TooManyRequests"
  else if status =? HttpStatus.GATEWAY_TIMEOUT then "GatewayTimeout"
  else if status =? HttpStatus.SERVICE_UNAVAILABLE then "ServiceUnavailable"
  else "InternalServerError".

End ErrorUtils.

(* ===================================================================== *)
(** ** services/shared/utils/response.utils.ts: pagination metadata *)
(* ===================================================================== *)

Module Pagination.

Definition paginationFields : list string :=
  ["page"; "limit"; "total"; "totalPages"; "hasMore"].

(** One turn of the loop over [paginationFields]: the extracted object
    and [hasPaginationData]. *)
Definition extract_field (response : JsValue)
    (acc : list (string * JsValue) * bool) (field : string)
  : list (string * JsValue) * bool :=
  if has_key field response
  then (obj_assign (fst acc) [(field, prop response field)], true)
  else acc.

(** [extractPaginationMetadata(response)]; [JUndefined] is the
    [undefined] it returns. *)
Definition extractPaginationMetadata (response : JsValue) : JsValue :=
  if negb (truthy response) || negb (typeof_object response) then JUndefined
  else
    let metadata :=
      js_or (prop response "metadata")
        (js_or (prop response "meta") (prop response "pagination")) in
    if truthy metadata then metadata
    else
      let '(extractedMetadata, hasPaginationData) :=
        fold_left (extract_field response) paginationFields ([], false) in
      if hasPaginationData then JObj extractedMetadata else JUndefined.

End Pagination.

(* ===================================================================== *)
(** ** services/shared/utils/request.utils.ts *)
(* ===================================================================== *)

Module RequestUtils.

(** [createServiceHeaders(apiKey, tenantId, requestId?)]; [now] is the
    [Date.now()] of the synthesized request id. *)
Definition createServiceHeaders (now : Z) (apiKey tenantId : string)
    (requestId : option string) : list (string * JsValue) :=
  let headers :=
    [("Content-Type", JStr "application/json");
     ("x-api-key", JStr apiKey);
     ("x-tenant-id", JStr tenantId)] in
  match requestId with
  | Some rid =>
      if str_truthy rid
      then obj_assign headers [("x-request-id", JStr rid)]
      else obj_assign headers
             [("x-request-id", JStr ("service-request-" +:+ num_to_string now))]
  | None =>
      obj_assign headers
        [("x-request-id", JStr ("service-request-" +:+ num_to_string now))]
  end.

(** [createRequestConfig(headers, timeout = 30000)] *)
Definition createRequestConfig (headers : list (string * JsValue))
    (timeout : option Z) : JsValue :=
  JObj [("headers", JObj headers);
        ("timeout", JNum (match timeout with Some t => t | None => 30000 end))].

(** [formatPaginationParams(page?, limit?)] *)
Definition formatPaginationParams (page limit : option Z) : string :=
  let falsy (n : option Z) :=
    match n with Some v => v =? 0 | None => true end in
  if falsy page && falsy limit then ""
  else
    let params :=
      match page with
      | Some p => ["page=" +:+ num_to_string p]
      | None => []
      end ++
      match limit with
      | Some l => ["limit=" +:+ num_to_string l]
      | None => []
      end in
    match params with
    | [] => ""
    | _ => "?" +:+ String.concat "&" params
    end.

(** The characters [encodeURIComponent] leaves as they are. *)
Definition is_unreserved (c : ascii) : bool :=
  let n := nat_of_ascii c in
  ((65 <=? n) && (n <=? 90))%nat || ((97 <=? n) && (n <=? 122))%nat
  || ((48 <=? n) && (n <=? 57))%nat
  || existsb (Ascii.eqb c)
       ["-"%char; "_"%char; "."%char; "!"%char; "~"%char; "*"%char;
        "'"%char; "("%char; ")"%char].

Definition hex_digit (n : nat) : ascii :=
  nth n (list_ascii_of_string "0123456789ABCDEF") "0"%char.

Definition percent_encode (c : ascii) : string :=
  let n := nat_of_ascii c in
  String "%"%char
    (String (hex_digit (n / 16)) (String (hex_digit (n mod 16)) EmptyString)).

(** [encodeURIComponent(s)] on a string held as its UTF-8 bytes: every
    byte that is not an unreserved character becomes [%XX]. *)
Fixpoint encodeURIComponent (s : string) : string :=
  match s with
  | EmptyString => EmptyString
  | String c r =>
      (if is_unreserved c then String c EmptyString else percent_encode c)
      +:+ encodeURIComponent r
  end.

(** [String(value)] of a query parameter ([string | number | boolean]). *)
Definition String_of (value : JsValue) : string :=
  match value with
  | JStr s => s
  | JNum n => num_to_string n
  | JBool true => "true"
  | JBool false => "false"
  | JNull => "null"
  | JUndefined => "undefined"
  | JArr _ | JObj _ => "[object Object]"
  end.

Definition is_nullish_value (value : JsValue) : bool :=
  match value with
  | JUndefined | JNull => true
  | _ => false
  end.

(** [buildUrl(baseUrl, path, queryParams?)] *)
Definition buildUrl (baseUrl path : string)
    (queryParams : option (list (string * JsValue))) : string :=
  let url := baseUrl +:+ "/" +:+ path in
  match queryParams with
  | Some ((_ :: _) as params) =>
      let queryString :=
        String.concat "&"
          (map (fun kv => fst kv +:+ "=" +:+ encodeURIComponent (String_of (snd kv)))
             (List.filter (fun kv => negb (is_nullish_value (snd kv))) params)) in
      url +:+ (if includes url "?" then "&" else "?") +:+ queryString
  | _ => url
  end.

End RequestUtils.

(* ===================================================================== *)
(** ** core/filters/all-exception.filter.ts: sanitizeRequestBody *)
(* ===================================================================== *)

Module RequestBodySanitizer.

(** The entries of an array and of a string as [{...v}] copies them:
    under their indices. *)
Fixpoint indexed {A} (f : A -> JsValue) (i : nat) (l : list A)
  : list (string * JsValue) :=
  match l with
  | [] => []
  | x :: r => (num_to_string (Z.of_nat i), f x) :: indexed f (S i) r
  end.

(** [{...body}] for any truthy [body]. *)
Definition spread (body : JsValue) : list (string * JsValue) :=
  match body with
  | JObj l => l
  | JArr l => indexed (fun x => x) O l
  | JStr s => indexed (fun c => JStr (String c EmptyString)) O
                (list_ascii_of_string s)
  | _ => []
  end.

Definition REDACTED : JsValue := JStr "[REDACTED]".

(** [sanitizeRequestBody(body)] *)
Definition sanitizeRequestBody (body : JsValue) : JsValue :=
  if negb (truthy body) then JObj []
  else
    let sanitized := spread body in
    let sanitized :=
      if truthy (prop (JObj sanitized) "data_base64")
      then obj_assign sanitized [("data_base64", REDACTED)]
      else sanitized in
    let sanitized :=
      if truthy (prop (JObj sanitized) "password")
      then obj_assign sanitized [("password", REDACTED)]
      else sanitized in
    let sanitized :=
      if truthy (prop (JObj sanitized) "apiKey")
         || truthy (prop (JObj sanitized) "api_key")
      then obj_assign (obj_assign sanitized [("apiKey", REDACTED)])
             [("api_key", REDACTED)]
      else sanitized in
    JObj sanitized.

End RequestBodySanitizer.

(* ===================================================================== *)
(** ** core/redis/redis.service.ts: values;
       services/shared/services/cache.service.ts *)
(* ===================================================================== *)

Module CacheService.

(** The three commands of the redis client the cache uses. *)
Class RedisKV (R : Type) := {
  kv_get : string -> R -> (JsError + option string) * R;
  kv_set : string -> string -> Z -> R -> (JsError + unit) * R;
  kv_del : string -> R -> (JsError + Z) * R
}.

(** [defaultTtl = 60 * 5] *)
Definition defaultTtl : Z := 60 * 5.

Section Service.
Context {R : Type} `{RedisKV R}.

(** [JSON.stringify]: [None] when it yields [undefined] or throws;
    [JSON.parse]: a value or a [SyntaxError]. *)
Variable stringify : JsValue -> option string.
Variable parse : string -> JsError + JsValue.

(** [RedisService.setValue]: awaited inside the [try], so a rejection is
    caught and logged. *)
Definition setValue (key value : string) (ttl : Z) (r : R) : R :=
  snd (kv_set key value ttl r).

(** [RedisService.getValue]: the client's promise is returned without
    [await], so its rejection passes the [try] and reaches the caller. *)
Definition getValue (key : string) (r : R) : (JsError + option string) * R :=
  kv_get key r.

(** [RedisService.deleteKey]: as [getValue]. *)
Definition deleteKey (key : string) (r : R) : (JsError + Z) * R :=
  kv_del key r.

(** [get(key)]: [JNull] is the [null] of a miss, of an empty value and
    of any error. *)
Definition get (key : string) (r : R) : JsValue * R :=
  match getValue key r with
  | (inl _, r') => (JNull, r')
  | (inr None, r') => (JNull, r')
  | (inr (Some value), r') =>
      if negb (str_truthy value) then (JNull, r')
      else
        match parse value with
        | inr v => (v, r')
        | inl _ => (JNull, r')
        end
  end.

(** [set(key, value, ttl)]; a value that does not serialise to a string
    is refused by the client, which [setValue] catches. *)
Definition set (key : string) (value : JsValue) (ttl : Z) (r : R) : R :=
  match stringify value with
  | Some stringValue => setValue key stringValue ttl r
  | None => r
  end.

(** [delete(key)] *)
Definition delete (key : string) (r : R) : R := snd (deleteKey key r).

(** [getOrSet(key, factory, ttl)]; [W] is what the factory can touch. *)
Definition getOrSet {W : Type} (key : string)
    (factory : W -> Result JsValue * W) (ttl : Z) (r : R) (w : W)
  : Result JsValue * R * W :=
  match get key r with
  | (JNull, r') =>
      match factory w with
      | (inr newValue, w') => (Return newValue, set key newValue ttl r', w')
      | (inl e, w') => (Throw e, r', w')
      end
  | (cachedValue, r') => (Return cachedValue, r', w)
  end.

End Service.

(** [createCacheKey(scope, identifier, ...parts)] *)
Definition createCacheKey (scope identifier : string) (parts : list string)
  : string :=
  scope +:+ ":" +:+ identifier +:+ ":" +:+ String.concat ":" parts.

(** An in-memory store of strings; expiry is left out. *)
Record MemCache := {
  cached : gmap string string;
  online : bool
}.

Definition mem_get (key : string) (r : MemCache)
  : (JsError + option string) * MemCache :=
  if online r then (inr (cached r !! key), r) else (inl connection_error, r).

Definition mem_set (key value : string) (ttl : Z) (r : MemCache)
  : (JsError + unit) * MemCache :=
  if online r
  then (inr tt, {| cached := <[key := value]> (cached r); online := true |})
  else (inl connection_error, r).

Definition mem_del (key : string) (r : MemCache)
  : (JsError + Z) * MemCache :=
  if online r
  then (inr (match cached r !! key with Some _ => 1 | None => 0 end),
        {| cached := base.delete key (cached r); online := true |})
  else (inl connection_error, r).

#[export] Instance MemCache_kv : RedisKV MemCache :=
  {| kv_get := mem_get; kv_set := mem_set; kv_del := mem_del |}.

End CacheService.

(* ===================================================================== *)
(** ** core/auth/auth.provider.ts: API keys and permissions *)
(* ===================================================================== *)

Module AuthPolicy.

(** [this.apiKeys.includes(apiKey)]; [apiKeys] is the allow-list the
    constructor parsed from [STATIC_API_TOKEN]. *)
Definition validateApiKey (apiKeys : list string) (apiKey : string) : bool :=
  existsb (String.eqb apiKey) apiKeys.

(** [permissionMap], by its own keys. *)
Definition permissionMap : list (string * list (string * list string)) :=
  [("user",    [("create", ["admin"]); ("read", ["user"; "admin"]);
                ("update", ["admin"]); ("delete", ["admin"])]);
   ("product", [("create", ["admin"]); ("read", ["user"; "admin"]);
                ("update", ["admin"]); ("delete", ["admin"])]);
   ("order",   [("create", ["user"; "admin"]); ("read", ["user"; "admin"]);
                ("update", ["admin"]); ("delete", ["admin"])]);
   ("report",  [("create", ["admin"]); ("read", ["user"; "admin"]);
                ("update", ["admin"]); ("delete", ["admin"])])].

(** [roles.includes(role)] on whatever [roles] is: membership in an
    array, containment in a string, a [TypeError] otherwise. *)
Definition js_includes (roles : JsValue) (role : string) : Result bool :=
  match roles with
  | JArr l => Return (existsb (fun x => is_str x role) l)
  | JStr s => Return (includes s role)
  | _ => Throw (AuthenticationProvider.type_error
                  "userRoles.includes is not a function")
  end.

(** [userRoles.some(role => allowed.includes(role))]: an array method. *)
Definition js_some_allowed (roles : JsValue) (allowed : list string)
  : Result bool :=
  match roles with
  | JArr l =>
      Return (existsb (fun x => existsb (fun a => is_str x a) allowed) l)
  | _ => Throw (AuthenticationProvider.type_error
                  "userRoles.some is not a function")
  end.

(** [permissionMap[resource]] when [resource] is not one of the map's
    own keys: the lookup still finds the members every object inherits.
    The function-valued ones carry a [name], the only string such a
    second lookup can reach. *)
Definition inherited_function_name (resource : string) : option string :=
  if String.eqb resource "constructor" then Some "Object"
  else if existsb (String.eqb resource)
            ["hasOwnProperty"; "isPrototypeOf"; "propertyIsEnumerable";
             "toLocaleString"; "toString"; "valueOf"; "__defineGetter__";
             "__defineSetter__"; "__lookupGetter__"; "__lookupSetter__"]
       then Some resource
  else None.

(** [userRoles.some(role => name.includes(role))] on the [name] of an
    inherited function: containment in a string. *)
Definition js_some_contained (roles : JsValue) (name : string)
  : Result bool :=
  match roles with
  | JArr l =>
      Return (existsb (fun x => includes name (ThrottlerGuard.template x)) l)
  | _ => Throw (AuthenticationProvider.type_error
                  "userRoles.some is not a function")
  end.

(** [validatePermissions(userId, resource, action, userRoles = [],
    tenantName)]: the default applies to [undefined]; whatever throws
    inside the [try] is answered with [false].  An action that is not a
    key of the resource's entry is either missing or an inherited member
    without [includes], which the [try] answers with [false] as well. *)
Definition validatePermissions (resource action : string)
    (userRoles : JsValue) : bool :=
  let userRoles :=
    match userRoles with JUndefined => JArr [] | _ => userRoles end in
  match js_includes userRoles "admin" with
  | inl _ => false
  | inr true => true
  | inr false =>
      match assoc_get resource permissionMap with
      | None =>
          match inherited_function_name resource with
          | Some name =>
              if String.eqb action "name" then
                match js_some_contained userRoles name with
                | inr hasPermission => hasPermission
                | inl _ => false
                end
              else false
          | None => false
          end
      | Some actions =>
          match assoc_get action actions with
          | None => false
          | Some allowed =>
              match js_some_allowed userRoles allowed with
              | inr hasPermission => hasPermission
              | inl _ => false
              end
          end
      end
  end.

End AuthPolicy.

(* ===================================================================== *)
(** ** core/auth/guards/roles.guard.ts *)
(* ===================================================================== *)

Module RolesGuard.
Import AuthPolicy.

(** The framework's [ForbiddenException(message)]. *)
Definition NestForbiddenException (message : string) : Exception :=
  HttpException
    (JObj [("message", JStr message); ("error", JStr "Forbidden");
           ("statusCode", JNum HttpStatus.FORBIDDEN)])
    HttpStatus.FORBIDDEN.

(** [requiredRoles.some(role => user.roles.includes(role))] *)
Fixpoint some_role (roles : JsValue) (requiredRoles : list string)
  : Result bool :=
  match requiredRoles with
  | [] => Return false
  | role :: rest =>
      match js_includes roles role with
      | inl e => Throw e
      | inr true => Return true
      | inr false => some_role roles rest
      end
  end.

(** [canActivate]: [requiredRoles], [resource] and [action] are the
    route's metadata.  The request comes back with the [roles] the guard
    may have set on [request.user] (on an object; a [roles] property set
    on an array is not kept). *)
Definition canActivate (isPublic : bool) (requiredRoles : option (list string))
    (resource action : option string) (request : Request)
  : Result bool * Request :=
  if isPublic then (Return true, request)
  else
    match requiredRoles with
    | None | Some [] => (Return true, request)
    | Some requiredRoles =>
        let user := req_user request in
        if negb (truthy user)
        then (Throw (NestForbiddenException "User not authenticated"), request)
        else
          match user with
          | JStr _ | JNum _ | JBool _ =>
              (* [user.roles = []] on a primitive, in strict code *)
              (Throw (AuthenticationProvider.type_error
                        "Cannot create property 'roles'"), request)
          | _ =>
              let user :=
                if truthy (prop user "roles") then user
                else set_prop user "roles" (JArr []) in
              let request := set_user request user in
              let roles := js_or (prop user "roles") (JArr []) in
              match some_role roles requiredRoles with
              | inl e => (Throw e, request)
              | inr true => (Return true, request)
              | inr false =>
                  match resource, action with
                  | Some res, Some act =>
                      if str_truthy res && str_truthy act then
                        if validatePermissions res act roles
                        then (Return true, request)
                        else (Throw (NestForbiddenException
                                       ("You don't have permission to " +:+ act
                                          +:+ " this " +:+ res)), request)
                      else (Return false, request)
                  | _, _ => (Return false, request)
                  end
              end
          end
    end.

End RolesGuard.

(* ===================================================================== *)
(** ** core/auth/guards/api-key-auth.guard.ts *)
(* ===================================================================== *)

Module ApiKeyAuthGuard.
Import AuthPolicy.

(** [s.endsWith(suffix)] *)
Definition endsWith (s suffix : string) : bool :=
  (String.length suffix <=? String.length s)%nat
  && String.eqb
       (substring (String.length s - String.length suffix)
          (String.length suffix) s) suffix.

(** A header value, or the [fallback] when it is absent or empty. *)
Definition header_or (request : Request) (name fallback : string) : string :=
  match req_headers request !! name with
  | Some v => if str_truthy v then v else fallback
  | None => fallback
  end.

(** [request['originalHeaders']] *)
Definition originalHeaders (request : Request) (requestId : string)
  : JsValue :=
  JObj [("x-api-key", header request "x-api-key");
        ("x-user-email", header request "x-user-email");
        ("x-user-role", header request "x-user-role");
        ("x-tenant-name", header request "x-tenant-name");
        ("x-tenant-id", header request "x-tenant-id");
        ("x-request-id", JStr requestId);
        ("x-forwarded-for", header request "x-forwarded-for");
        ("x-accept-language", header request "x-accept-language")].

(** The principal of a valid key: the three cases of the guard.
    [request.params] is read only in the last one. *)
Definition principal (request : Request) (requestId : string)
  : Result JsValue :=
  let userEmail := header request "x-user-email" in
  let userRole := header request "x-user-role" in
  let tenantName := header request "x-tenant-name" in
  let tenantId := header request "x-tenant-id" in
  let clientIp := header request "x-forwarded-for" in
  let acceptLang := header request "x-accept-language" in
  let sourceService := header request "x-source-service" in
  if is_str sourceService "service-b" then
    if truthy userEmail && truthy userRole && truthy tenantName then
      Return
        (JObj [("id", JStr ("api-gateway:" +:+ ThrottlerGuard.template userEmail));
               ("email", userEmail);
               ("tenantName", tenantName);
               ("tenantId", tenantId);
               ("roles", JArr [userRole]);
               ("requestId", JStr requestId);
               ("acceptLanguage", js_or acceptLang (JStr "en-US"));
               ("sourceService", JStr "service-b")])
    else
      Return
        (JObj [("id", JStr requestId);
               ("tenantName", JStr "service-b");
               ("tenantId", JStr "service-b");
               ("roles", JArr [JStr "admin"]);
               ("requestId", JStr requestId);
               ("sourceService", JStr "service-b")])
  else if truthy userEmail && truthy userRole && truthy tenantName
          && truthy tenantId then
    Return
      (JObj [("id", JStr ("api-gateway:" +:+ ThrottlerGuard.template userEmail));
             ("email", userEmail);
             ("tenantName", tenantName);
             ("tenantId", tenantId);
             ("roles", JArr [userRole]);
             ("clientIp", clientIp);
             ("acceptLanguage", js_or acceptLang (JStr "en-US"));
             ("requestId", JStr requestId);
             ("sourceService",
              if truthy sourceService then sourceService else JStr "gateway")])
  else
    match req_params request with
    | JUndefined | JNull =>
        Throw (AuthenticationProvider.type_error
                 "Cannot read properties of undefined")
    | params =>
        let tenantNameFromRequest :=
          js_or (prop params "tenantName")
            (js_or (JwtAuthGuard.opt_chain (req_body request) "tenantName")
               (JwtAuthGuard.opt_chain (req_query request) "tenantName")) in
        Return
          (JObj [("id", JStr requestId);
                 ("tenantName",
                  js_or tenantNameFromRequest (JStr "direct-api-access"));
                 ("tenantId",
                  js_or tenantNameFromRequest (JStr "direct-api-access"));
                 ("roles", JArr [JStr "admin"]);
                 ("requestId", JStr requestId);
                 ("sourceService",
                  if truthy sourceService then sourceService
                  else JStr "direct-api-access")])
    end.

(** [canActivate]: the verdict, the request with [request.user] as the
    guard leaves it, and the [originalHeaders] it stored (if it got that
    far).  [apiKeys] is the configured allow-list, [resource] and
    [action] the route's metadata, [now] the guard's [Date.now()]. *)
Definition canActivate (isPublic : bool) (apiKeys : list string)
    (resource action : option string) (now : Z) (request : Request)
  : Result bool * Request * option JsValue :=
  if isPublic then (Return true, request, None)
  else if String.eqb (req_path request) "/health"
          || String.eqb (req_path request) "/api/health"
          || endsWith (req_path request) "/health"
  then (Return true, request, None)
  else
    let apiKey := header request "x-api-key" in
    let authHeader := header request "authorization" in
    let requestId :=
      header_or request "x-request-id"
        ("api-gateway:"
           +:+ ThrottlerGuard.template (header request "x-tenant-name")
           +:+ ":" +:+ num_to_string now) in
    let stored := Some (originalHeaders request requestId) in
    if truthy authHeader && negb (truthy apiKey)
    then (Return true, request, stored)
    else if negb (truthy apiKey)
    then (Throw (UnauthorizedException "Missing API key"), request, stored)
    else if negb (validateApiKey apiKeys (ThrottlerGuard.template apiKey))
    then (Throw (UnauthorizedException "Invalid API key"), request, stored)
    else
      match principal request requestId with
      | inl e => (Throw e, request, stored)
      | inr user =>
          let request := set_user request user in
          match resource, action with
          | Some res, Some act =>
              if str_truthy res && str_truthy act then
                if validatePermissions res act (prop user "roles")
                then (Return true, request, stored)
                else (Return false, request, stored)
              else (Return true, request, stored)
          | _, _ => (Return true, request, stored)
          end
      end.

End ApiKeyAuthGuard.

(* ===================================================================== *)
(** ** core/middleware/logging.middleware.ts, body-parser.middleware.ts *)
(* ===================================================================== *)

Module Middleware.

Definition set_header (request : Request) (name value : string) : Request :=
  {| req_method := req_method request; req_path := req_path request;
     req_url := req_url request;
     req_headers := <[name := value]> (req_headers request);
     req_ip := req_ip request; req_user := req_user request;
     req_params := req_params request; req_body := req_body request;
     req_query := req_query request |}.

(** [LoggingMiddleware.use]: the request as it is handed on; [uuid] is
    what [uuidv4()] would return. *)
Definition logging (uuid : string) (request : Request) : Request :=
  let requestId :=
    match req_headers request !! "x-request-id" with
    | Some v => if str_truthy v then v else uuid
    | None => uuid
    end in
  set_header request "x-request-id" requestId.

(** [Object.keys(body).length === 0] for a truthy [body]. *)
Definition no_keys (body : JsValue) : bool :=
  match RequestBodySanitizer.spread body with
  | [] => true
  | _ => false
  end.

(** [BodyParserMiddleware.use]: the body handed on. *)
Definition body_parser (request : Request) : JsValue :=
  if String.eqb (req_method request) "PUT"
     && (negb (truthy (req_body request)) || no_keys (req_body request))
  then JObj []
  else req_body request.

End Middleware.

(* ===================================================================== *)
(** ** Requests in sequence against one store *)
(* ===================================================================== *)

Module ThrottlerRuns.
Import ThrottlerService.

(** The decisions of consecutive checks of one client on one route, at
    the times [nows], and the store after them. *)
Fixpoint run_checks (cfg : Config) (key method : string)
    (resource : option string) (nows : list Z) (r : MemRedis)
  : list RateLimitResult * MemRedis :=
  match nows with
  | [] => ([], r)
  | now :: rest =>
      match checkRateLimit cfg now key method resource r with
      | (inr res, r') =>
          let '(results, r'') := run_checks cfg key method resource rest r' in
          (res :: results, r'')
      | (inl _, r') => run_checks cfg key method resource rest r'
      end
  end.

End ThrottlerRuns.

(* ===================================================================== *)
(** ** Shapes of strings *)
(* ===================================================================== *)

Module Shape.

Definition starts_with_colon (s : string) : bool :=
  match s with
  | String c _ => ThrottlerGuard.is_colon c
  | EmptyString => false
  end.

Fixpoint ends_with_colon (s : string) : bool :=
  match s with
  | EmptyString => false
  | String c r =>
      match r with
      | EmptyString => ThrottlerGuard.is_colon c
      | _ => ends_with_colon r
      end
  end.

Fixpoint has_double_colon (s : string) : bool :=
  match s with
  | EmptyString => false
  | String c r =>
      (ThrottlerGuard.is_colon c && starts_with_colon r) || has_double_colon r
  end.

(** No character of [s] satisfies [p]. *)
Fixpoint free_of (p : ascii -> bool) (s : string) : bool :=
  match s with
  | EmptyString => true
  | String c r => negb (p c) && free_of p r
  end.

(** How many characters of [s] satisfy [p]. *)
Fixpoint count_of (p : ascii -> bool) (s : string) : nat :=
  match s with
  | EmptyString => O
  | String c r => ((if p c then 1 else 0) + count_of p r)%nat
  end.

Definition is_amp (c : ascii) : bool := Ascii.eqb c "&"%char.
Definition is_equals (c : ascii) : bool := Ascii.eqb c "="%char.

(** The query parameters [buildUrl] keeps. *)
Definition kept (params : list (string * JsValue)) : list (string * JsValue) :=
  List.filter (fun kv => negb (RequestUtils.is_nullish_value (snd kv))) params.

(** What [encodeURIComponent] may produce. *)
Definition url_safe (c : ascii) : bool :=
  RequestUtils.is_unreserved c || Ascii.eqb c "%"%char.

End Shape.

(* ===================================================================== *)
(** ** core/core.module.ts: the global guards, in their registered order *)
(* ===================================================================== *)

Module CoreModule.

(** The three authentication guards as [APP_GUARD] providers list them:
    [ApiKeyAuthGuard], [JwtAuthGuard], [RolesGuard] (the throttler guard
    comes after them).  A guard that throws or answers [false] ends the
    chain; the next one sees the request as the previous one left it. *)
Definition guards (isPublic : bool) (apiKeys : list string)
    (validate : string -> Result JsValue)
    (requiredRoles : option (list string)) (resource action : option string)
    (now : Z) (request : Request) : Result bool * Request :=
  match ApiKeyAuthGuard.canActivate isPublic apiKeys resource action now
          request with
  | (inr true, request, _) =>
      match JwtAuthGuard.canActivate isPublic validate request with
      | (inr true, request) =>
          RolesGuard.canActivate isPublic requiredRoles resource action request
      | verdict => verdict
      end
  | (verdict, request, _) => (verdict, request)
  end.

End CoreModule.

(* ===================================================================== *)
(** ** Vocabulary of the further statements *)
(* ===================================================================== *)

Module Policy.

(** What the role [user] is granted. *)
Definition user_grants : list (string * string) :=
  [("user", "read"); ("product", "read"); ("order", "create");
   ("order", "read"); ("report", "read")].

Definition granted_to_user (resource action : string) : bool :=
  existsb (fun g => String.eqb resource (fst g) && String.eqb action (snd g))
    user_grants.

(** The request carries a non-empty [X-Api-Key] of the allow-list. *)
Definition presents_valid_key (apiKeys : list string) (request : Request)
  : bool :=
  match req_headers request !! "x-api-key" with
  | Some k => str_truthy k && AuthPolicy.validateApiKey apiKeys k
  | None => false
  end.

(** The request carries a token the validator accepts. *)
Definition presents_valid_token (validate : string -> Result JsValue)
    (request : Request) : bool :=
  match req_headers request !! "authorization" with
  | Some token =>
      match validate token with inr _ => true | inl _ => false end
  | None => false
  end.

Definition has_role (role : string) (roles : list JsValue) : bool :=
  existsb (fun x => is_str x role) roles.

(** The keys [sanitizeRequestBody] looks at. *)
Definition sensitive_keys : list string :=
  ["data_base64"; "password"; "apiKey"; "api_key"].

Definition is_sensitive (k : string) : bool :=
  existsb (String.eqb k) sensitive_keys.

End Policy.

(** Examples for the cache: the codec on the two values they store, a
    store that is up and one that is down, a factory that counts its
    calls. *)
Module CacheSamples.
Import CacheService.

Definition stringify (v : JsValue) : option string :=
  match v with
  | JNull => Some "null"
  | JNum n => Some (num_to_string n)
  | _ => None
  end.

Definition parse (text : string) : JsError + JsValue :=
  if String.eqb text "null" then inr JNull
  else if String.eqb text "42" then inr (JNum 42)
  else inl {| code := None; message := "Unexpected token";
              response := None; config_url := "" |}.

Definition up : MemCache := {| cached := ∅; online := true |}.
Definition down : MemCache := {| cached := ∅; online := false |}.

Definition counting (v : JsValue) (calls : nat) : Result JsValue * nat :=
  (Return v, S calls).

End CacheSamples.

(* ===================================================================== *)
(** ** Vocabulary of the statements *)
(* ===================================================================== *)

Module Envelope.

(** The fixed taxonomy of error kinds. *)
Definition taxonomy : list string :=
  ["BadRequest"; "Unauthorized"; "Forbidden"; "NotFound"; "Conflict";
   "ValidationError"; "TooManyRequests"; "PayloadTooLarge";
   "GatewayTimeout"; "ServiceUnavailable"; "InternalServerError"].

Definition in_taxonomy (kind : JsValue) : bool :=
  match kind with
  | JStr k => existsb (String.eqb k) taxonomy
  | _ => false
  end.

(** The [error] field a thrown value brings along itself: the
    [errorType] of a [BaseException], the [error] of an [HttpException]
    body, the [error] of an upstream error body. *)
Definition carried_error (e : Exception) : JsValue :=
  match e with
  | BaseException ty _ _ _ _ => JStr ty
  | HttpException r _ => prop r "error"
  | ErrorObject err =>
      match response err with
      | Some r => prop (data r) "error"
      | None => JUndefined
      end
  | ThrownValue _ => JUndefined
  end.

(** The [errorCode] a thrown value brings along itself. *)
Definition carried_code (e : Exception) : JsValue :=
  match e with
  | BaseException _ _ _ (Some c) _ => JStr c
  | BaseException _ _ _ None _ => JUndefined
  | HttpException r _ => prop r "errorCode"
  | ErrorObject err =>
      match response err with
      | Some r => prop (data r) "errorCode"
      | None => JUndefined
      end
  | ThrownValue _ => JUndefined
  end.

(** The kind the filter takes from the thrown value: the [errorType]
    of a [BaseException], the truthy [error] of an [HttpException]
    body, and the [error] of the body of an upstream answer that has
    both [error] and [message], unless the error counts as a timeout or
    a connection failure first. *)
Definition supplied_kind (e : Exception) : option JsValue :=
  match e with
  | BaseException ty _ _ _ _ => Some (JStr ty)
  | HttpException r _ =>
      if truthy (prop r "error") then Some (prop r "error") else None
  | ErrorObject err =>
      if AllExceptionsFilter.is_timeout err
         || AllExceptionsFilter.is_connection_error err
      then None
      else
        match response err with
        | Some r =>
            if truthy (prop (data r) "error")
               && truthy (prop (data r) "message")
            then Some (prop (data r) "error") else None
        | None => None
        end
  | ThrownValue _ => None
  end.

(** An [Error] that is neither a timeout nor a connection failure and
    brings no upstream body. *)
Definition plain_error (e : Exception) : bool :=
  match e with
  | ErrorObject err =>
      negb (AllExceptionsFilter.is_timeout err)
      && negb (AllExceptionsFilter.is_connection_error err)
      && match response err with
         | Some r => negb (truthy (data r))
         | None => true
         end
  | _ => false
  end.

(** The one rewrite the filter applies to a kind. *)
Definition rewrite_kind (kind : JsValue) : JsValue :=
  if is_str kind "Bad Request" then JStr "BadRequest" else kind.

(** The error codes the filter writes itself. *)
Definition filter_codes : list string :=
  ["ERR_GATEWAY_TIMEOUT"; "ERR_SERVICE_UNAVAILABLE"; "ERR_PAYLOAD_TOO_LARGE"].

Definition is_filter_code (c : JsValue) : bool :=
  match c with
  | JStr k => existsb (String.eqb k) filter_codes
  | _ => false
  end.

(** An upstream error body that has a [success] key. *)
Definition upstream_body_has_success (e : Exception) : bool :=
  match e with
  | ErrorObject err =>
      match response err with
      | Some r => has_key "success" (data r)
      | None => false
      end
  | _ => false
  end.

End Envelope.

Module Access.

(** [access.tenantId === tenantId]: an entry of the tenant. *)
Definition entry_of_tenant (tenantId : string) (access : JsValue) : bool :=
  is_str (prop access "tenantId") tenantId.

(** [null] or [undefined]: reading a property of it throws. *)
Definition is_nullish (v : JsValue) : bool :=
  match v with
  | JUndefined | JNull => true
  | _ => false
  end.

(** The failure count of a closed breaker is below the threshold. *)
Definition closed_below_threshold (b : CircuitBreaker.CircuitBreaker) : Prop :=
  CircuitBreaker.state b = CircuitBreaker.CLOSED ->
  0 <= CircuitBreaker.failureCount b
    < CircuitBreaker.failureThreshold (CircuitBreaker.options b).

End Access.
Import Access.

(* ===================================================================== *)
(** ** Concrete requests, stores and upstreams *)
(* ===================================================================== *)

Module Samples.
Import CircuitBreaker.

Definition request (method path : string) (headers : list (string * string))
  : Request :=
  {| req_method := method; req_path := path; req_url := path;
     req_headers := list_to_map headers; req_ip := Some "10.0.0.1";
     req_user := JUndefined; req_params := JObj [];
     req_body := JUndefined; req_query := JObj [] |}.

Definition upload_request : Request :=
  request "POST" "/api/service-c/files"
    [("authorization", "Bearer abc"); ("tenantid", "t1")].

Definition items_request : Request :=
  request "GET" "/api/service-a/items"
    [("authorization", "Bearer abc"); ("tenantid", "t1")].

Definition no_tenant_request : Request :=
  request "GET" "/api/service-a/items" [("authorization", "Bearer abc")].

Definition timestamp : string := "2024-01-01T00:00:00.000Z".

(** 2023-11-14T22:13:20Z in milliseconds. *)
Definition now_ms : Z := 1700000000000.

Definition cfg : ThrottlerService.Config :=
  {| ThrottlerService.defaultTtl := 60; ThrottlerService.defaultLimit := 60 |}.

(** The configuration [THROTTLE_LIMIT=-1]. *)
Definition negative_cfg : ThrottlerService.Config :=
  {| ThrottlerService.defaultTtl := 60; ThrottlerService.defaultLimit := -1 |}.

Definition empty_store : MemRedis :=
  {| counters := ∅; expiries := ∅; healthy_ops := None |}.

(** A store whose connection is down. *)
Definition down_store : MemRedis :=
  {| counters := ∅; expiries := ∅; healthy_ops := Some O |}.

(** The key of the current window of uploads from 10.0.0.1. *)
Definition upload_key : string :=
  ThrottlerService.generateKey cfg now_ms "10.0.0.1" "POST" (Some "file")
    (Some 60).

(** Ten uploads have been counted in the current window. *)
Definition full_store : MemRedis :=
  {| counters := {[ upload_key := 10 ]}; expiries := {[ upload_key := 60 ]};
     healthy_ops := None |}.

(** An upstream that answers from a script and counts the requests it
    receives; past the script it refuses connections. *)
Definition Scripted : Type := nat * list (JsError + AxiosResponse).

Definition scripted : @ServiceAService.Upstream Scripted :=
  fun w =>
    match snd w with
    | [] => (inl connection_error, (S (fst w), []))
    | o :: rest => (o, (S (fst w), rest))
    end.

(** The rejection of the HTTP client for an upstream 404. *)
Definition not_found_error : JsError :=
  {| code := Some "ERR_BAD_REQUEST";
     message := "Request failed with status code 404";
     response := Some {| status := 404;
                         data := JObj [("error", JStr "Not Found")] |};
     config_url := "http://localhost:8001/items/42?tenantId=t1" |}.

(** A plain [Error('boom')]. *)
Definition boom : JsError :=
  {| code := None; message := "boom"; response := None; config_url := "" |}.

Definition ok_response : AxiosResponse :=
  {| status := 200; data := JArr [] |}.

(** A breaker of service-a that tripped at time 1000. *)
Definition open_breaker : CircuitBreaker :=
  trip 1000 (new_breaker "service-a" None).

(** Three calls to service-a, each ending as the script says; the
    breakers and the upstream after them. *)
Definition three_calls (script : list (JsError + AxiosResponse))
  : gmap string CircuitBreaker * Scripted :=
  let '(_, c1, w1) :=
    ServiceAService.getAllItems 1000 scripted 1010 ∅ (O, script) in
  let '(_, c2, w2) := ServiceAService.getAllItems 2000 scripted 2010 c1 w1 in
  let '(_, c3, w3) := ServiceAService.getAllItems 3000 scripted 3010 c2 w2 in
  (c3, w3).

(** A type validator on the MIME type's suffix. *)
Definition type_allowed (f : ServiceCController.UploadedFile) : bool :=
  existsb (fun ext => includes (ServiceCController.mimetype f) ext)
    ["jpg"; "jpeg"; "png"; "gif"; "pdf"; "doc"; "docx"; "xls"; "xlsx";
     "txt"; "csv"].

Definition pdf (size : Z) : ServiceCController.UploadedFile :=
  {| ServiceCController.originalname := "report.pdf";
     ServiceCController.mimetype := "application/pdf";
     ServiceCController.size := size |}.

(** Token introspection answering with one user. *)
Definition user_data : JsValue :=
  JObj [("userId", JStr "u1");
        ("userAccess",
         JArr [JObj [("tenantId", JStr "t0"); ("type", JStr "USER")];
               JObj [("tenantId", JStr "t1"); ("type", JStr "ADMIN");
                     ("tenantName", JStr "Tenant One")]])].

Definition introspect (token : string) : JsError + JsValue :=
  if String.eqb token "Bearer abc" then inr user_data
  else inl boom.

End Samples.

(* ===================================================================== *)
(** * Properties *)
(* ===================================================================== *)

(** ** Objects *)

Lemma assoc_get_app {A} (k : string) (l1 l2 : list (string * A)) :
  assoc_get k (l1 ++ l2) =
  match assoc_get k l1 with
  | Some v => Some v
  | None => assoc_get k l2
  end.
Proof.
  induction l1 as [|[k' v] l1 IH]; simpl; [reflexivity|].
  destruct (String.eqb k k'); [reflexivity | exact IH].
Qed.

Lemma assoc_get_filter_other {A} (k : string) (keep : string -> bool)
    (l : list (string * A)) :
  keep k = true ->
  assoc_get k (filter (fun kv => keep (fst kv)) l) = assoc_get k l.
Proof.
  intros Hk. induction l as [|[k' v] l IH]; simpl; [reflexivity|].
  destruct (String.eqb k k') eqn:E.
  - apply String.eqb_eq in E. subst k'.
    unfold filter. simpl. rewrite Hk. simpl. rewrite String.eqb_refl.
    reflexivity.
  - unfold filter in *. simpl. destruct (keep k'); simpl; [rewrite E|]; exact IH.
Qed.

Lemma assoc_get_filter_none {A} (k : string) (keep : string -> bool)
    (l : list (string * A)) :
  keep k = false ->
  assoc_get k (filter (fun kv => keep (fst kv)) l) = None.
Proof.
  intros Hk. induction l as [|[k' v] l IH]; simpl; [reflexivity|].
  unfold filter in *. simpl. destruct (keep k') eqn:E; simpl; [|exact IH].
  destruct (String.eqb k k') eqn:E'; [|exact IH].
  apply String.eqb_eq in E'. subst k'. congruence.
Qed.

(** A key of [{...base, ...extra}] has the value [extra] gives it, and
    else the one [base] gives it. *)
Lemma assoc_get_obj_assign (k : string) (base extra : list (string * JsValue)) :
  assoc_get k (obj_assign base extra) =
  match assoc_get k extra with
  | Some v => Some v
  | None => assoc_get k base
  end.
Proof.
  unfold obj_assign. rewrite assoc_get_app.
  assert (Hmap : assoc_get k
            (map (fun kv => (fst kv, match assoc_get (fst kv) extra with
                                     | Some v' => v'
                                     | None => snd kv
                                     end)) base) =
          match assoc_get k base with
          | Some v => Some (match assoc_get k extra with
                            | Some v' => v'
                            | None => v
                            end)
          | None => None
          end).
  { induction base as [|[k' v] base IH]; simpl; [reflexivity|].
    destruct (String.eqb k k') eqn:E; [|exact IH].
    apply String.eqb_eq in E. subst k'. reflexivity. }
  rewrite Hmap. destruct (assoc_get k base) as [v|] eqn:Hb.
  - destruct (assoc_get k extra); reflexivity.
  - rewrite (assoc_get_filter_other k
               (fun k' => negb (assoc_mem k' base)) extra).
    + destruct (assoc_get k extra); reflexivity.
    + unfold assoc_mem. rewrite Hb. reflexivity.
Qed.

Lemma prop_obj_assign (k : string) (base extra : list (string * JsValue)) :
  prop (JObj (obj_assign base extra)) k =
  match assoc_get k extra with
  | Some v => v
  | None => prop (JObj base) k
  end.
Proof.
  simpl. rewrite assoc_get_obj_assign.
  destruct (assoc_get k extra); reflexivity.
Qed.

Lemma has_key_obj_assign (k : string) (base extra : list (string * JsValue)) :
  has_key k (JObj (obj_assign base extra)) =
  assoc_mem k extra || assoc_mem k base.
Proof.
  simpl. unfold assoc_mem. rewrite assoc_get_obj_assign.
  destruct (assoc_get k extra); reflexivity.
Qed.

(** ** Response normalisation *)

Section StandardizeResponse.
Import ResponseUtils.

Lemma js_size_wrap (d : JsValue) :
  (js_size d < js_size (JObj [("success", JBool true); ("data", d)]))%nat.
Proof. simpl. lia. Qed.

Lemma wrap_neq (d : JsValue) :
  JObj [("success", JBool true); ("data", d)] <> d.
Proof.
  intros Heq. pose proof (js_size_wrap d) as Hlt.
  rewrite Heq in Hlt. lia.
Qed.

(** The guard of [standardizeResponse] holds exactly of the objects that
    have both keys. *)
Lemma has_expected_structure_spec (d : JsValue) :
  has_expected_structure d = true <->
  exists entries, d = JObj entries
                  /\ assoc_mem "success" entries = true
                  /\ assoc_mem "data" entries = true.
Proof.
  unfold has_expected_structure. split.
  - intros Hs. destruct d; simpl in Hs;
      try (rewrite ?andb_false_r in Hs; discriminate).
    exists entries. apply andb_prop in Hs as [Hs Hd]. auto.
  - intros (entries & -> & Hs & Hd). simpl. rewrite Hs, Hd. reflexivity.
Qed.

(** C10. [standardizeResponse] is idempotent; it returns its argument
    unchanged exactly when the argument is a non-null object that has
    both a [success] key and a [data] key, and in every other case it
    returns [{success: true, data: d}]. *)
Theorem standardizeResponse_idempotent (d : JsValue) :
  standardizeResponse (standardizeResponse d) = standardizeResponse d
  /\ (standardizeResponse d = d <->
      exists entries, d = JObj entries
                      /\ assoc_mem "success" entries = true
                      /\ assoc_mem "data" entries = true)
  /\ (standardizeResponse d <> d ->
      standardizeResponse d = JObj [("success", JBool true); ("data", d)]).
Proof.
  rewrite <- has_expected_structure_spec.
  unfold standardizeResponse.
  destruct (has_expected_structure d) eqn:Hd.
  - rewrite Hd. repeat split; auto. intros Hne. contradiction.
  - repeat split.
    + intros Heq. exfalso. exact (wrap_neq d Heq).
    + intros Habs. discriminate.
Qed.

End StandardizeResponse.

(** ** Circuit breaker *)

Section CircuitBreakerProps.
Import CircuitBreaker.

Lemma state_eqb_eq (a b : CircuitState) : state_eqb a b = true <-> a = b.
Proof. destruct a, b; simpl; split; congruence. Qed.

Lemma trip_state (now : Z) (b : CircuitBreaker) : state (trip now b) = OPEN.
Proof. reflexivity. Qed.

Lemma reset_state (b : CircuitBreaker) :
  state (reset b) = CLOSED /\ failureCount (reset b) = 0.
Proof. split; reflexivity. Qed.

(** A fresh breaker is closed, with the default tuning unless the caller
    overrides it. *)
Lemma new_breaker_defaults (name : string) :
  let b := new_breaker name None in
  state b = CLOSED /\ failureCount b = 0
  /\ failureThreshold (options b) = 3
  /\ resetTimeout (options b) = 30000
  /\ halfOpenAttempts (options b) = 2.
Proof. repeat split; reflexivity. Qed.

Lemma onSuccess_closed (b : CircuitBreaker) :
  state b = CLOSED ->
  state (onSuccess b) = CLOSED /\ failureCount (onSuccess b) = 0.
Proof. intros Hs. unfold onSuccess. rewrite Hs. simpl. auto. Qed.

Lemma onFailure_closed (now : Z) (e : Exception) (b : CircuitBreaker) :
  state b = CLOSED ->
  (failureThreshold (options b) <= failureCount b + 1 ->
   state (onFailure now e b) = OPEN
   /\ nextAttempt (onFailure now e b) = now + resetTimeout (options b))
  /\ (failureCount b + 1 < failureThreshold (options b) ->
      state (onFailure now e b) = CLOSED)
  /\ failureCount (onFailure now e b) = failureCount b + 1.
Proof.
  intros Hs. unfold onFailure. simpl. rewrite Hs. simpl.
  destruct (failureThreshold (options b) <=? failureCount b + 1) eqn:E.
  - apply Z.leb_le in E. repeat split; intros; simpl; auto; lia.
  - apply Z.leb_gt in E. repeat split; intros; simpl; auto; lia.
Qed.

Lemma onSuccess_half_open (b : CircuitBreaker) :
  state b = HALF_OPEN ->
  (halfOpenAttempts (options b) <= halfOpenSuccesses b + 1 ->
   onSuccess b = reset b)
  /\ (halfOpenSuccesses b + 1 < halfOpenAttempts (options b) ->
      state (onSuccess b) = HALF_OPEN
      /\ halfOpenSuccesses (onSuccess b) = halfOpenSuccesses b + 1).
Proof.
  intros Hs. unfold onSuccess. rewrite Hs. simpl.
  destruct (halfOpenAttempts (options b) <=? halfOpenSuccesses b + 1) eqn:E.
  - apply Z.leb_le in E. split; intros; [reflexivity | lia].
  - apply Z.leb_gt in E. split; intros; [lia | simpl; auto].
Qed.

Lemma onFailure_half_open (now : Z) (e : Exception) (b : CircuitBreaker) :
  state b = HALF_OPEN ->
  state (onFailure now e b) = OPEN
  /\ nextAttempt (onFailure now e b) = now + resetTimeout (options b).
Proof. intros Hs. unfold onFailure. simpl. rewrite Hs. simpl. auto. Qed.

(** C4. In [CLOSED] a success resets the failure count to 0 and a
    failure increments it, and the breaker opens exactly when the
    incremented count has reached [failureThreshold] (equals it, for a
    count that was below the threshold); in [HALF_OPEN] a
    success is counted and the breaker closes exactly when the count has
    reached [halfOpenAttempts], and any failure opens it again.  The
    defaults are 3 and 2. *)
Theorem breaker_transitions (now : Z) (e : Exception) (b : CircuitBreaker) :
  (state b = CLOSED ->
     state (onSuccess b) = CLOSED
     /\ failureCount (onSuccess b) = 0
     /\ failureCount (onFailure now e b) = failureCount b + 1
     /\ (state (onFailure now e b) = OPEN <->
         failureThreshold (options b) <= failureCount b + 1)
     /\ (state (onFailure now e b) = CLOSED <->
         failureCount b + 1 < failureThreshold (options b))
     /\ (failureCount b < failureThreshold (options b) ->
         (state (onFailure now e b) = OPEN <->
          failureCount b + 1 = failureThreshold (options b))))
  /\ (state b = HALF_OPEN ->
        (state (onSuccess b) = CLOSED <->
         halfOpenAttempts (options b) <= halfOpenSuccesses b + 1)
        /\ (state (onSuccess b) = HALF_OPEN <->
            halfOpenSuccesses b + 1 < halfOpenAttempts (options b))
        /\ (state (onSuccess b) = HALF_OPEN ->
            halfOpenSuccesses (onSuccess b) = halfOpenSuccesses b + 1)
        /\ state (onFailure now e b) = OPEN)
  /\ (forall name,
        failureThreshold (options (new_breaker name None)) = 3
        /\ halfOpenAttempts (options (new_breaker name None)) = 2).
Proof.
  split; [|split].
  - intros Hs.
    destruct (onSuccess_closed b Hs) as [Hs1 Hs2].
    destruct (onFailure_closed now e b Hs) as (Hopen & Hclosed & Hcount).
    repeat split; auto.
    + intros Ho.
      destruct (Z_le_gt_dec (failureThreshold (options b)) (failureCount b + 1))
        as [Hle|Hgt]; [exact Hle|].
      rewrite Hclosed in Ho by lia. discriminate.
    + intros Hle. apply Hopen. exact Hle.
    + intros Hc.
      destruct (Z_lt_ge_dec (failureCount b + 1) (failureThreshold (options b)))
        as [Hlt|Hge]; [exact Hlt|].
      destruct Hopen as [Ho _]; [lia|]. rewrite Ho in Hc. discriminate.
    + intros Ho.
      destruct (Z_le_gt_dec (failureThreshold (options b)) (failureCount b + 1))
        as [Hle|Hgt]; [lia|].
      rewrite Hclosed in Ho by lia. discriminate.
    + intros Heq. apply Hopen. lia.
  - intros Hs.
    destruct (onSuccess_half_open b Hs) as (Hclose & Hstay).
    destruct (onFailure_half_open now e b Hs) as [Hf _].
    repeat split; auto.
    + intros Hc.
      destruct (Z_le_gt_dec (halfOpenAttempts (options b))
                  (halfOpenSuccesses b + 1)) as [Hle|Hgt]; [exact Hle|].
      destruct Hstay as [Hh _]; [lia|]. rewrite Hh in Hc. discriminate.
    + intros Hle. rewrite (Hclose Hle). reflexivity.
    + intros Hh.
      destruct (Z_lt_ge_dec (halfOpenSuccesses b + 1)
                  (halfOpenAttempts (options b))) as [Hlt|Hge]; [exact Hlt|].
      rewrite Hclose in Hh by lia. discriminate.
    + intros Hlt. apply Hstay. exact Hlt.
    + intros Hh.
      destruct (Z_lt_ge_dec (halfOpenSuccesses b + 1)
                  (halfOpenAttempts (options b))) as [Hlt|Hge].
      * apply Hstay. exact Hlt.
      * rewrite Hclose in Hh by lia. discriminate.
  - intros name. split; reflexivity.
Qed.

(** The failure count of a closed breaker stays below the threshold, so
    it opens at the failure that makes the count equal to it. *)
Lemma options_step (b : CircuitBreaker) (ev : Event) :
  options (step b ev) = options b.
Proof.
  destruct ev as [now|now later e]; unfold step, execute, checkState;
    simpl;
    destruct (state_eqb (state b) OPEN && (nextAttempt b <=? now)) eqn:E1;
    simpl;
    try (destruct (state b) eqn:Hs; simpl in *; try discriminate; simpl;
         unfold onSuccess, onFailure; simpl; rewrite ?Hs; simpl;
         repeat match goal with
                | |- context [if ?c then _ else _] => destruct c
                end; reflexivity);
    unfold onSuccess, onFailure; simpl;
    repeat match goal with
           | |- context [if ?c then _ else _] => destruct c
           end; reflexivity.
Qed.

Lemma closed_below_threshold_step (b : CircuitBreaker) (ev : Event) :
  1 <= failureThreshold (options b) ->
  closed_below_threshold b -> closed_below_threshold (step b ev).
Proof.
  unfold closed_below_threshold. intros Hth Hinv.
  destruct ev as [now|now later e];
    unfold step, execute, checkState, onSuccess, onFailure; simpl;
    destruct (state b) eqn:Hs; simpl;
    repeat match goal with
           | |- context [if ?c then _ else _] =>
               let E := fresh "E" in destruct c eqn:E; simpl
           end;
    rewrite ?Hs; simpl;
    repeat match goal with
           | |- context [if ?c then _ else _] =>
               let E := fresh "E" in destruct c eqn:E; simpl
           end;
    intros Hc; try discriminate;
    repeat match goal with
           | H : (_ <=? _) = false |- _ => apply Z.leb_gt in H
           | H : (_ <=? _) = true |- _ => apply Z.leb_le in H
           end;
    try specialize (Hinv eq_refl); lia.
Qed.

Lemma closed_below_threshold_run (evs : list Event) (b : CircuitBreaker) :
  1 <= failureThreshold (options b) ->
  closed_below_threshold b -> closed_below_threshold (run b evs).
Proof.
  revert b. induction evs as [|ev evs IH]; intros b Hth Hinv; simpl.
  - exact Hinv.
  - apply IH.
    + rewrite options_step. exact Hth.
    + apply closed_below_threshold_step; assumption.
Qed.

End CircuitBreakerProps.

(** ** Exception filter: the second half *)

Section FinishProps.
Import AllExceptionsFilter Envelope.

Lemma finish_error (now : string) (request : Request) (status : Z)
    (errorResponse : list (string * JsValue)) :
  prop (finish now request status errorResponse) "error" =
  if status =? HttpStatus.PAYLOAD_TOO_LARGE then JStr "PayloadTooLarge"
  else rewrite_kind (prop (JObj errorResponse) "error").
Proof.
  unfold finish, rewrite_kind.
  destruct (truthy (header request "x-request-id"));
    destruct (status =? HttpStatus.PAYLOAD_TOO_LARGE);
    rewrite ?prop_obj_assign; try reflexivity;
    destruct (is_str (prop (JObj errorResponse) "error") "Bad Request");
    rewrite ?prop_obj_assign; reflexivity.
Qed.

(** Any other key but [requestId] is what the first half left, unless
    the status is 413. *)
Lemma finish_other (now : string) (request : Request) (status : Z)
    (errorResponse : list (string * JsValue)) (k : string) :
  String.eqb k "error" = false -> String.eqb k "requestId" = false ->
  (status =? HttpStatus.PAYLOAD_TOO_LARGE) = false ->
  prop (finish now request status errorResponse) k
    = prop (JObj errorResponse) k
  /\ has_key k (finish now request status errorResponse)
    = has_key k (JObj errorResponse).
Proof.
  intros Hk1 Hk2 Hst. unfold finish. rewrite Hst.
  destruct (truthy (header request "x-request-id"));
    destruct (is_str (prop (JObj errorResponse) "error") "Bad Request");
    rewrite ?prop_obj_assign, ?has_key_obj_assign; unfold assoc_mem;
    simpl assoc_get; rewrite ?Hk1, ?Hk2; simpl;
    rewrite ?assoc_get_obj_assign; simpl assoc_get; rewrite ?Hk1;
    split; reflexivity.
Qed.

Lemma finish_too_large (now : string) (request : Request)
    (errorResponse : list (string * JsValue)) :
  let body := finish now request HttpStatus.PAYLOAD_TOO_LARGE errorResponse in
  prop body "error" = JStr "PayloadTooLarge"
  /\ prop body "errorCode" = JStr "ERR_PAYLOAD_TOO_LARGE"
  /\ has_key "success" body = false.
Proof.
  unfold finish. simpl.
  destruct (truthy (header request "x-request-id"));
    repeat split; try reflexivity;
    rewrite ?assoc_get_obj_assign; unfold assoc_mem;
    rewrite ?assoc_get_obj_assign; reflexivity.
Qed.

Lemma finish_has_error (now : string) (request : Request) (status : Z)
    (errorResponse : list (string * JsValue)) :
  has_key "error" (JObj errorResponse) = true ->
  has_key "error" (finish now request status errorResponse) = true.
Proof.
  intros Hk. unfold finish.
  destruct (truthy (header request "x-request-id"));
    destruct (status =? HttpStatus.PAYLOAD_TOO_LARGE);
    destruct (is_str (prop (JObj errorResponse) "error") "Bad Request");
    rewrite ?has_key_obj_assign; simpl in *; rewrite ?Hk;
    try reflexivity;
    unfold assoc_mem; rewrite ?assoc_get_obj_assign; simpl;
    try reflexivity; apply orb_true_r.
Qed.

(** A typed gateway exception keeps its status, kind and code, the 413
    envelope apart. *)
Lemma catch_BaseException (now : string) (request : Request)
    (ty msg c : string) (st : Z) (ve : option (list JsValue)) :
  str_truthy c = true ->
  (st =? HttpStatus.PAYLOAD_TOO_LARGE) = false ->
  let '(status, body) :=
    catch now (BaseException ty msg st (Some c) ve) request in
  status = st
  /\ prop body "error" = rewrite_kind (JStr ty)
  /\ prop body "errorCode" = JStr c
  /\ has_key "success" body = false.
Proof.
  intros Hc Hst. unfold catch, classify.
  split; [reflexivity|].
  rewrite finish_error, Hst.
  destruct (finish_other now request st
              (obj_assign (entries_of (base_response ty msg (Some c) ve))
                 (stamp now request)) "errorCode" eq_refl eq_refl Hst)
    as [Hp _].
  destruct (finish_other now request st
              (obj_assign (entries_of (base_response ty msg (Some c) ve))
                 (stamp now request)) "success" eq_refl eq_refl Hst)
    as [_ Hh].
  rewrite Hp, Hh. clear Hp Hh.
  rewrite !prop_obj_assign, has_key_obj_assign.
  unfold base_response. rewrite Hc.
  destruct ve; simpl; auto.
Qed.

End FinishProps.

(** ** Circuit breaker: admission and what counts as a failure *)

Section BreakerCalls.
Import CircuitBreaker AllExceptionsFilter.

Lemma checkState_open_due (now : Z) (b : CircuitBreaker) :
  state b = OPEN -> nextAttempt b <= now ->
  exists b1, checkState now b = (Return tt, b1)
             /\ state b1 = HALF_OPEN /\ halfOpenSuccesses b1 = 0
             /\ options b1 = options b /\ serviceName b1 = serviceName b.
Proof.
  intros Hs Hdue. unfold checkState. rewrite Hs. simpl.
  apply Z.leb_le in Hdue. rewrite Hdue. simpl.
  eexists. repeat split.
Qed.

Lemma checkState_open_early (now : Z) (b : CircuitBreaker) :
  state b = OPEN -> now < nextAttempt b ->
  checkState now b =
  (Throw (ServiceUnavailableException (Some (serviceName b))), b).
Proof.
  intros Hs Hearly. unfold checkState. rewrite Hs. simpl.
  apply Z.leb_gt in Hearly. rewrite Hearly. simpl. rewrite Hs. reflexivity.
Qed.

Lemma checkState_not_open (now : Z) (b : CircuitBreaker) :
  state b <> OPEN -> checkState now b = (Return tt, b).
Proof.
  intros Hs. unfold checkState.
  destruct (state b) eqn:E; simpl; try reflexivity; try rewrite E;
    try reflexivity. contradiction.
Qed.

(** The rejection of an open breaker as the client sees it. *)
Lemma catch_ServiceUnavailable (ts : string) (request : Request)
    (service : option string) :
  let '(status, body) :=
    catch ts (ServiceUnavailableException service) request in
  status = 503
  /\ prop body "error" = JStr "ServiceUnavailable"
  /\ prop body "errorCode" = JStr "ERR_SERVICE_UNAVAILABLE".
Proof.
  unfold ServiceUnavailableException.
  match goal with
  | |- context [BaseException ?ty ?msg ?st (Some ?c) ?ve] =>
      pose proof (catch_BaseException ts request ty msg c st ve
                    eq_refl eq_refl) as Hc
  end.
  destruct (catch ts _ request) as [status body].
  destruct Hc as (Hst & He & Hcode & _). auto.
Qed.

(** C5. A call that finds the breaker [OPEN]: once [now] has reached
    [nextAttempt] the breaker first becomes [HALF_OPEN] (with no counted
    success) and the wrapped function runs from that state; before that
    the call is rejected with [ServiceUnavailableException] (503,
    [ERR_SERVICE_UNAVAILABLE]), whatever the wrapped function is, and
    neither the breaker nor the upstream changes. *)
Theorem open_breaker_admission {W T : Type} (now later : Z)
    (fn : W -> Result T * W) (b : CircuitBreaker) (w : W)
    (ts : string) (request : Request) :
  state b = OPEN ->
  (nextAttempt b <= now ->
     exists b1,
       checkState now b = (Return tt, b1)
       /\ state b1 = HALF_OPEN /\ halfOpenSuccesses b1 = 0
       /\ execute now fn later b w =
          match fn w with
          | (inr result, w') => (Return result, onSuccess b1, w')
          | (inl error, w') => (Throw error, onFailure later error b1, w')
          end)
  /\ (now < nextAttempt b ->
        let rejection := ServiceUnavailableException (Some (serviceName b)) in
        execute now fn later b w = (Throw rejection, b, w)
        /\ fst (catch ts rejection request) = 503
        /\ prop (snd (catch ts rejection request)) "error"
           = JStr "ServiceUnavailable"
        /\ prop (snd (catch ts rejection request)) "errorCode"
           = JStr "ERR_SERVICE_UNAVAILABLE").
Proof.
  intros Hs. split.
  - intros Hdue.
    destruct (checkState_open_due now b Hs Hdue)
      as (b1 & Hck & Hst & Hcnt & _).
    exists b1. repeat split; auto.
    unfold execute. rewrite Hck.
    destruct (fn w) as [[error|result] w']; reflexivity.
  - intros Hearly rejection.
    split.
    + unfold execute. rewrite (checkState_open_early now b Hs Hearly).
      reflexivity.
    + pose proof (catch_ServiceUnavailable ts request
                    (Some (serviceName b))) as Hc.
      fold rejection in Hc.
      destruct (catch ts rejection request) as [status body].
      simpl. destruct Hc as (H1 & H2 & H3). auto.
Qed.

(** The witness: the breaker that tripped at 1000 rejects a call at
    2000 without a request reaching the upstream. *)
Lemma open_breaker_admission_witness :
  state Samples.open_breaker = OPEN
  /\ execute 2000 (ServiceAService.wrapped_call Samples.scripted) 2010
       Samples.open_breaker (O, [inr Samples.ok_response])
     = (Throw (ServiceUnavailableException (Some "service-a")),
        Samples.open_breaker, (O, [inr Samples.ok_response])).
Proof.
  split; [reflexivity|].
  destruct (open_breaker_admission 2000 2010
              (ServiceAService.wrapped_call Samples.scripted)
              Samples.open_breaker (O, [inr Samples.ok_response])
              Samples.timestamp Samples.items_request eq_refl)
    as [_ Hearly].
  destruct Hearly as [Hex _]; [reflexivity|].
  exact Hex.
Defined.

Section CountedFailures.
Context {W : Type}.
Import ServiceAService.

Lemma handleError_is_HttpException (error : JsError) :
  instanceof_HttpException (handleError error) = true.
Proof.
  unfold handleError.
  destruct (timeout_error error); [reflexivity|].
  destruct (connect_error error); [reflexivity|].
  destruct (response error) as [r|]; [|reflexivity].
  destruct (status r =? 404); reflexivity.
Qed.

Lemma onFailure_lastError (later : Z) (e : Exception) (b : CircuitBreaker) :
  state b <> OPEN -> lastError (onFailure later e b) = Some e.
Proof.
  intros Hs. unfold onFailure. cbn [state failureCount options].
  destruct (state b); try contradiction; cbn [trip lastError]; [|reflexivity].
  destruct (failureThreshold (options b) <=? failureCount b + 1);
    reflexivity.
Qed.

(** C1, as the code has it.  Once a call is admitted, every rejection of
    the upstream request counts as a failure of the breaker, whatever
    its cause (a 404 as much as a timeout): [handleError] turns it into
    an exception, the wrapped function rejects with it, and [execute]
    runs [onFailure], which adds one to the count of a closed breaker,
    opening it at the threshold, and opens a half-open one.  Only a
    request the HTTP client resolves counts as a success. *)
Theorem breaker_counts_every_rejection (now later : Z)
    (upstream : @Upstream W) (b b1 : CircuitBreaker) (w w' : W) :
  checkState now b = (Return tt, b1) ->
  (forall error, upstream w = (inl error, w') ->
     let after :=
       snd (fst (execute now (wrapped_call upstream) later b w)) in
     execute now (wrapped_call upstream) later b w
     = (Throw (handleError error), onFailure later (handleError error) b1, w')
     /\ instanceof_HttpException (handleError error) = true
     /\ lastError after = Some (handleError error)
     /\ (state b1 = CLOSED ->
         failureCount after = failureCount b1 + 1
         /\ (failureThreshold (options b1) <= failureCount b1 + 1 ->
             state after = OPEN))
     /\ (state b1 = HALF_OPEN -> state after = OPEN))
  /\ (forall resp, upstream w = (inr resp, w') ->
        execute now (wrapped_call upstream) later b w
        = (Return (ResponseUtils.standardizeResponse (data resp)),
           onSuccess b1, w')).
Proof.
  intros Hck.
  assert (Hnot : state b1 <> OPEN).
  { unfold checkState in Hck.
    destruct (state_eqb (state b) OPEN && (nextAttempt b <=? now)).
    - inversion Hck. cbn. discriminate.
    - destruct (state_eqb (state b) OPEN) eqn:E; [discriminate|].
      inversion Hck. subst b1. intros Ho.
      apply state_eqb_eq in Ho. congruence. }
  split.
  - intros error Hup after.
    assert (Hex : execute now (wrapped_call upstream) later b w
                  = (Throw (handleError error),
                     onFailure later (handleError error) b1, w')).
    { unfold execute, wrapped_call. rewrite Hck, Hup. reflexivity. }
    subst after. rewrite Hex. cbn [fst snd].
    split; [reflexivity|].
    split; [apply handleError_is_HttpException|].
    split; [exact (onFailure_lastError later _ b1 Hnot)|].
    split.
    + intros Hs.
      destruct (onFailure_closed later (handleError error) b1 Hs)
        as (Hopen & _ & Hcount).
      split; [exact Hcount|]. intros Hle. apply Hopen. exact Hle.
    + intros Hs. apply (onFailure_half_open later (handleError error) b1 Hs).
  - intros resp Hup. unfold execute, wrapped_call. rewrite Hck, Hup.
    reflexivity.
Qed.

End CountedFailures.

(** The witness: an upstream 404 met by a fresh breaker. *)
Lemma breaker_counts_every_rejection_witness :
  failureCount
    (snd (fst (execute 1000 (ServiceAService.wrapped_call Samples.scripted)
                 1010 (new_breaker "service-a" None)
                 (O, [inl Samples.not_found_error])))) = 1.
Proof.
  destruct (breaker_counts_every_rejection 1000 1010 Samples.scripted
              (new_breaker "service-a" None) (new_breaker "service-a" None)
              (O, [inl Samples.not_found_error]) (1%nat, []) eq_refl)
    as [Hrej _].
  destruct (Hrej Samples.not_found_error eq_refl) as (_ & _ & _ & Hclosed & _).
  destruct (Hclosed eq_refl) as [Hcount _]. exact Hcount.
Defined.

(** C1, as the claim has it, fails: upstream 404 responses are counted.
    The first one puts the failure count of a fresh breaker at 1, three
    of them open it, and the fourth call is then rejected without a
    request reaching the upstream. *)
Lemma not_found_trips_breaker :
  ServiceAService.handleError Samples.not_found_error
    = ResourceNotFoundException "item" "42"
  /\ failureCount
       (snd (fst (execute 1000
                    (ServiceAService.wrapped_call Samples.scripted) 1010
                    (new_breaker "service-a" None)
                    (O, [inl Samples.not_found_error])))) = 1
  /\ (let '(circuits, w) :=
        Samples.three_calls
          [inl Samples.not_found_error; inl Samples.not_found_error;
           inl Samples.not_found_error; inr Samples.ok_response] in
      option_map state (circuits !! "service-a") = Some OPEN
      /\ fst w = 3%nat
      /\ ServiceAService.getAllItems 4000 Samples.scripted 4010 circuits w
         = (Throw (ServiceUnavailableException (Some "service-a")),
            circuits, w)).
Proof.
  split; [reflexivity|]. split; [reflexivity|].
  vm_compute. repeat split; reflexivity.
Qed.

End BreakerCalls.

(** ** Rate limiter *)

Section ThrottlerProps.
Import ThrottlerService.

Section AnyStore.
Context {R : Type} `{RedisClient R}.

(** [incrementByThrottler] catches every rejection of the store. *)
Lemma incrementByThrottler_returns (key : string) (increment : Z)
    (ttl : option Z) (r : R) :
  exists value r', incrementByThrottler key increment ttl r = (Return value, r').
Proof.
  unfold incrementByThrottler.
  destruct (incrBy key increment r) as [[e|value] r1]; [eauto|].
  destruct ttl as [t|]; [|eauto].
  destruct (negb (t =? 0) && (value =? increment)); [|eauto].
  destruct (expire key t r1) as [[e|ok] r2]; eauto.
Qed.

(** It answers a failed command with 0. *)
Lemma incrementByThrottler_failure (key : string) (increment : Z)
    (ttl : option Z) (r : R) (e : JsError) (r1 : R) :
  incrBy key increment r = (inl e, r1) ->
  incrementByThrottler key increment ttl r = (Return 0, r1).
Proof. intros Hi. unfold incrementByThrottler. rewrite Hi. reflexivity. Qed.

(** It answers with the incremented value when no command fails. *)
Lemma incrementByThrottler_value (key : string) (increment : Z)
    (ttl : option Z) (r : R) (value : Z) (r1 : R) :
  incrBy key increment r = (inr value, r1) ->
  (forall t e r2, expire key t r1 <> (inl e, r2)) ->
  exists r', incrementByThrottler key increment ttl r = (Return value, r').
Proof.
  intros Hi Hex. unfold incrementByThrottler. rewrite Hi.
  destruct ttl as [t|]; [|eauto].
  destruct (negb (t =? 0) && (value =? increment)); [|eauto].
  destruct (expire key t r1) as [[e|ok] r2] eqn:E; [|eauto].
  exfalso. exact (Hex t e r2 E).
Qed.

Variable cfg : Config.

(** A check never throws: the store's failures were caught below it. *)
Lemma checkRateLimit_returns (now : Z) (key method : string)
    (resource : option string) (r : R) :
  exists res r', checkRateLimit cfg now key method resource r = (Return res, r').
Proof.
  unfold checkRateLimit.
  destruct (resolve_rule cfg method resource) as [lim ttl].
  destruct (incrementByThrottler_returns
              (generateKey cfg now key method resource (Some ttl)) 1
              (Some ttl) r) as (value & r' & Hinc).
  rewrite Hinc. eauto.
Qed.

(** C2. Every rate-limit check returns a decision, whose [current] is
    the value the increment in the store yielded; in it [limited] holds
    exactly when [current > limit], and [remaining] is
    [max(0, limit - current)], hence never negative. *)
Theorem checkRateLimit_decision (now : Z) (key method : string)
    (resource : option string) (r : R) :
  let rule := resolve_rule cfg method resource in
  let redisKey := generateKey cfg now key method resource (Some (snd rule)) in
  exists res r',
    checkRateLimit cfg now key method resource r = (Return res, r')
    /\ incrementByThrottler redisKey 1 (Some (snd rule)) r
       = (Return (current res), r')
    /\ (forall value r1,
          incrBy redisKey 1 r = (inr value, r1) ->
          (forall t e r2, expire redisKey t r1 <> (inl e, r2)) ->
          current res = value)
    /\ limit res = fst rule
    /\ (limited res = true <-> current res > limit res)
    /\ remaining res = Z.max 0 (limit res - current res)
    /\ 0 <= remaining res.
Proof.
  intros rule redisKey. unfold checkRateLimit.
  fold rule. destruct rule as [lim ttl] eqn:Hrule. simpl in redisKey.
  fold redisKey.
  destruct (incrementByThrottler_returns redisKey 1 (Some ttl) r)
    as (value & r' & Hinc).
  rewrite Hinc. eexists. exists r'. split; [reflexivity|]. simpl.
  split; [exact Hinc|]. split.
  - intros v r1 Hi Hex.
    destruct (incrementByThrottler_value redisKey 1 (Some ttl) r v r1 Hi Hex)
      as (r'' & Hinc').
    rewrite Hinc in Hinc'. unfold Return in Hinc'. congruence.
  - repeat split; lia.
Qed.

(** Every limit of the table is positive, the [GET] entry apart, which
    is the configured default. *)
Lemma limitMap_nonneg (k : string) (v : Z) :
  0 <= defaultLimit cfg -> limitMap cfg !! k = Some v -> 0 <= v.
Proof.
  intros Hd Hk. unfold limitMap in Hk.
  apply elem_of_list_to_map_2 in Hk.
  repeat match goal with
         | H : _ ∈ _ :: _ |- _ => apply elem_of_cons in H; destruct H as [H|H]
         | H : _ ∈ [] |- _ => apply elem_of_nil in H; contradiction
         | H : (_, _) = (_, _) |- _ => inversion H; subst; clear H
         end; lia.
Qed.

Lemma lookup_truthy_nonneg (k : string) (v : Z) :
  0 <= defaultLimit cfg -> lookup_truthy (limitMap cfg) k = Some v -> 0 <= v.
Proof.
  intros Hd. unfold lookup_truthy.
  destruct (limitMap cfg !! k) as [v'|] eqn:Hk; [|discriminate].
  destruct (v' =? 0); [discriminate|].
  intros Hv. inversion Hv. subst v'. exact (limitMap_nonneg k v Hd Hk).
Qed.

Lemma resolve_rule_nonneg (method : string) (resource : option string) :
  0 <= defaultLimit cfg -> 0 <= fst (resolve_rule cfg method resource).
Proof.
  intros Hd. unfold resolve_rule.
  destruct (method_resource method resource) as [k|].
  - destruct (lookup_truthy (limitMap cfg) k) as [l|] eqn:Hl;
      cbn [option_map fst].
    + exact (lookup_truthy_nonneg k l Hd Hl).
    + destruct (lookup_truthy (limitMap cfg) method) as [l|] eqn:Hm;
        cbn [fst]; [exact (lookup_truthy_nonneg method l Hd Hm) | exact Hd].
  - destruct (lookup_truthy (limitMap cfg) method) as [l|] eqn:Hm;
      cbn [fst]; [exact (lookup_truthy_nonneg method l Hd Hm) | exact Hd].
Qed.

(** C6, as the code has it.  When the store fails during a check (the
    increment is rejected, or the TTL command after it),
    [checkRateLimit] still returns a decision and throws nothing: the
    one of a counter that reads 0, so [limited] is [0 > limit] and
    [remaining] is [max(0, limit)].  With a configured default limit
    that is not negative this is [limited = false], [remaining =
    limit]. *)
Theorem checkRateLimit_fail_open (now : Z) (key method : string)
    (resource : option string) (r : R) :
  let rule := resolve_rule cfg method resource in
  let redisKey := generateKey cfg now key method resource (Some (snd rule)) in
  ((exists e r1, incrBy redisKey 1 r = (inl e, r1))
   \/ (exists v r1 e r2,
         incrBy redisKey 1 r = (inr v, r1)
         /\ snd rule <> 0 /\ v = 1
         /\ expire redisKey (snd rule) r1 = (inl e, r2))) ->
  exists res r',
    checkRateLimit cfg now key method resource r = (Return res, r')
    /\ current res = 0
    /\ limit res = fst rule
    /\ limited res = (fst rule <? 0)
    /\ remaining res = Z.max 0 (fst rule)
    /\ (0 <= defaultLimit cfg ->
        limited res = false /\ remaining res = limit res).
Proof.
  intros rule redisKey Hfail.
  assert (Hzero : exists r', incrementByThrottler redisKey 1 (Some (snd rule)) r
                             = (Return 0, r')).
  { destruct Hfail as [(e & r1 & Hi)|(v & r1 & e & r2 & Hi & Ht & Hv & He)].
    - exists r1. exact (incrementByThrottler_failure _ _ _ _ e r1 Hi).
    - exists r2. unfold incrementByThrottler. rewrite Hi. subst v.
      apply Z.eqb_neq in Ht. rewrite Ht. simpl. rewrite He. reflexivity. }
  destruct Hzero as (r' & Hinc).
  pose proof (resolve_rule_nonneg method resource) as Hnn. fold rule in Hnn.
  unfold checkRateLimit. fold rule.
  destruct rule as [lim ttl] eqn:Hrule. cbn [fst snd] in *. fold redisKey.
  rewrite Hinc. eexists. exists r'. split; [reflexivity|].
  cbn [limited limit remaining current].
  split; [reflexivity|]. split; [reflexivity|]. split; [reflexivity|].
  split; [f_equal; lia|].
  intros Hd. specialize (Hnn Hd). split.
  - apply Z.ltb_ge. exact Hnn.
  - lia.
Qed.

End AnyStore.

(** The witness: a check against a store whose connection is down. *)
Lemma checkRateLimit_fail_open_witness :
  exists res r',
    checkRateLimit Samples.cfg Samples.now_ms "10.0.0.1" "POST" (Some "file")
      Samples.down_store = (Return res, r')
    /\ limited res = false /\ limit res = 10 /\ remaining res = 10.
Proof.
  destruct (checkRateLimit_fail_open Samples.cfg Samples.now_ms "10.0.0.1"
              "POST" (Some "file") Samples.down_store)
    as (res & r' & Hres & _ & Hlim & _ & _ & Hopen).
  - left. exists connection_error, Samples.down_store. reflexivity.
  - destruct Hopen as [Hl Hrem]; [vm_compute; discriminate|].
    exists res, r'. rewrite Hrem, Hlim. repeat split; assumption.
Defined.

End ThrottlerProps.

(** ** Exception filter: the first half *)

Section ClassifyProps.
Import AllExceptionsFilter Envelope.

Lemma getErrorTypeFromStatus_in_taxonomy (status : Z) :
  in_taxonomy (JStr (getErrorTypeFromStatus status)) = true.
Proof.
  unfold getErrorTypeFromStatus.
  repeat match goal with
         | |- context [if ?c then _ else _] => destruct c; [reflexivity|]
         end.
  reflexivity.
Qed.

Lemma in_taxonomy_rewrite_kind (kind : JsValue) :
  in_taxonomy kind = true -> rewrite_kind kind = kind.
Proof.
  unfold rewrite_kind. destruct kind; simpl; try reflexivity.
  destruct (String.eqb s "Bad Request") eqn:E; [|reflexivity].
  apply String.eqb_eq in E. subst s. intros Habs. discriminate.
Qed.

Lemma rewrite_kind_idempotent (kind : JsValue) :
  rewrite_kind (rewrite_kind kind) = rewrite_kind kind.
Proof.
  unfold rewrite_kind.
  destruct (is_str kind "Bad Request") eqn:E; [reflexivity|].
  rewrite E. reflexivity.
Qed.

Lemma truthy_js_or_l (a b : JsValue) : truthy a = true -> js_or a b = a.
Proof. intros Ha. unfold js_or. rewrite Ha. reflexivity. Qed.

Lemma prop_set_prop_other (o : JsValue) (k k' : string) (x : JsValue) :
  String.eqb k' k = false -> prop (set_prop o k x) k' = prop o k'.
Proof.
  intros Hk. destruct o; try reflexivity.
  unfold set_prop. rewrite prop_obj_assign. simpl. rewrite Hk. reflexivity.
Qed.

Lemma has_key_set_prop (o : JsValue) (k k' : string) (x : JsValue) :
  String.eqb k' k = false -> has_key k' (set_prop o k x) = has_key k' o.
Proof.
  intros Hk. destruct o; try reflexivity.
  unfold set_prop. rewrite has_key_obj_assign. unfold assoc_mem. simpl.
  rewrite Hk. reflexivity.
Qed.

Lemma truthy_prop_has_key (o : JsValue) (k : string) :
  truthy (prop o k) = true -> has_key k o = true.
Proof.
  destruct o; simpl; try discriminate.
  unfold assoc_mem. destruct (assoc_get k entries); [reflexivity|].
  simpl. discriminate.
Qed.

Lemma has_key_entries_of (o : JsValue) (k : string) :
  has_key k (JObj (entries_of o)) = has_key k o.
Proof. destruct o; reflexivity. Qed.

Lemma prop_entries_of (o : JsValue) (k : string) :
  prop (JObj (entries_of o)) k = prop o k.
Proof. destruct o; reflexivity. Qed.

(** What the envelope of the first half holds under a key other than
    the two stamps: the thrown [BaseException]'s body. *)
Lemma classify_BaseException (now : string) (request : Request)
    (ty msg : string) (st : Z) (ec : option string)
    (ve : option (list JsValue)) :
  let er := snd (classify now (BaseException ty msg st ec ve) request) in
  prop (JObj er) "error" = JStr ty
  /\ has_key "error" (JObj er) = true
  /\ has_key "success" (JObj er) = false
  /\ (has_key "errorCode" (JObj er) = true ->
      prop (JObj er) "errorCode"
      = carried_code (BaseException ty msg st ec ve)).
Proof.
  cbn [classify snd]. rewrite !prop_obj_assign, !has_key_obj_assign.
  unfold base_response.
  destruct ec as [c|]; [destruct (str_truthy c)|]; destruct ve;
    simpl; repeat split; auto; discriminate.
Qed.

Lemma classify_HttpException (now : string) (request : Request)
    (r : JsValue) (st : Z) :
  let er := snd (classify now (HttpException r st) request) in
  has_key "error" (JObj er) = true
  /\ has_key "success" (JObj er) = false
  /\ (in_taxonomy (prop (JObj er) "error") = true
      \/ (truthy (prop r "error") = true
          /\ prop (JObj er) "error" = rewrite_kind (prop r "error")))
  /\ (has_key "errorCode" (JObj er) = true ->
      prop (JObj er) "errorCode" = prop r "errorCode").
Proof.
  cbn [classify snd]. unfold http_exception_response.
  destruct (typeof_object r).
  - assert (Hkind :
      in_taxonomy
        (if is_str (js_or (prop r "error") (JStr (getErrorTypeFromStatus st)))
              "Bad Request"
         then JStr "BadRequest"
         else js_or (prop r "error") (JStr (getErrorTypeFromStatus st))) = true
      \/ (truthy (prop r "error") = true
          /\ (if is_str (js_or (prop r "error")
                           (JStr (getErrorTypeFromStatus st))) "Bad Request"
              then JStr "BadRequest"
              else js_or (prop r "error") (JStr (getErrorTypeFromStatus st)))
             = rewrite_kind (prop r "error"))).
    { unfold js_or. destruct (truthy (prop r "error")) eqn:Ht.
      - right. split; reflexivity.
      - left.
        pose proof (getErrorTypeFromStatus_in_taxonomy st) as Hin.
        pose proof (in_taxonomy_rewrite_kind _ Hin) as Hrw.
        unfold rewrite_kind in Hrw. rewrite Hrw. exact Hin. }
    destruct (truthy (prop r "validationErrors"));
      destruct (truthy (prop r "errorCode")) eqn:Hcode;
      rewrite ?prop_obj_assign, ?has_key_obj_assign;
      unfold assoc_mem; rewrite ?assoc_get_obj_assign;
      cbn [assoc_get app stamp String.eqb Ascii.eqb Bool.eqb prop orb];
      repeat split; auto; discriminate.
  - cbn [assoc_get app stamp String.eqb Ascii.eqb Bool.eqb prop has_key
         assoc_mem].
    repeat split; auto.
    + left. apply getErrorTypeFromStatus_in_taxonomy.
    + discriminate.
Qed.

Lemma classify_ErrorObject (now : string) (request : Request) (err : JsError) :
  let er := snd (classify now (ErrorObject err) request) in
  has_key "error" (JObj er) = true
  /\ (in_taxonomy (prop (JObj er) "error") = true
      \/ prop (JObj er) "error" = JStr "UnexpectedError"
      \/ (truthy (carried_error (ErrorObject err)) = true
          /\ rewrite_kind (prop (JObj er) "error")
             = rewrite_kind (carried_error (ErrorObject err))))
  /\ (has_key "errorCode" (JObj er) = true ->
      is_filter_code (prop (JObj er) "errorCode") = true
      \/ prop (JObj er) "errorCode" = carried_code (ErrorObject err))
  /\ (has_key "success" (JObj er) = true ->
      upstream_body_has_success (ErrorObject err) = true).
Proof.
  cbn [classify carried_error carried_code upstream_body_has_success].
  unfold error_response.
  destruct (is_timeout err).
  { cbn. repeat split; auto. discriminate. }
  destruct (is_connection_error err).
  { cbn. repeat split; auto. discriminate. }
  destruct (response err) as [r|].
  2:{ cbn. repeat split; auto; discriminate. }
  destruct (truthy (data r)).
  2:{ cbn. repeat split; auto; discriminate. }
  destruct (truthy (prop (data r) "error")) eqn:Herr; cbn [andb].
  2:{ cbn [snd]. cbn [assoc_get app stamp String.eqb Ascii.eqb Bool.eqb prop
                      has_key assoc_mem].
      repeat split; auto; try discriminate.
      left. apply getErrorTypeFromStatus_in_taxonomy. }
  destruct (truthy (prop (data r) "message")).
  2:{ cbn [snd]. cbn [assoc_get app stamp String.eqb Ascii.eqb Bool.eqb prop
                      has_key assoc_mem].
      repeat split; auto; try discriminate.
      left. apply getErrorTypeFromStatus_in_taxonomy. }
  cbn [snd].
  rewrite !prop_obj_assign, !has_key_obj_assign.
  cbn [assoc_get assoc_mem stamp String.eqb Ascii.eqb Bool.eqb orb].
  unfold assoc_mem.
  cbn [assoc_get assoc_mem stamp String.eqb Ascii.eqb Bool.eqb orb].
  fold (@assoc_mem JsValue).
  rewrite !prop_entries_of.
  pose proof (truthy_prop_has_key _ _ Herr) as Hhas.
  destruct (is_str (prop (data r) "error") "Bad Request") eqn:Hbad.
  - change (match assoc_get "error" (entries_of (set_prop (data r) "error"
                                                  (JStr "BadRequest"))) with
            | Some _ => true | None => false end)
      with (has_key "error" (JObj (entries_of (set_prop (data r) "error"
                                                (JStr "BadRequest"))))).
    change (match assoc_get "errorCode" (entries_of (set_prop (data r) "error"
                                                  (JStr "BadRequest"))) with
            | Some _ => true | None => false end)
      with (has_key "errorCode" (JObj (entries_of (set_prop (data r) "error"
                                                (JStr "BadRequest"))))).
    change (match assoc_get "success" (entries_of (set_prop (data r) "error"
                                                  (JStr "BadRequest"))) with
            | Some _ => true | None => false end)
      with (has_key "success" (JObj (entries_of (set_prop (data r) "error"
                                                (JStr "BadRequest"))))).
    rewrite !has_key_entries_of.
    rewrite (prop_set_prop_other (data r) "error" "errorCode") by reflexivity.
    rewrite (has_key_set_prop (data r) "error" "errorCode") by reflexivity.
    rewrite (has_key_set_prop (data r) "error" "success") by reflexivity.
    destruct (data r) as [| | | | |?|l]; try discriminate.
    repeat split; auto.
    + unfold set_prop. rewrite has_key_obj_assign. reflexivity.
    + right. right. split; [reflexivity|].
      unfold set_prop. rewrite prop_obj_assign. cbn [assoc_get String.eqb
        Ascii.eqb Bool.eqb].
      unfold rewrite_kind at 2. rewrite Hbad. reflexivity.
  - change (match assoc_get "error" (entries_of (data r)) with
            | Some _ => true | None => false end)
      with (has_key "error" (JObj (entries_of (data r)))).
    change (match assoc_get "errorCode" (entries_of (data r)) with
            | Some _ => true | None => false end)
      with (has_key "errorCode" (JObj (entries_of (data r)))).
    change (match assoc_get "success" (entries_of (data r)) with
            | Some _ => true | None => false end)
      with (has_key "success" (JObj (entries_of (data r)))).
    rewrite !has_key_entries_of.
    repeat split; auto.
Qed.

End ClassifyProps.

(** ** Exception filter: the envelope *)

Section FilterEnvelope.
Import AllExceptionsFilter Envelope.

Lemma finish_code_or_success (now : string) (request : Request) (status : Z)
    (errorResponse : list (string * JsValue)) :
  (status =? HttpStatus.PAYLOAD_TOO_LARGE) = false ->
  let body := finish now request status errorResponse in
  prop body "errorCode" = prop (JObj errorResponse) "errorCode"
  /\ has_key "errorCode" body = has_key "errorCode" (JObj errorResponse)
  /\ has_key "success" body = has_key "success" (JObj errorResponse).
Proof.
  intros Hst body.
  destruct (finish_other now request status errorResponse "errorCode"
              eq_refl eq_refl Hst) as [Hp Hh].
  destruct (finish_other now request status errorResponse "success"
              eq_refl eq_refl Hst) as [_ Hs].
  auto.
Qed.

(** The envelope the first half settles on, for every thrown value. *)
Lemma classify_envelope (now : string) (exc : Exception) (request : Request) :
  let er := snd (classify now exc request) in
  has_key "error" (JObj er) = true
  /\ (in_taxonomy (prop (JObj er) "error") = true
      \/ ((exists err, exc = ErrorObject err)
          /\ prop (JObj er) "error" = JStr "UnexpectedError")
      \/ rewrite_kind (prop (JObj er) "error")
         = rewrite_kind (carried_error exc))
  /\ (has_key "errorCode" (JObj er) = true ->
      is_filter_code (prop (JObj er) "errorCode") = true
      \/ prop (JObj er) "errorCode" = carried_code exc)
  /\ (has_key "success" (JObj er) = true ->
      upstream_body_has_success exc = true).
Proof.
  destruct exc as [ty msg st ec ve|r st|err|v].
  - destruct (classify_BaseException now request ty msg st ec ve)
      as (Hk & Hh & Hs & Hc).
    intros er. fold er in Hk, Hh, Hs, Hc.
    repeat split; auto.
    + right. right. rewrite Hk. reflexivity.
    + intros Hs'. rewrite Hs in Hs'. discriminate.
  - destruct (classify_HttpException now request r st)
      as (Hh & Hs & Hk & Hc).
    intros er. fold er in Hh, Hs, Hk, Hc.
    repeat split; auto.
    + destruct Hk as [Hin|[Ht Hk]]; [left; exact Hin|].
      right. right. rewrite Hk. apply rewrite_kind_idempotent.
    + intros Hs'. rewrite Hs in Hs'. discriminate.
  - destruct (classify_ErrorObject now request err) as (Hh & Hk & Hc & Hs).
    intros er. fold er in Hh, Hk, Hc, Hs.
    repeat split; auto.
    destruct Hk as [Hin|[Hu|[_ Hcar]]]; auto.
    right. left. split; [eauto | exact Hu].
  - cbn. repeat split; auto; discriminate.
Qed.

Lemma prop_error_extras (l : list (string * JsValue)) (b1 b2 : bool)
    (x y : JsValue) :
  prop (JObj (if b2
              then obj_assign
                     (if b1 then obj_assign l [("validationErrors", x)] else l)
                     [("errorCode", y)]
              else if b1 then obj_assign l [("validationErrors", x)] else l))
    "error"
  = prop (JObj l) "error".
Proof. destruct b1, b2; rewrite ?prop_obj_assign; reflexivity. Qed.

(** The kind the first half settles on, case by case. *)
Lemma classify_kind (now : string) (exc : Exception) (request : Request) :
  let st := fst (classify now exc request) in
  let er := snd (classify now exc request) in
  match supplied_kind exc with
  | Some kind => rewrite_kind (prop (JObj er) "error") = rewrite_kind kind
  | None =>
      if plain_error exc
      then st = HttpStatus.INTERNAL_SERVER_ERROR
           /\ prop (JObj er) "error" = JStr "UnexpectedError"
           /\ has_key "errorCode" (JObj er) = false
      else prop (JObj er) "error" = JStr (getErrorTypeFromStatus st)
  end.
Proof.
  destruct exc as [ty msg st ec ve|r st|err|v]; cbv zeta.
  - destruct (classify_BaseException now request ty msg st ec ve)
      as (Hk & _). cbv zeta in Hk. cbn [supplied_kind]. rewrite Hk.
    reflexivity.
  - cbn [classify fst snd supplied_kind plain_error].
    unfold http_exception_response.
    destruct (typeof_object r) eqn:Hobj.
    + cbv zeta. rewrite prop_error_extras.
      change (prop (JObj _) "error")
        with (rewrite_kind (js_or (prop r "error")
                              (JStr (getErrorTypeFromStatus st)))).
      unfold js_or.
      destruct (truthy (prop r "error")).
      * apply rewrite_kind_idempotent.
      * apply in_taxonomy_rewrite_kind.
        apply getErrorTypeFromStatus_in_taxonomy.
    + assert (Hnone : truthy (prop r "error") = false)
        by (destruct r; try reflexivity; discriminate).
      rewrite Hnone. reflexivity.
  - cbn [classify supplied_kind plain_error]. unfold error_response.
    destruct (is_timeout err); [reflexivity|].
    destruct (is_connection_error err); [reflexivity|].
    cbn [orb negb andb].
    destruct (response err) as [r|]; [|repeat split; reflexivity].
    destruct (truthy (data r)) eqn:Hdata.
    2:{ assert (Hnone : truthy (prop (data r) "error") = false)
          by (destruct (data r); try reflexivity; discriminate).
        rewrite Hnone. cbn [andb negb]. repeat split; reflexivity. }
    cbn [negb].
    destruct (truthy (prop (data r) "error") && truthy (prop (data r) "message"))
      eqn:Hboth; [|reflexivity].
    cbn [fst snd]. rewrite prop_obj_assign.
    cbn [assoc_get stamp String.eqb Ascii.eqb Bool.eqb andb].
    rewrite prop_entries_of.
    destruct (is_str (prop (data r) "error") "Bad Request") eqn:Hbad;
      [|reflexivity].
    apply andb_true_iff in Hboth as [Herr _].
    destruct (data r) as [| | | | |?|l]; try discriminate.
    unfold set_prop. rewrite prop_obj_assign.
    cbn [assoc_get String.eqb Ascii.eqb Bool.eqb andb].
    unfold rewrite_kind at 2. rewrite Hbad. reflexivity.
  - reflexivity.
Qed.

Lemma catch_transport (now : string) (request : Request) (err : JsError) :
  (is_timeout err = true ->
   fst (catch now (ErrorObject err) request) = HttpStatus.GATEWAY_TIMEOUT
   /\ prop (snd (catch now (ErrorObject err) request)) "errorCode"
      = JStr "ERR_GATEWAY_TIMEOUT")
  /\ (is_timeout err = false -> is_connection_error err = true ->
      fst (catch now (ErrorObject err) request)
      = HttpStatus.SERVICE_UNAVAILABLE
      /\ prop (snd (catch now (ErrorObject err) request)) "errorCode"
         = JStr "ERR_SERVICE_UNAVAILABLE").
Proof.
  unfold catch, classify, error_response. split.
  - intros ->. cbn [fst snd]. split; [reflexivity|].
    destruct (finish_code_or_success now request HttpStatus.GATEWAY_TIMEOUT
                ([("error", JStr "GatewayTimeout");
                  ("message", JStr "The server did not receive a timely response from an upstream server.");
                  ("errorCode", JStr "ERR_GATEWAY_TIMEOUT")]
                 ++ stamp now request) eq_refl) as (Hp & _).
    rewrite Hp. reflexivity.
  - intros -> ->. cbn [fst snd]. split; [reflexivity|].
    destruct (finish_code_or_success now request
                HttpStatus.SERVICE_UNAVAILABLE
                ([("error", JStr "ServiceUnavailable");
                  ("message", JStr "The service is currently unavailable. Please try again later.");
                  ("errorCode", JStr "ERR_SERVICE_UNAVAILABLE")]
                 ++ stamp now request) eq_refl) as (Hp & _).
    rewrite Hp. reflexivity.
Qed.

Lemma catch_ThrownValue (now : string) (request : Request) (v : JsValue) :
  fst (catch now (ThrownValue v) request) = HttpStatus.INTERNAL_SERVER_ERROR
  /\ prop (snd (catch now (ThrownValue v) request)) "error"
     = JStr "InternalServerError"
  /\ has_key "errorCode" (snd (catch now (ThrownValue v) request)) = false.
Proof.
  unfold catch, classify. cbn [fst snd]. split; [reflexivity|].
  destruct (finish_code_or_success now request
              HttpStatus.INTERNAL_SERVER_ERROR
              ([("error", JStr "InternalServerError");
                ("message", JStr "An unexpected error occurred.")]
               ++ stamp now request) eq_refl) as (_ & Hh & _).
  rewrite finish_error, Hh. split; reflexivity.
Qed.




End FilterEnvelope.

(** ** Rate limiter: the block response *)

Section BlockResponse.
Import ThrottlerService ThrottlerGuard AllExceptionsFilter Envelope.

(** The 429 of the guard as the client sees it: the kind is the one the
    guard wrote, with spaces, and there is no [errorCode]. *)
Lemma catch_too_many_requests (ts msg : string) (request : Request) :
  str_truthy msg = true ->
  let '(status, body) := catch ts (too_many_requests msg) request in
  status = 429
  /\ prop body "error" = JStr "Too Many Requests"
  /\ prop body "message" = JStr msg
  /\ has_key "errorCode" body = false.
Proof.
  intros Hmsg. unfold catch, classify, too_many_requests.
  split; [reflexivity|].
  rewrite finish_error.
  destruct (finish_other ts request HttpStatus.TOO_MANY_REQUESTS
              (http_exception_response ts request
                 (JObj [("statusCode", JNum HttpStatus.TOO_MANY_REQUESTS);
                        ("message", JStr msg);
                        ("error", JStr "Too Many Requests")])
                 HttpStatus.TOO_MANY_REQUESTS)
              "errorCode" eq_refl eq_refl eq_refl) as [_ Hcode].
  destruct (finish_other ts request HttpStatus.TOO_MANY_REQUESTS
              (http_exception_response ts request
                 (JObj [("statusCode", JNum HttpStatus.TOO_MANY_REQUESTS);
                        ("message", JStr msg);
                        ("error", JStr "Too Many Requests")])
                 HttpStatus.TOO_MANY_REQUESTS)
              "message" eq_refl eq_refl eq_refl) as [Hm _].
  rewrite Hcode, Hm. clear Hcode Hm.
  unfold http_exception_response. cbn. unfold js_or. cbn. 
  unfold str_truthy in Hmsg. rewrite Hmsg. auto.
Qed.

(** Whenever the guard ends a request over its limit, it does so with
    that 429. *)
Lemma canActivate_block (cfg : Config) {R : Type} `{RedisClient R}
    (isPublic skipThrottle : bool) (resource : option string)
    (enableTenantRateLimits : bool) (now : Z) (request : Request) (r : R)
    (e : Exception) (hs : Headers) (r' : R) :
  canActivate cfg isPublic skipThrottle resource enableTenantRateLimits now
    request r = (Throw e, hs, r') ->
  instanceof_HttpException e = true ->
  e = too_many_requests "Too many requests, please try again later."
  \/ e = too_many_requests "Tenant rate limit exceeded, please try again later.".
Proof.
  unfold canActivate.
  destruct isPublic; [discriminate|].
  destruct skipThrottle; [discriminate|].
  destruct (String.eqb (req_path request) "/health"
            || String.eqb (req_path request) "/api/health"); [discriminate|].
  destruct (raw_identifier request) as [e0|identifier] eqn:Hid.
  { intros Heq Hinst. unfold Throw in Heq. inversion Heq. subst e0.
    unfold raw_identifier in Hid.
    destruct (truthy (header request "x-api-key")); [discriminate|].
    destruct (js_or (opt_prop (req_user request) "id")
                (js_or (ip_value request) (JStr "anonymous")));
      try discriminate; unfold Throw in Hid; inversion Hid; subst e;
      discriminate Hinst. }
  generalize (normalize_identifier identifier). clear Hid identifier.
  intros identifier. cbv zeta.
  assert (Hregular : forall hs0 r0,
            match checkRateLimit cfg now identifier (req_method request)
                    resource r0 with
            | (inl e1, r2) => (Throw (A := bool) e1, hs0, r2)
            | (inr res, r2) =>
                if limited res
                then (Throw
                        (too_many_requests
                           "Too many requests, please try again later."),
                      hs0 ++ rate_limit_headers "X-RateLimit" res, r2)
                else (Return true,
                      hs0 ++ rate_limit_headers "X-RateLimit" res, r2)
            end = (Throw e, hs, r') ->
            e = too_many_requests "Too many requests, please try again later.").
  { intros hs0 r0.
    destruct (checkRateLimit_returns cfg now identifier
                (req_method request) resource r0) as (res & r2 & Hres).
    rewrite Hres. unfold Return at 1. cbv beta iota.
    destruct (limited res); [|discriminate].
    intros Heq. unfold Throw in Heq. inversion Heq. reflexivity. }
  unfold tenant_check.
  destruct (enableTenantRateLimits
            && truthy (opt_prop (req_user request) "tenantName")
            && truthy (opt_prop (req_user request) "tenantId")
            && isResourceIntensiveOperation (req_method request) resource).
  - match goal with
    | |- context [checkRateLimit cfg now ?k ?m ?res r] =>
        destruct (checkRateLimit_returns cfg now k m res r)
          as (tl & r1 & Htl)
    end.
    rewrite Htl. unfold Return at 1. cbv beta iota.
    destruct (limited tl); cbv beta iota.
    + intros Heq _. right. unfold Throw in Heq. inversion Heq. reflexivity.
    + intros Heq _. left. exact (Hregular _ _ Heq).
  - cbv beta iota. intros Heq _. left. exact (Hregular _ _ Heq).
Qed.

(** C7 on the code.  The eleventh upload of a window is blocked with
    status 429, but the envelope's kind is ["Too Many Requests"], not
    ["TooManyRequests"], and it has no [errorCode]: the guard throws a
    bare [HttpException], while [RateLimitExceededException], which
    carries [TooManyRequests] and [ERR_RATE_LIMIT_EXCEEDED], is never
    thrown. *)
Theorem rate_limit_block_envelope :
  fst (fst (canActivate Samples.cfg false false (Some "file") false
              Samples.now_ms Samples.upload_request Samples.full_store))
  = Throw (too_many_requests "Too many requests, please try again later.")
  /\ catch Samples.timestamp
       (too_many_requests "Too many requests, please try again later.")
       Samples.upload_request
     = (429,
        JObj [("error", JStr "Too Many Requests");
              ("message", JStr "Too many requests, please try again later.");
              ("timestamp", JStr Samples.timestamp);
              ("path", JStr "/api/service-c/files")])
  /\ catch Samples.timestamp (RateLimitExceededException None None)
       Samples.upload_request
     = (429,
        JObj [("error", JStr "TooManyRequests");
              ("message", JStr "Too many requests, please try again later.");
              ("errorCode", JStr "ERR_RATE_LIMIT_EXCEEDED");
              ("timestamp", JStr Samples.timestamp);
              ("path", JStr "/api/service-c/files")]).
Proof. vm_compute. repeat split; reflexivity. Qed.

End BlockResponse.

(** ** Bearer-token authentication *)

Section JwtProps.
Import JwtAuthGuard AuthenticationProvider AllExceptionsFilter.

(** [UnauthorizedException] as the client sees it. *)
Lemma catch_Unauthorized (ts msg : string) (request : Request) :
  fst (catch ts (UnauthorizedException msg) request) = 401
  /\ prop (snd (catch ts (UnauthorizedException msg) request)) "error"
     = JStr "Unauthorized".
Proof.
  unfold catch, classify, UnauthorizedException. cbn [fst snd].
  split; [reflexivity|].
  rewrite finish_error. reflexivity.
Qed.

(** Without an entry of the tenant, [find] finds nothing, or fails on a
    [null] entry. *)
Lemma find_access_no_entry (tenantId : string) (userAccess : list JsValue) :
  Forall (fun a => entry_of_tenant tenantId a = false) userAccess ->
  find_access tenantId userAccess = Return None
  \/ exists e, find_access tenantId userAccess = Throw e.
Proof.
  induction 1 as [|a l Ha Hl IH]; simpl; [left; reflexivity|].
  unfold entry_of_tenant in Ha.
  destruct a; try (right; eexists; reflexivity); rewrite Ha; exact IH.
Qed.

(** [find] returns the first entry of the tenant. *)
Lemma find_access_first_entry (tenantId : string)
    (before after : list JsValue) (entry : JsValue) :
  Forall (fun a => is_nullish a = false
                   /\ entry_of_tenant tenantId a = false) before ->
  entry_of_tenant tenantId entry = true ->
  find_access tenantId (before ++ entry :: after) = Return (Some entry).
Proof.
  intros Hbefore Hentry.
  induction Hbefore as [|a l [Hn Ha] Hl IH]; simpl.
  - unfold entry_of_tenant in Hentry.
    destruct entry; simpl in Hentry; try discriminate.
    simpl. simpl in Hentry. rewrite Hentry. reflexivity.
  - unfold entry_of_tenant in Ha.
    destruct a; simpl in Hn; try discriminate; rewrite Ha; exact IH.
Qed.

(** The roles of the principal [authenticate] builds are the ones it
    derived from the entry, whatever the token data holds. *)
Lemma principal_roles (fields : list (string * JsValue))
    (userData : list (string * JsValue)) (roles : JsValue) :
  prop (JObj (obj_assign fields
                (entries_of (set_prop (JObj userData) "roles" roles))))
       "roles" = roles.
Proof.
  rewrite prop_obj_assign. cbn [set_prop entries_of].
  rewrite assoc_get_obj_assign. reflexivity.
Qed.

Variable validate : string -> Result JsValue.
Variable request : Request.
Variable authHeader : string.

(** C8. In bearer mode (an [Authorization] header, no principal set by
    an earlier guard, a route that is neither public nor the health
    endpoint): without the tenant header the request is rejected with
    [UnauthorizedException]; a validated token whose [userAccess] has no
    entry of the requested tenant is rejected with
    [UnauthorizedException] (status 401, kind [Unauthorized], never
    403); and when there is an entry, the principal's roles are
    [['admin']] if the first such entry has type [ADMIN] and [['user']]
    otherwise. *)
Theorem jwt_guard_bearer_mode :
  String.eqb (req_path request) "/health"
    || String.eqb (req_path request) "/api/health" = false ->
  truthy (req_user request) && truthy (prop (req_user request) "roles")
    = false ->
  req_headers request !! "authorization" = Some authHeader ->
  str_truthy authHeader = true ->
  (* no tenant header *)
  (req_headers request !! "tenantid" = None
   \/ req_headers request !! "tenantid" = Some "" ->
   canActivate false validate request
   = (Throw (UnauthorizedException "Missing tenant ID header"), request))
  /\ (forall tenantId userData userAccess,
        req_headers request !! "tenantid" = Some tenantId ->
        str_truthy tenantId = true ->
        validate authHeader = Return userData ->
        prop userData "userAccess" = JArr userAccess ->
        (* no entry of the tenant *)
        (Forall (fun a => entry_of_tenant tenantId a = false) userAccess ->
         canActivate false validate request
         = (Throw (UnauthorizedException "Invalid token"), request)
         /\ getStatus (UnauthorizedException "Invalid token")
            = HttpStatus.UNAUTHORIZED
         /\ forall ts,
              fst (catch ts (UnauthorizedException "Invalid token") request)
              = 401
              /\ prop (snd (catch ts (UnauthorizedException "Invalid token")
                              request)) "error" = JStr "Unauthorized")
        (* a first entry of the tenant *)
        /\ (forall before entry after,
              userAccess = before ++ entry :: after ->
              Forall (fun a => is_nullish a = false
                               /\ entry_of_tenant tenantId a = false) before ->
              entry_of_tenant tenantId entry = true ->
              is_nullish (req_params request) = false ->
              exists user,
                canActivate false validate request
                = (Return true, set_user request user)
                /\ prop user "roles"
                   = if is_str (prop entry "type") "ADMIN"
                     then JArr [JStr "admin"] else JArr [JStr "user"])).
Proof.
  intros Hpath Huser Hauth Htoken.
  assert (Hstart : canActivate false validate request =
            match req_headers request !! "tenantid" with
            | None => (Throw (UnauthorizedException "Missing tenant ID header"),
                       request)
            | Some tenantId =>
                if negb (str_truthy tenantId)
                then (Throw (UnauthorizedException "Missing tenant ID header"),
                      request)
                else
                  match authenticate validate request authHeader tenantId with
                  | inr user => (Return true, set_user request user)
                  | inl _ =>
                      (Throw (UnauthorizedException "Invalid token"), request)
                  end
            end).
  { unfold canActivate. rewrite Hpath, Huser, Hauth, Htoken. reflexivity. }
  rewrite Hstart. clear Hstart. split.
  - intros [Hnone|Hempty]; [rewrite Hnone | rewrite Hempty]; reflexivity.
  - intros tenantId userData userAccess Htenant Htid Hvalid Haccess.
    rewrite Htenant, Htid. cbn [negb].
    unfold authenticate. rewrite Hvalid. unfold Return, Throw.
    cbv beta iota. rewrite Haccess. split.
    + intros Hno. split; [|split].
      * destruct (find_access_no_entry tenantId userAccess Hno)
          as [Hfind|[e Hfind]]; rewrite Hfind; reflexivity.
      * reflexivity.
      * intros ts. apply catch_Unauthorized.
    + intros before entry after Hsplit Hbefore Hentry Hparams.
      subst userAccess.
      rewrite (find_access_first_entry tenantId before after entry
                 Hbefore Hentry).
      unfold Return. cbv beta iota.
      assert (Hname : exists tenantName,
                tenant_name request entry userData = Return tenantName).
      { unfold tenant_name.
        destruct (truthy (prop entry "tenantName")); [eauto|].
        destruct (req_params request); try discriminate Hparams; eauto. }
      destruct Hname as [tenantName Hname]. rewrite Hname.
      unfold Return. cbv beta iota zeta.
      eexists. split; [reflexivity|].
      destruct userData as [| | | | | |fields]; try discriminate Haccess.
      apply principal_roles.
Qed.

End JwtProps.

(** The witness: a token of a user with an [ADMIN] entry for tenant
    [t1], on a request for [t1]. *)
Lemma jwt_guard_bearer_mode_witness :
  exists user,
    JwtAuthGuard.canActivate false (AuthenticationProvider.validateToken Samples.introspect) Samples.items_request
    = (Return true, set_user Samples.items_request user)
    /\ prop user "roles" = JArr [JStr "admin"].
Proof.
  destruct (jwt_guard_bearer_mode (AuthenticationProvider.validateToken Samples.introspect)
              Samples.items_request "Bearer abc"
              eq_refl eq_refl eq_refl eq_refl) as [_ Hbearer].
  destruct (Hbearer "t1"
              (set_prop Samples.user_data "roles" (JArr []))
              [JObj [("tenantId", JStr "t0"); ("type", JStr "USER")];
               JObj [("tenantId", JStr "t1"); ("type", JStr "ADMIN");
                     ("tenantName", JStr "Tenant One")]]
              eq_refl eq_refl eq_refl eq_refl) as [_ Hentry].
  destruct (Hentry
              [JObj [("tenantId", JStr "t0"); ("type", JStr "USER")]]
              (JObj [("tenantId", JStr "t1"); ("type", JStr "ADMIN");
                     ("tenantName", JStr "Tenant One")])
              [] eq_refl) as (user & Hok & Hroles).
  - constructor; [split; reflexivity | constructor].
  - reflexivity.
  - reflexivity.
  - exists user. split; [exact Hok | exact Hroles].
Defined.


(** ** Upload size limit *)

Section UploadProps.
Import ServiceCController AllExceptionsFilter.

(** [FileTooLargeException] as the client sees it: the 413 envelope of
    the filter replaces the exception's own kind and code. *)
Lemma catch_FileTooLarge (ts : string) (request : Request) :
  let '(status, body) := catch ts FileTooLargeException request in
  status = 413
  /\ prop body "error" = JStr "PayloadTooLarge"
  /\ prop body "message" = JStr "File size exceeds the limit."
  /\ prop body "errorCode" = JStr "ERR_PAYLOAD_TOO_LARGE".
Proof.
  unfold catch, classify, FileTooLargeException.
  split; [reflexivity|].
  unfold finish. cbn [Z.eqb HttpStatus.PAYLOAD_TOO_LARGE Pos.eqb].
  destruct (truthy (header request "x-request-id"));
    rewrite ?prop_obj_assign; repeat split; reflexivity.
Qed.

Variable FileTypeValidator : UploadedFile -> bool.


End UploadProps.



(** ** Sequences of calls *)

Section BreakerRuns.
Import CircuitBreaker.

Lemma step_failure_closed (now later : Z) (e : Exception)
    (b : CircuitBreaker) :
  state b = CLOSED ->
  step b (Failure now later e) = onFailure later e b.
Proof.
  intros Hs. unfold step, execute.
  rewrite (checkState_not_open now b) by (rewrite Hs; discriminate).
  reflexivity.
Qed.

(** Consecutive failures of a closed breaker are counted one by one
    while the count stays below the threshold. *)
Lemma failures_below_threshold (now later : Z) (e : Exception) (k : nat)
    (b : CircuitBreaker) :
  state b = CLOSED ->
  failureCount b + Z.of_nat k < failureThreshold (options b) ->
  state (run b (repeat (Failure now later e) k)) = CLOSED
  /\ failureCount (run b (repeat (Failure now later e) k))
     = failureCount b + Z.of_nat k
  /\ options (run b (repeat (Failure now later e) k)) = options b.
Proof.
  revert b. induction k as [|k IH]; intros b Hs Hlt.
  - simpl. repeat split; auto. lia.
  - cbn [repeat run fold_left]. fold (run (step b (Failure now later e))
                                        (repeat (Failure now later e) k)).
    rewrite step_failure_closed by exact Hs.
    destruct (onFailure_closed later e b Hs) as (_ & Hclosed & Hcount).
    assert (Hopt : options (onFailure later e b) = options b).
    { rewrite <- (step_failure_closed now later e b Hs). apply options_step. }
    destruct (IH (onFailure later e b)) as (H1 & H2 & H3).
    + apply Hclosed. lia.
    + rewrite Hcount, Hopt. lia.
    + rewrite H1, H2, H3, Hcount, Hopt. repeat split; auto. lia.
Qed.

(** A fresh breaker with threshold [n] opens at the [n]-th consecutive
    failure, and not before. *)
Lemma trips_at_threshold (now later : Z) (e : Exception) (name : string)
    (o : option PartialOptions) (n : nat) :
  failureThreshold (options (new_breaker name o)) = Z.of_nat (S n) ->
  state (run (new_breaker name o) (repeat (Failure now later e) n)) = CLOSED
  /\ state (run (new_breaker name o) (repeat (Failure now later e) (S n)))
     = OPEN.
Proof.
  intros Hth.
  destruct (failures_below_threshold now later e n (new_breaker name o)
              eq_refl) as (Hs & Hc & Ho).
  { rewrite Hth. cbn [failureCount new_breaker]. lia. }
  split; [exact Hs|].
  replace (S n) with (n + 1)%nat by lia.
  rewrite repeat_app. unfold run in *. rewrite fold_left_app.
  cbn [repeat fold_left].
  rewrite step_failure_closed by exact Hs.
  destruct (onFailure_closed later e _ Hs) as (Hopen & _ & _).
  apply Hopen. rewrite Ho, Hc, Hth. cbn [failureCount new_breaker]. lia.
Qed.

(** The breaker of the end-to-end scenarios: three failures open it, a
    call within the reset timeout is rejected, and after the timeout two
    successes close it. *)
Lemma half_open_recovery (e : Exception) :
  let opened :=
    run (new_breaker "service-b" None)
      [Failure 1000 1010 e; Failure 2000 2010 e; Failure 3000 3010 e] in
  state opened = OPEN
  /\ nextAttempt opened = 33010
  /\ step opened (Success 20000) = opened
  /\ state (step opened (Success 33010)) = HALF_OPEN
  /\ state (run opened [Success 33010; Success 34000]) = CLOSED
  /\ state (run opened [Success 33010; Failure 34000 34010 e]) = OPEN.
Proof. cbv zeta. repeat split; reflexivity. Qed.

End BreakerRuns.

(** ** The limit under a failing store *)

(** C6, as the claim has it, fails: with [THROTTLE_LIMIT=-1] every
    request is over the limit, a request counted as 0 by a failing
    store included, so the decision under the outage is [limited =
    true]. *)
Lemma negative_limit_blocks :
  fst (incrBy
         (ThrottlerService.generateKey Samples.negative_cfg Samples.now_ms
            "10.0.0.1" "PATCH" None (Some 60))
         1 Samples.down_store) = inl connection_error
  /\ option_map
       (fun res => (ThrottlerService.limited res,
                    ThrottlerService.limit res,
                    ThrottlerService.remaining res))
       (match fst (ThrottlerService.checkRateLimit Samples.negative_cfg
                     Samples.now_ms "10.0.0.1" "PATCH" None Samples.down_store)
        with
        | inr res => Some res
        | inl _ => None
        end) = Some (true, -1, 0).
Proof. split; vm_compute; reflexivity. Qed.

(* ===================================================================== *)
(** * Further properties *)
(* ===================================================================== *)

(** ** The two tables of error kinds *)

(** X22. [ErrorUtils.getErrorTypeFromStatus] and the filter's table of
    the same name give the same kind for every status but 413, which
    only the filter's table knows. *)
Theorem error_type_tables_agree (status : Z) :
  (status <> HttpStatus.PAYLOAD_TOO_LARGE ->
   ErrorUtils.getErrorTypeFromStatus status
   = AllExceptionsFilter.getErrorTypeFromStatus status)
  /\ ErrorUtils.getErrorTypeFromStatus HttpStatus.PAYLOAD_TOO_LARGE
     = "InternalServerError"
  /\ AllExceptionsFilter.getErrorTypeFromStatus HttpStatus.PAYLOAD_TOO_LARGE
     = "PayloadTooLarge".
Proof.
  split; [|split; reflexivity].
  intros Hst. unfold ErrorUtils.getErrorTypeFromStatus,
    AllExceptionsFilter.getErrorTypeFromStatus.
  repeat match goal with
         | |- context [if ?c then _ else _] =>
             let E := fresh "E" in
             destruct c eqn:E; [try reflexivity|]
         end; try reflexivity;
  match goal with
  | E : (status =? HttpStatus.PAYLOAD_TOO_LARGE) = true |- _ =>
      apply Z.eqb_eq in E; contradiction
  end.
Qed.

(** ** The limit a route is checked against *)

Section LimitProps.
Import ThrottlerService.
Variable cfg : Config.

Lemma resolve_rule_limit (method : string) (resource : option string) :
  fst (resolve_rule cfg method resource) = getLimit cfg method resource.
Proof.
  unfold resolve_rule, getLimit.
  destruct (method_resource method resource) as [k|].
  - destruct (lookup_truthy (limitMap cfg) k) as [l|]; cbn [option_map fst];
      [reflexivity|].
    destruct (lookup_truthy (limitMap cfg) method); reflexivity.
  - destruct (lookup_truthy (limitMap cfg) method); reflexivity.
Qed.

(** X1. The limit of every decision of [checkRateLimit], which is the
    one the request is held against and the one sent as
    [X-RateLimit-Limit], is what [getLimit] answers for the route. *)
Theorem getLimit_is_enforced_limit {R : Type} `{RedisClient R}
    (now : Z) (key method : string) (resource : option string) (r : R) :
  exists res r',
    checkRateLimit cfg now key method resource r = (Return res, r')
    /\ limit res = getLimit cfg method resource
    /\ limited res = (getLimit cfg method resource <? current res).
Proof.
  pose proof (resolve_rule_limit method resource) as Hlim.
  unfold checkRateLimit.
  destruct (resolve_rule cfg method resource) as [lim ttl].
  cbn [fst] in Hlim. subst lim.
  destruct (incrementByThrottler_returns
              (generateKey cfg now key method resource (Some ttl)) 1
              (Some ttl) r) as (value & r' & Hinc).
  rewrite Hinc. eexists. exists r'. split; [reflexivity|].
  split; reflexivity.
Qed.

End LimitProps.

(** ** The window a route is checked in *)

Section WindowProps.
Import ThrottlerService Shape.

(** A table built from a list answers like the list. *)
Lemma lookup_list_to_map_assoc {A} (l : list (string * A)) (k : string) :
  (list_to_map l : gmap string A) !! k = assoc_get k l.
Proof.
  induction l as [|[k' v] l IH]; [reflexivity|].
  cbn [list_to_map foldr assoc_get]. unfold curry. cbn [fst snd].
  destruct (String.eqb_spec k k') as [->|Hne].
  - apply lookup_insert_eq.
  - rewrite lookup_insert_ne by congruence. exact IH.
Qed.

Lemma free_of_app (p : ascii -> bool) (a b : string) :
  free_of p (a +:+ b) = free_of p a && free_of p b.
Proof.
  induction a as [|c a IH]; [reflexivity|].
  simpl. rewrite IH. apply andb_assoc.
Qed.

Variable cfg : Config.

(** Cases on the key a table is asked for. *)
(** Comparisons of two literal keys. *)
Ltac eval_eqb :=
  repeat match goal with
         | |- context [String.eqb ?a ?b] =>
             let v := eval vm_compute in (String.eqb a b) in
             change (String.eqb a b) with v
         end;
  cbv beta iota.

Ltac split_key k :=
  repeat match goal with
         | |- context [String.eqb k ?c] =>
             let E := fresh "E" in
             destruct (String.eqb k c) eqn:E;
             [apply String.eqb_eq in E; subst k|]
         end.

Lemma ttl_of_limited_key (k : string) (l : Z) :
  free_of ThrottlerGuard.is_colon k = false ->
  lookup_truthy (limitMap cfg) k = Some l ->
  lookup_truthy (ttlMap cfg) k
  = if defaultTtl cfg =? 0 then None else Some (defaultTtl cfg).
Proof.
  intros Hk. unfold lookup_truthy, limitMap, ttlMap.
  rewrite !lookup_list_to_map_assoc. cbn [assoc_get].
  split_key k; try discriminate; try reflexivity.
Qed.

Lemma ttl_of_unlimited_key (k : string) :
  free_of ThrottlerGuard.is_colon k = false ->
  k <> "POST:sync" ->
  lookup_truthy (limitMap cfg) k = None ->
  lookup_truthy (ttlMap cfg) k = None.
Proof.
  intros Hk Hsync. unfold lookup_truthy, limitMap, ttlMap.
  rewrite !lookup_list_to_map_assoc. cbn [assoc_get].
  split_key k; try discriminate; try reflexivity; try congruence.
Qed.

Lemma ttl_of_unlimited_method (method : string) :
  free_of ThrottlerGuard.is_colon method = true ->
  lookup_truthy (limitMap cfg) method = None ->
  default (defaultTtl cfg) (lookup_truthy (ttlMap cfg) method)
  = defaultTtl cfg.
Proof.
  intros Hm. unfold lookup_truthy, limitMap, ttlMap.
  rewrite !lookup_list_to_map_assoc. cbn [assoc_get].
  split_key method; try discriminate; try reflexivity;
    cbv beta iota delta [String.eqb Ascii.eqb Bool.eqb andb];
    destruct (defaultTtl cfg =? 0) eqn:Ed; destruct (defaultLimit cfg =? 0);
    try discriminate; cbn [default]; reflexivity.
Qed.

Lemma ttl_zero (k : string) :
  defaultTtl cfg = 0 ->
  default (defaultTtl cfg) (lookup_truthy (ttlMap cfg) k) = defaultTtl cfg.
Proof.
  intros Hd. unfold lookup_truthy.
  destruct (ttlMap cfg !! k) as [v|] eqn:Hk; [|reflexivity].
  destruct (Z.eqb_spec v 0) as [|Hv]; [reflexivity|].
  exfalso. apply Hv. unfold ttlMap in Hk.
  apply elem_of_list_to_map_2 in Hk.
  repeat match goal with
         | H : _ ∈ _ :: _ |- _ => apply elem_of_cons in H; destruct H as [H|H]
         | H : _ ∈ [] |- _ => apply elem_of_nil in H; contradiction
         | H : (_, _) = (_, _) |- _ => inversion H; subst; clear H
         end; lia.
Qed.

Lemma resolve_rule_window (method : string) (resource : option string) :
  free_of ThrottlerGuard.is_colon method = true ->
  method_resource method resource <> Some "POST:sync" ->
  snd (resolve_rule cfg method resource) = getTtl cfg method resource.
Proof.
  intros Hm Hsync.
  assert (Hmethod :
    snd (match lookup_truthy (limitMap cfg) method with
         | Some l => (l, default (defaultTtl cfg)
                           (lookup_truthy (ttlMap cfg) method))
         | None => (defaultLimit cfg, defaultTtl cfg)
         end)
    = default (defaultTtl cfg) (lookup_truthy (ttlMap cfg) method)).
  { destruct (lookup_truthy (limitMap cfg) method) eqn:Hl; cbn [snd];
      [reflexivity|].
    symmetry. exact (ttl_of_unlimited_method method Hm Hl). }
  unfold resolve_rule, getTtl.
  destruct (method_resource method resource) as [k|] eqn:Hk;
    [|exact Hmethod].
  assert (Hcolon : free_of ThrottlerGuard.is_colon k = false).
  { unfold method_resource in Hk.
    destruct resource as [res|]; [|discriminate].
    destruct (str_truthy res); [|discriminate].
    inversion Hk. rewrite !free_of_app. cbn. rewrite andb_false_r.
    reflexivity. }
  destruct (lookup_truthy (limitMap cfg) k) as [l|] eqn:Hl;
    cbn [option_map].
  - rewrite (ttl_of_limited_key k l Hcolon Hl). cbn [snd].
    destruct (Z.eqb_spec (defaultTtl cfg) 0) as [Hz|Hnz]; cbn [default].
    + symmetry. exact (ttl_zero method Hz).
    + reflexivity.
  - rewrite (ttl_of_unlimited_key k Hcolon) by congruence. exact Hmethod.
Qed.

(** X2. The window of a check, which [X-RateLimit-Reset] reports as
    [ceil(now / 1000) + ttl], is what [getTtl] answers for the route,
    for every method (a token without colon) and resource other than
    [POST] on [sync]: that pair has a window in [ttlMap] but no limit in
    [limitMap], so the check runs in the default window while [getTtl]
    answers twice the default. *)
Theorem getTtl_is_window_except_sync {R : Type} `{RedisClient R}
    (now : Z) (key method : string) (resource : option string) (r : R) :
  (free_of ThrottlerGuard.is_colon method = true ->
   method_resource method resource <> Some "POST:sync" ->
   exists res r',
     checkRateLimit cfg now key method resource r = (Return res, r')
     /\ resetTime res = ceil_seconds now + getTtl cfg method resource)
  /\ (defaultTtl cfg <> 0 ->
      getTtl cfg "POST" (Some "sync") = defaultTtl cfg * 2
      /\ exists res r',
           checkRateLimit cfg now key "POST" (Some "sync") r = (Return res, r')
           /\ resetTime res = ceil_seconds now + defaultTtl cfg).
Proof.
  split.
  - intros Hm Hsync.
    pose proof (resolve_rule_window method resource Hm Hsync) as Hw.
    unfold checkRateLimit.
    destruct (resolve_rule cfg method resource) as [lim ttl].
    cbn [snd] in Hw. subst ttl.
    destruct (incrementByThrottler_returns
                (generateKey cfg now key method resource
                   (Some (getTtl cfg method resource))) 1
                (Some (getTtl cfg method resource)) r) as (value & r' & Hinc).
    rewrite Hinc. eexists. exists r'. split; reflexivity.
  - intros Hd.
    assert (Hget : getTtl cfg "POST" (Some "sync") = defaultTtl cfg * 2).
    { unfold getTtl.
      change (method_resource "POST" (Some "sync")) with (Some "POST:sync").
      unfold lookup_truthy, ttlMap. rewrite !lookup_list_to_map_assoc.
      cbn [assoc_get]. eval_eqb.
      destruct (Z.eqb_spec (defaultTtl cfg * 2) 0); [lia | reflexivity]. }
    split; [exact Hget|].
    assert (Hres : resolve_rule cfg "POST" (Some "sync")
                   = (defaultLimit cfg, defaultTtl cfg)).
    { unfold resolve_rule.
      change (method_resource "POST" (Some "sync")) with (Some "POST:sync").
      unfold lookup_truthy, limitMap. rewrite !lookup_list_to_map_assoc.
      cbn [assoc_get]. eval_eqb. reflexivity. }
    unfold checkRateLimit. rewrite Hres.
    destruct (incrementByThrottler_returns
                (generateKey cfg now key "POST" (Some "sync")
                   (Some (defaultTtl cfg))) 1
                (Some (defaultTtl cfg)) r) as (value & r' & Hinc).
    rewrite Hinc. eexists. exists r'. split; reflexivity.
Qed.

End WindowProps.

(** ** Requests of one window *)

Section WindowCounting.
Import ThrottlerService ThrottlerRuns.
Variable cfg : Config.

(** Times of one window share the key of the counter. *)
Lemma generateKey_same_window (key method : string)
    (resource : option string) (ttl t0 now : Z) :
  ttl <> 0 ->
  now / (ttl * 1000) = t0 / (ttl * 1000) ->
  generateKey cfg now key method resource (Some ttl)
  = generateKey cfg t0 key method resource (Some ttl).
Proof.
  intros Httl Hq. unfold generateKey, period_string.
  destruct (Z.eqb_spec ttl 0) as [|_]; [contradiction|].
  destruct (Z.eqb_spec (ttl * 1000) 0) as [|_]; [lia|].
  rewrite Hq. reflexivity.
Qed.

(** One check against a store that is up: the counter of the window
    goes up by one and the decision reports it; the TTL is set by the
    check that creates the counter, and by no other. *)
Lemma checkRateLimit_counts (now : Z) (key method : string)
    (resource : option string) (r : MemRedis) :
  healthy_ops r = None ->
  let rule := resolve_rule cfg method resource in
  let K := generateKey cfg now key method resource (Some (snd rule)) in
  let value := default 0 (counters r !! K) + 1 in
  exists res r',
    checkRateLimit cfg now key method resource r = (Return res, r')
    /\ current res = value
    /\ limit res = fst rule
    /\ limited res = (fst rule <? value)
    /\ healthy_ops r' = None
    /\ counters r' = <[K := value]> (counters r)
    /\ expiries r' = if negb (snd rule =? 0) && (value =? 1)
                     then <[K := snd rule]> (expiries r)
                     else expiries r.
Proof.
  intros Hup rule K value. unfold checkRateLimit. fold rule.
  destruct rule as [lim ttl] eqn:Hrule. cbn [fst snd] in *. fold K.
  unfold incrementByThrottler. cbn [incrBy expire MemRedis_client].
  unfold mem_incrBy, tick. rewrite Hup. cbn [counters expiries healthy_ops].
  fold value.
  destruct (negb (ttl =? 0) && (value =? 1)) eqn:Hfirst.
  - unfold mem_expire, tick. cbn [counters expiries healthy_ops].
    rewrite !Hup. cbn [counters expiries healthy_ops].
    rewrite lookup_insert_eq.
    eexists. eexists. split; [reflexivity|]. cbn.
    repeat split; try reflexivity.
  - eexists. eexists. split; [reflexivity|]. cbn.
    repeat split; try reflexivity. exact Hup.
Qed.

Lemma seq_from_two (A : Type) (f : nat -> A) (n : nat) :
  map f (seq 2 n) = map (fun i => f (S i)) (seq 1 n).
Proof. rewrite <- seq_shift, map_map. reflexivity. Qed.

(** Consecutive checks in one window, from a counter at [c]. *)
Lemma run_checks_from (key method : string) (resource : option string)
    (t0 : Z) (nows : list Z) (r : MemRedis) :
  let rule := resolve_rule cfg method resource in
  let K := generateKey cfg t0 key method resource (Some (snd rule)) in
  let c := default 0 (counters r !! K) in
  healthy_ops r = None ->
  Forall (fun now =>
            generateKey cfg now key method resource (Some (snd rule)) = K)
    nows ->
  let results := fst (run_checks cfg key method resource nows r) in
  let r' := snd (run_checks cfg key method resource nows r) in
  map current results
  = map (fun i => c + Z.of_nat i) (seq 1 (length nows))
  /\ map limited results
     = map (fun i => fst rule <? c + Z.of_nat i) (seq 1 (length nows))
  /\ Forall (fun res => limit res = fst rule) results
  /\ healthy_ops r' = None
  /\ default 0 (counters r' !! K) = c + Z.of_nat (length nows)
  /\ (1 <= c -> expiries r' !! K = expiries r !! K).
Proof.
  intros rule K. revert r.
  induction nows as [|now rest IH]; intros r c Hup Hkeys results r'.
  - subst results r'. cbn. repeat split; auto. lia.
  - inversion Hkeys as [|? ? Hnow Hrest]; subst.
    destruct (checkRateLimit_counts now key method resource r Hup)
      as (res & r1 & Hck & Hcur & Hlim & Hlimited & Hup1 & Hcnt & Hexp).
    fold rule in Hcur, Hlim, Hlimited, Hcnt, Hexp.
    rewrite Hnow in Hcur, Hlimited, Hcnt, Hexp. fold K in Hcur, Hlimited, Hcnt, Hexp.
    fold c in Hcur, Hlimited, Hcnt, Hexp.
    specialize (IH r1 Hup1 Hrest).
    assert (Hc1 : default 0 (counters r1 !! K) = c + 1).
    { rewrite Hcnt, lookup_insert_eq. reflexivity. }
    rewrite Hc1 in IH.
    subst results r'. cbn [run_checks]. rewrite Hck. unfold Return.
    destruct (run_checks cfg key method resource rest r1) as [results r2].
    cbn [fst snd] in *.
    destruct IH as (IHcur & IHlim & IHlimit & IHup & IHcnt & IHexp).
    cbn [length seq map]. rewrite !seq_from_two.
    repeat split.
    + rewrite Hcur, IHcur. f_equal. apply map_ext. intros i. lia.
    + rewrite Hlimited, IHlim. f_equal. apply map_ext. intros i.
      f_equal. lia.
    + constructor; assumption.
    + exact IHup.
    + rewrite IHcnt. lia.
    + intros Hc. rewrite IHexp by lia. rewrite Hexp.
      replace (c + 1 =? 1) with false by (symmetry; apply Z.eqb_neq; lia).
      rewrite andb_false_r. reflexivity.
Qed.

Lemma count_passing (lim : Z) (n : nat) :
  length (List.filter (fun i => negb (lim <? Z.of_nat i)) (seq 1 n))
  = Z.to_nat (Z.min (Z.of_nat n) lim).
Proof.
  induction n as [|n IH]; [cbn; destruct lim; reflexivity || lia|].
  rewrite seq_S, List.filter_app, length_app, IH. cbn [List.filter].
  replace (1 + n)%nat with (S n) by lia.
  destruct (Z.ltb_spec lim (Z.of_nat (S n))); cbn [negb length]; lia.
Qed.

Lemma count_by_map {A B : Type} (f : A -> bool) (g : B -> bool)
    (l1 : list A) (l2 : list B) :
  map f l1 = map g l2 ->
  length (List.filter (fun x => negb (f x)) l1)
  = length (List.filter (fun y => negb (g y)) l2).
Proof.
  revert l2. induction l1 as [|x l1 IH]; intros [|y l2] Hmap;
    try discriminate; [reflexivity|].
  cbn in Hmap. inversion Hmap as [[Hxy Hrest]].
  cbn [List.filter]. rewrite Hxy.
  destruct (g y); cbn [negb length]; rewrite (IH l2 Hrest); reflexivity.
Qed.


End WindowCounting.


(** ** The identifier of a client *)

Section IdentifierShape.
Import ThrottlerGuard Shape.

Lemma collapse_colons_head (s : string) :
  starts_with_colon (collapse_colons s) = starts_with_colon s.
Proof.
  induction s as [|c r IH]; [reflexivity|].
  cbn [collapse_colons]. destruct (is_colon c) eqn:Hc.
  - destruct r as [|c' r']; [reflexivity|].
    destruct (is_colon c') eqn:Hc'.
    + rewrite IH. cbn. rewrite Hc, Hc'. reflexivity.
    + reflexivity.
  - reflexivity.
Qed.

Lemma collapse_colons_no_double (s : string) :
  has_double_colon (collapse_colons s) = false.
Proof.
  induction s as [|c r IH]; [reflexivity|].
  cbn [collapse_colons]. destruct (is_colon c) eqn:Hc.
  - destruct r as [|c' r']; [cbn; rewrite Hc; reflexivity|].
    destruct (is_colon c') eqn:Hc'; [exact IH|].
    cbn [has_double_colon]. rewrite IH, collapse_colons_head. cbn.
    rewrite Hc'. rewrite andb_false_r. reflexivity.
  - cbn [has_double_colon]. rewrite Hc, IH. reflexivity.
Qed.

Lemma strip_leading_colon_shape (s : string) :
  has_double_colon s = false ->
  has_double_colon (strip_leading_colon s) = false
  /\ starts_with_colon (strip_leading_colon s) = false.
Proof.
  destruct s as [|c r]; [auto|]. cbn [strip_leading_colon has_double_colon].
  intros Hd. apply orb_false_elim in Hd as [Hhead Hrest].
  destruct (is_colon c) eqn:Hc.
  - split; [exact Hrest|]. exact Hhead.
  - split; [|exact Hc]. cbn. rewrite Hc, Hrest. reflexivity.
Qed.

Lemma strip_trailing_colon_head (s : string) :
  has_double_colon s = false ->
  starts_with_colon s = false ->
  starts_with_colon (strip_trailing_colon s) = false.
Proof.
  destruct s as [|c r]; [auto|]. cbn [strip_trailing_colon starts_with_colon].
  intros _ Hc. destruct r; [rewrite Hc; cbn; exact Hc|]. cbn. exact Hc.
Qed.

Lemma strip_trailing_colon_head_inv (s : string) :
  starts_with_colon (strip_trailing_colon s) = true ->
  starts_with_colon s = true.
Proof.
  destruct s as [|c r]; [auto|]. cbn [strip_trailing_colon].
  destruct r; [|auto]. destruct (is_colon c) eqn:Hc; cbn; congruence.
Qed.

Lemma strip_trailing_colon_empty (c : ascii) (r : string) :
  strip_trailing_colon (String c r) = EmptyString -> is_colon c = true.
Proof.
  cbn [strip_trailing_colon]. destruct r; [|discriminate].
  destruct (is_colon c); [reflexivity | discriminate].
Qed.

Lemma strip_trailing_colon_shape (s : string) :
  has_double_colon s = false ->
  has_double_colon (strip_trailing_colon s) = false
  /\ ends_with_colon (strip_trailing_colon s) = false.
Proof.
  induction s as [|c r IH]; [auto|].
  cbn [has_double_colon]. intros Hd.
  apply orb_false_elim in Hd as [Hhead Hrest].
  destruct r as [|c' r'].
  - cbn [strip_trailing_colon].
    destruct (is_colon c) eqn:Hc; [auto|]. cbn. rewrite Hc. auto.
  - destruct (IH Hrest) as [IHd IHe].
    change (strip_trailing_colon (String c (String c' r')))
      with (String c (strip_trailing_colon (String c' r'))).
    cbn [starts_with_colon] in Hhead.
    split.
    + cbn [has_double_colon]. rewrite IHd, orb_false_r.
      destruct (starts_with_colon (strip_trailing_colon (String c' r')))
        eqn:Ht; [|apply andb_false_r].
      apply strip_trailing_colon_head_inv in Ht. cbn in Ht.
      rewrite Ht in Hhead. rewrite andb_true_r in Hhead.
      rewrite Hhead. reflexivity.
    + cbn [ends_with_colon].
      destruct (strip_trailing_colon (String c' r')) as [|ct rt] eqn:Ht;
        [|exact IHe].
      apply strip_trailing_colon_empty in Ht.
      rewrite Ht, andb_true_r in Hhead. exact Hhead.
Qed.

(** X4. The identifier a client is counted under never starts or ends
    with a colon and never contains two colons in a row, whatever the
    API key, user id or address it was built from. *)
Theorem normalize_identifier_shape (identifier : string) :
  starts_with_colon (normalize_identifier identifier) = false
  /\ ends_with_colon (normalize_identifier identifier) = false
  /\ has_double_colon (normalize_identifier identifier) = false.
Proof.
  unfold normalize_identifier.
  match goal with
  | |- context [strip_leading_colon (collapse_colons ?x)] =>
      generalize x
  end.
  intros s.
  pose proof (collapse_colons_no_double s) as Hd.
  destruct (strip_leading_colon_shape _ Hd) as [Hd1 Hh1].
  destruct (strip_trailing_colon_shape _ Hd1) as [Hd2 He2].
  split; [|split]; [|exact He2|exact Hd2].
  apply strip_trailing_colon_head; assumption.
Qed.

End IdentifierShape.

(** ** Permissions *)

Section PermissionProps.
Import AuthPolicy Policy.

Lemma some_allowed_user_admin (roles : list JsValue) :
  existsb (fun x => existsb (fun a => is_str x a) ["user"; "admin"]) roles
  = has_role "user" roles || has_role "admin" roles.
Proof.
  unfold has_role. induction roles as [|x l IH]; [reflexivity|].
  cbn [existsb] in IH |- *. rewrite IH.
  destruct (is_str x "user"), (is_str x "admin"); cbn;
    rewrite ?orb_true_r; reflexivity.
Qed.

Lemma some_allowed_admin (roles : list JsValue) :
  existsb (fun x => existsb (fun a => is_str x a) ["admin"]) roles
  = has_role "admin" roles.
Proof.
  unfold has_role. induction roles as [|x l IH]; [reflexivity|].
  cbn [existsb] in IH |- *. rewrite IH, orb_false_r. reflexivity.
Qed.

(** The names of the inherited functions hold no role [user]. *)
Lemma inherited_name_without_user (resource name : string) :
  inherited_function_name resource = Some name ->
  includes name "user" = false.
Proof.
  unfold inherited_function_name.
  destruct (String.eqb resource "constructor");
    [intros [= <-]; reflexivity|].
  cbn [existsb].
  repeat match goal with
         | |- context [String.eqb resource ?c] =>
             destruct (String.eqb_spec resource c) as [->|];
             [intros [= <-]; reflexivity|]
         end.
  discriminate.
Qed.

Lemma inherited_name_not_own (resource name : string) :
  inherited_function_name resource = Some name ->
  assoc_get resource permissionMap = None.
Proof.
  unfold inherited_function_name.
  destruct (String.eqb_spec resource "constructor") as [->|];
    [reflexivity|].
  cbn [existsb].
  repeat match goal with
         | |- context [String.eqb resource ?c] =>
             destruct (String.eqb_spec resource c) as [->|];
             [reflexivity|]
         end.
  discriminate.
Qed.

(** What the role [user] alone may do. *)
Lemma validatePermissions_user (resource action : string) :
  validatePermissions resource action (JArr [JStr "user"])
  = granted_to_user resource action.
Proof.
  destruct (inherited_function_name resource) as [name|] eqn:Hin.
  - unfold validatePermissions, js_includes, js_some_contained, Return.
    cbn [existsb is_str]. change (String.eqb "user" "admin") with false.
    cbn [orb]. rewrite (inherited_name_not_own _ _ Hin), Hin.
    cbn [ThrottlerGuard.template]. rewrite (inherited_name_without_user _ _ Hin).
    cbn [orb].
    assert (Hnot : granted_to_user resource action = false).
    { pose proof (inherited_name_not_own _ _ Hin) as Hown.
      unfold granted_to_user, user_grants. cbn [existsb fst snd].
      unfold permissionMap in Hown. cbn [assoc_get] in Hown.
      repeat match type of Hown with
             | context [String.eqb resource ?c] =>
                 destruct (String.eqb resource c); [discriminate|]
             end.
      reflexivity. }
    rewrite Hnot. destruct (String.eqb action "name"); reflexivity.
  - unfold validatePermissions, js_includes, js_some_allowed, Return.
    rewrite Hin.
    cbn [existsb is_str]. change (String.eqb "user" "admin") with false.
    cbn [orb]. unfold permissionMap, granted_to_user, user_grants.
    cbn [assoc_get existsb fst snd].
    repeat match goal with
           | |- context [String.eqb resource ?c] =>
               destruct (String.eqb resource c) eqn:?
           end;
    cbn [andb orb assoc_get];
    repeat match goal with
           | |- context [String.eqb action ?c] =>
               destruct (String.eqb action c) eqn:?
           end;
    cbn [andb orb existsb is_str];
    try reflexivity;
    repeat match goal with
           | H : String.eqb _ _ = true |- _ => apply String.eqb_eq in H; subst
           end; try discriminate.
Qed.

(** X5. The permission check on a list of roles, for a resource that
    is not the name of a function every object inherits: [admin] may do
    everything, on every resource, known or not; without [admin], only
    the role [user] is granted anything, namely reading a user, a
    product, an order or a report and creating an order; no roles, no
    permission. *)
Theorem validatePermissions_policy (resource action : string)
    (roles : list JsValue) :
  inherited_function_name resource = None ->
  validatePermissions resource action (JArr roles)
  = has_role "admin" roles
    || (has_role "user" roles && granted_to_user resource action).
Proof.
  intros Hin.
  unfold validatePermissions, js_includes, js_some_allowed, Return.
  rewrite Hin. clear Hin.
  fold (has_role "admin" roles).
  destruct (has_role "admin" roles) eqn:Hadmin; [reflexivity|].
  cbn [orb]. unfold permissionMap, granted_to_user, user_grants.
  cbn [assoc_get existsb fst snd].
  repeat match goal with
         | |- context [String.eqb resource ?c] =>
             destruct (String.eqb resource c) eqn:?
         end;
  cbn [andb orb assoc_get];
  repeat match goal with
         | |- context [String.eqb action ?c] =>
             destruct (String.eqb action c) eqn:?
         end;
  cbn [andb orb];
  rewrite ?some_allowed_user_admin, ?some_allowed_admin, ?Hadmin,
    ?orb_false_r, ?andb_true_r, ?andb_false_r;
  try reflexivity;
  repeat match goal with
         | H : String.eqb _ _ = true |- _ => apply String.eqb_eq in H; subst
         end; try discriminate.
Qed.

End PermissionProps.

Lemma validatePermissions_policy_witness :
  AuthPolicy.validatePermissions "order" "create"
    (JArr [JStr "viewer"; JStr "user"])
  = Policy.has_role "admin" [JStr "viewer"; JStr "user"]
    || (Policy.has_role "user" [JStr "viewer"; JStr "user"]
        && Policy.granted_to_user "order" "create").
Proof.
  apply (validatePermissions_policy "order" "create"
           [JStr "viewer"; JStr "user"]).
  reflexivity.
Defined.

(** ** The authentication guards *)

Section GuardProps.
Import AuthPolicy Policy.

Lemma validatePermissions_nil (resource action : string) :
  validatePermissions resource action (JArr []) = false.
Proof.
  unfold validatePermissions, js_includes, js_some_allowed,
    js_some_contained, Return.
  cbn [existsb].
  destruct (assoc_get resource permissionMap) as [actions|].
  - destruct (assoc_get action actions); reflexivity.
  - destruct (inherited_function_name resource); [|reflexivity].
    destruct (String.eqb action "name"); reflexivity.
Qed.

Lemma validatePermissions_admin (resource action : string) :
  validatePermissions resource action (JArr [JStr "admin"]) = true.
Proof. reflexivity. Qed.

Lemma some_role_nil (requiredRoles : list string) :
  RolesGuard.some_role (JArr []) requiredRoles = Return false.
Proof.
  induction requiredRoles as [|role rest IH]; [reflexivity|].
  cbn [RolesGuard.some_role js_includes existsb]. unfold Return at 1.
  exact IH.
Qed.

(** X6. On a route that requires roles, a principal without roles is
    never admitted by the roles guard: whatever [request.user] is, when
    its [roles] are missing or empty the guard answers [false] or throws
    (403 when the user is missing or lacks the permission). *)
Theorem roles_guard_needs_roles (role : string) (rest : list string)
    (resource action : option string) (request : Request) :
  truthy (prop (req_user request) "roles") = false
  \/ prop (req_user request) "roles" = JArr [] ->
  fst (RolesGuard.canActivate false (Some (role :: rest)) resource action
         request) <> Return true.
Proof.
  intros Hroles. unfold RolesGuard.canActivate.
  destruct (negb (truthy (req_user request))) eqn:Huser;
    [cbn; discriminate|].
  assert (Hdeny : forall user,
            js_or (prop user "roles") (JArr []) = JArr [] ->
            fst (match RolesGuard.some_role
                         (js_or (prop user "roles") (JArr [])) (role :: rest)
                 with
                 | inl e => (Throw e, set_user request user)
                 | inr true => (Return true, set_user request user)
                 | inr false =>
                     match resource, action with
                     | Some res, Some act =>
                         if str_truthy res && str_truthy act then
                           if validatePermissions res act
                                (js_or (prop user "roles") (JArr []))
                           then (Return true, set_user request user)
                           else (Throw (RolesGuard.NestForbiddenException
                                          ("You don't have permission to "
                                             +:+ act +:+ " this " +:+ res)),
                                 set_user request user)
                         else (Return false, set_user request user)
                     | _, _ => (Return false, set_user request user)
                     end
                 end) <> Return true).
  { intros user ->. rewrite some_role_nil. unfold Return at 1.
    destruct resource as [res|], action as [act|]; try (cbn; discriminate).
    destruct (str_truthy res && str_truthy act); [|cbn; discriminate].
    rewrite validatePermissions_nil. cbn. discriminate. }
  destruct (req_user request) as [| |b|n|s|l|fields] eqn:Euser;
    try (cbn; discriminate).
  - (* an array: no named property *)
    apply Hdeny. reflexivity.
  - destruct Hroles as [Hfalsy|Hempty].
    + rewrite Hfalsy. apply Hdeny.
      unfold set_prop, prop. rewrite assoc_get_obj_assign.
      cbn [assoc_get]. rewrite String.eqb_refl. reflexivity.
    + rewrite Hempty. cbn [truthy]. apply Hdeny. rewrite Hempty. reflexivity.
Qed.

End GuardProps.

Lemma roles_guard_needs_roles_witness :
  fst (RolesGuard.canActivate false (Some ["manager"]) (Some "user")
         (Some "read")
         (set_user (Samples.request "GET" "/api/service-a/items" [])
            (JObj [("id", JStr "u1")]))) <> Return true.
Proof.
  apply (roles_guard_needs_roles "manager" [] (Some "user") (Some "read")).
  left. reflexivity.
Defined.

(** ** The guards in sequence *)

Section GuardChain.
Import AuthPolicy Policy CoreModule.

Variable apiKeys : list string.
Variables (requiredRoles : option (list string)).
Variable now : Z.

(** Without a valid key the API-key guard leaves the request as it
    found it. *)
Lemma api_key_guard_without_key (resource action : option string)
    (request : Request) :
  presents_valid_key apiKeys request = false ->
  exists verdict stored,
    ApiKeyAuthGuard.canActivate false apiKeys resource action now request
    = (verdict, request, stored).
Proof.
  intros Hkey. unfold ApiKeyAuthGuard.canActivate.
  destruct (String.eqb (req_path request) "/health"
            || String.eqb (req_path request) "/api/health"
            || ApiKeyAuthGuard.endsWith (req_path request) "/health");
    [eauto|].
  cbv zeta.
  destruct (truthy (header request "authorization")
            && negb (truthy (header request "x-api-key"))); [eauto|].
  destruct (negb (truthy (header request "x-api-key"))) eqn:Hpresent;
    [eauto|].
  destruct (negb (validateApiKey apiKeys
                    (ThrottlerGuard.template (header request "x-api-key"))))
    eqn:Hvalid; [eauto|].
  exfalso. revert Hkey Hpresent Hvalid.
  unfold presents_valid_key, header.
  destruct (req_headers request !! "x-api-key") as [k|]; [|discriminate].
  cbn [truthy ThrottlerGuard.template]. fold (str_truthy k).
  destruct (str_truthy k); [|discriminate].
  cbn [andb negb]. intros -> Hv. discriminate.
Qed.

(** Without a principal the token guard admits only a validated token. *)
Lemma jwt_guard_needs_token (validate : string -> Result JsValue)
    (request : Request) :
  req_user request = JUndefined ->
  req_path request <> "/health" -> req_path request <> "/api/health" ->
  fst (JwtAuthGuard.canActivate false validate request) = Return true ->
  presents_valid_token validate request = true.
Proof.
  intros Huser Hp1 Hp2. unfold JwtAuthGuard.canActivate, presents_valid_token.
  apply String.eqb_neq in Hp1, Hp2. rewrite Hp1, Hp2, Huser.
  cbn [orb truthy andb].
  destruct (req_headers request !! "authorization") as [token|];
    [|cbn; discriminate].
  destruct (negb (str_truthy token)); [cbn; discriminate|].
  destruct (req_headers request !! "tenantid") as [tenantId|];
    [|cbn; discriminate].
  destruct (negb (str_truthy tenantId)); [cbn; discriminate|].
  unfold JwtAuthGuard.authenticate.
  destruct (validate token); [cbn; discriminate|reflexivity].
Qed.

(** X7. No entry without credentials: a request that arrives without a
    principal on a route that is neither public nor a health check
    passes the three authentication guards only if it carries an API key
    of the allow-list or a token the validator accepts. *)
Theorem guards_need_credentials (validate : string -> Result JsValue)
    (resource action : option string) (request : Request) :
  req_user request = JUndefined ->
  req_path request <> "/health" -> req_path request <> "/api/health" ->
  fst (guards false apiKeys validate requiredRoles resource action now request)
  = Return true ->
  presents_valid_key apiKeys request = true
  \/ presents_valid_token validate request = true.
Proof.
  intros Huser Hp1 Hp2 Hpass.
  destruct (presents_valid_key apiKeys request) eqn:Hkey; [left; reflexivity|].
  right. revert Hpass. unfold guards.
  destruct (api_key_guard_without_key resource action request Hkey)
    as (verdict & stored & ->).
  destruct verdict as [e|[|]]; try (cbn; discriminate).
  pose proof (jwt_guard_needs_token validate request Huser Hp1 Hp2) as Hjwt.
  destruct (JwtAuthGuard.canActivate false validate request)
    as [[e|[|]] request'] eqn:E; try (cbn; discriminate).
  intros _. apply Hjwt. reflexivity.
Qed.

End GuardChain.

Lemma guards_need_credentials_witness :
  Policy.presents_valid_key ["secret"]
    (Samples.request "GET" "/api/service-a/items" [("x-api-key", "secret")])
  = true
  \/ Policy.presents_valid_token (fun _ => Throw (ErrorObject Samples.boom))
       (Samples.request "GET" "/api/service-a/items" [("x-api-key", "secret")])
     = true.
Proof.
  apply (guards_need_credentials ["secret"] None Samples.now_ms
           (fun _ => Throw (ErrorObject Samples.boom)) None None);
    [reflexivity | discriminate | discriminate | vm_compute; reflexivity].
Defined.

Section KeyPrincipal.
Import AuthPolicy Policy CoreModule.

Variable apiKeys : list string.
Variable now : Z.

Lemma endsWith_health (path : string) :
  ApiKeyAuthGuard.endsWith path "/health" = false ->
  String.eqb path "/health" || String.eqb path "/api/health" = false.
Proof.
  intros H.
  destruct (String.eqb_spec path "/health") as [->|_]; [discriminate|].
  destruct (String.eqb_spec path "/api/health") as [->|_]; [discriminate|].
  reflexivity.
Qed.

(** With a valid key the API-key guard gets as far as the principal. *)
Lemma api_key_guard_with_key (resource action : option string)
    (request : Request) :
  presents_valid_key apiKeys request = true ->
  ApiKeyAuthGuard.endsWith (req_path request) "/health" = false ->
  exists requestId,
    ApiKeyAuthGuard.canActivate false apiKeys resource action now request
    = let stored := Some (ApiKeyAuthGuard.originalHeaders request requestId) in
      match ApiKeyAuthGuard.principal request requestId with
      | inl e => (Throw e, request, stored)
      | inr user =>
          match resource, action with
          | Some res, Some act =>
              if str_truthy res && str_truthy act then
                if validatePermissions res act (prop user "roles")
                then (Return true, set_user request user, stored)
                else (Return false, set_user request user, stored)
              else (Return true, set_user request user, stored)
          | _, _ => (Return true, set_user request user, stored)
          end
      end.
Proof.
  intros Hkey Hpath. unfold ApiKeyAuthGuard.canActivate.
  rewrite (endsWith_health _ Hpath), Hpath. cbn [orb]. cbv zeta.
  eexists.
  unfold presents_valid_key in Hkey.
  destruct (req_headers request !! "x-api-key") as [k|] eqn:Ek;
    [|discriminate].
  apply andb_true_iff in Hkey as [Hpresent Hvalid].
  assert (Hh : header request "x-api-key" = JStr k)
    by (unfold header; rewrite Ek; reflexivity).
  rewrite !Hh. cbn [truthy ThrottlerGuard.template]. fold (str_truthy k).
  rewrite Hpresent, Hvalid, andb_false_r. cbn [negb].
  reflexivity.
Qed.

(** The principal of a valid key is an object with a list of roles. *)
Lemma principal_has_roles (request : Request) (requestId : string)
    (user : JsValue) :
  ApiKeyAuthGuard.principal request requestId = Return user ->
  truthy user = true /\ exists roles, prop user "roles" = JArr roles.
Proof.
  unfold ApiKeyAuthGuard.principal. cbv zeta.
  destruct (is_str (header request "x-source-service") "service-b").
  - destruct (truthy (header request "x-user-email")
              && truthy (header request "x-user-role")
              && truthy (header request "x-tenant-name"));
      intros [= <-]; (split; [reflexivity|eexists; reflexivity]).
  - destruct (truthy (header request "x-user-email")
              && truthy (header request "x-user-role")
              && truthy (header request "x-tenant-name")
              && truthy (header request "x-tenant-id")).
    + intros [= <-]; (split; [reflexivity|eexists; reflexivity]).
    + destruct (req_params request); try discriminate;
        intros [= <-]; (split; [reflexivity|eexists; reflexivity]).
Qed.

(** X8. With a valid API key the token validator is never consulted:
    off the health routes, the outcome of the three guards, verdict and
    principal, is the same whatever the validator would answer. *)
Theorem valid_key_skips_token_validation
    (validate validate' : string -> Result JsValue)
    (requiredRoles : option (list string)) (resource action : option string)
    (request : Request) :
  presents_valid_key apiKeys request = true ->
  ApiKeyAuthGuard.endsWith (req_path request) "/health" = false ->
  guards false apiKeys validate requiredRoles resource action now request
  = guards false apiKeys validate' requiredRoles resource action now request.
Proof.
  intros Hkey Hpath. unfold guards.
  destruct (api_key_guard_with_key resource action request Hkey Hpath)
    as (requestId & ->). cbv zeta.
  destruct (ApiKeyAuthGuard.principal request requestId) as [e|user] eqn:Hp;
    [reflexivity|].
  destruct (principal_has_roles _ _ _ Hp) as (Huser & roles & Hroles).
  assert (Hjwt : forall v,
             JwtAuthGuard.canActivate false v (set_user request user)
             = (Return true, set_user request user)).
  { intros v. unfold JwtAuthGuard.canActivate.
    change (req_path (set_user request user)) with (req_path request).
    rewrite (endsWith_health _ Hpath).
    change (req_user (set_user request user)) with user.
    rewrite Huser, Hroles. reflexivity. }
  destruct resource as [res|], action as [act|];
    try (rewrite !Hjwt; reflexivity).
  destruct (str_truthy res && str_truthy act);
    [|rewrite !Hjwt; reflexivity].
  destruct (validatePermissions res act (prop user "roles"));
    [rewrite !Hjwt|]; reflexivity.
Qed.

Lemma some_role_array (roles : list JsValue) (requiredRoles : list string) :
  exists b, RolesGuard.some_role (JArr roles) requiredRoles = Return b.
Proof.
  induction requiredRoles as [|role rest IH]; [eexists; reflexivity|].
  cbn [RolesGuard.some_role js_includes]. unfold Return at 1.
  destruct (existsb (fun x => is_str x role) roles); [eexists; reflexivity|].
  exact IH.
Qed.


End KeyPrincipal.

Lemma valid_key_skips_token_validation_witness :
  CoreModule.guards false ["secret"] (fun _ => Throw (ErrorObject Samples.boom)) None None
    None Samples.now_ms
    (Samples.request "GET" "/api/service-a/items" [("x-api-key", "secret")])
  = CoreModule.guards false ["secret"] (fun _ => Return (JObj [])) None None
      None Samples.now_ms
      (Samples.request "GET" "/api/service-a/items" [("x-api-key", "secret")]).
Proof.
  apply (valid_key_skips_token_validation ["secret"] Samples.now_ms);
    reflexivity.
Defined.


(** ** The cache *)

Section CacheProps.
Import CacheService.

Variable stringify : JsValue -> option string.
Variable parse : string -> JsError + JsValue.

Section AnyStore.
Context {R : Type} `{RedisKV R} {W : Type}.

(** X10. The cache fails open: when the store rejects the read,
    [getOrSet] answers with exactly what the factory yields, value or
    exception, and the cache adds no exception of its own. *)
Theorem getOrSet_fails_open (key : string) (ttl : Z)
    (factory : W -> Result JsValue * W) (r : R) (w : W) (e : JsError) :
  fst (kv_get key r) = inl e ->
  fst (fst (getOrSet stringify parse key factory ttl r w)) = fst (factory w)
  /\ snd (getOrSet stringify parse key factory ttl r w) = snd (factory w).
Proof.
  intros Hget. unfold getOrSet, get, getValue.
  destruct (kv_get key r) as [res r']. cbn [fst] in Hget. subst res.
  destruct (factory w) as [[e'|v] w']; split; reflexivity.
Qed.

End AnyStore.

Lemma mem_get_after_set (key value : string) (ttl : Z) (r : MemCache) :
  online r = true ->
  get parse key (setValue key value ttl r)
  = (if negb (str_truthy value) then JNull
     else match parse value with inr v => v | inl _ => JNull end,
     setValue key value ttl r).
Proof.
  intros Hon. unfold get, getValue, setValue.
  cbn [kv_get kv_set MemCache_kv]. unfold mem_set, mem_get. rewrite Hon.
  cbn [snd online cached]. rewrite lookup_insert_eq.
  destruct (negb (str_truthy value)); [reflexivity|].
  destruct (parse value); reflexivity.
Qed.

(** X11. What [getOrSet] stored is what the next [getOrSet] returns: on
    a miss of a store that is up, the factory's value is returned and
    written; the next call for the key (before the entry expires), with
    any factory, returns the value the text parses to without running
    the factory. *)
Theorem getOrSet_second_read_is_cached {W W' : Type} (key text : string)
    (ttl ttl' : Z) (factory : W -> Result JsValue * W) (r : MemCache)
    (w w1 : W) (v v' : JsValue) :
  online r = true ->
  cached r !! key = None ->
  factory w = (Return v, w1) ->
  stringify v = Some text -> str_truthy text = true ->
  parse text = inr v' -> v' <> JNull ->
  exists r1,
    getOrSet stringify parse key factory ttl r w = (Return v, r1, w1)
    /\ forall (factory' : W' -> Result JsValue * W') (w' : W'),
         getOrSet stringify parse key factory' ttl' r1 w'
         = (Return v', r1, w').
Proof.
  intros Hon Hmiss Hfactory Hs Htext Hparse Hnull.
  exists (setValue key text ttl r). split.
  - unfold getOrSet, get, getValue. cbn [kv_get MemCache_kv].
    unfold mem_get. rewrite Hon, Hmiss, Hfactory. unfold Return, set.
    rewrite Hs. reflexivity.
  - intros factory' w'. unfold getOrSet.
    rewrite (mem_get_after_set key text ttl r Hon), Htext, Hparse.
    cbn [negb]. destruct v'; try reflexivity. contradiction.
Qed.

(** X12. A [null] is never a hit: when the factory yields [null], the
    text written for it parses back to [null], which [getOrSet] takes
    for a miss, so the next call runs its factory again. *)
Theorem getOrSet_null_is_not_cached {W W' : Type} (key text : string)
    (ttl ttl' : Z) (factory : W -> Result JsValue * W) (r : MemCache)
    (w w1 : W) :
  online r = true ->
  cached r !! key = None ->
  factory w = (Return JNull, w1) ->
  stringify JNull = Some text ->
  parse text = inr JNull ->
  exists r1,
    getOrSet stringify parse key factory ttl r w = (Return JNull, r1, w1)
    /\ forall (factory' : W' -> Result JsValue * W') (w' : W'),
         fst (fst (getOrSet stringify parse key factory' ttl' r1 w'))
         = fst (factory' w')
         /\ snd (getOrSet stringify parse key factory' ttl' r1 w')
            = snd (factory' w').
Proof.
  intros Hon Hmiss Hfactory Hs Hparse.
  exists (setValue key text ttl r). split.
  - unfold getOrSet, get, getValue. cbn [kv_get MemCache_kv].
    unfold mem_get. rewrite Hon, Hmiss, Hfactory. unfold Return, set.
    rewrite Hs. reflexivity.
  - intros factory' w'. unfold getOrSet.
    rewrite (mem_get_after_set key text ttl r Hon), Hparse.
    destruct (negb (str_truthy text));
      destruct (factory' w') as [[e|v] w2]; split; reflexivity.
Qed.

(** X13. [delete] invalidates one key and no other: on a store that is
    up, the next [getOrSet] of the deleted key runs the factory, and
    [get] of any other key answers as before. *)
Theorem delete_invalidates_one_key {W : Type} (key : string) (ttl : Z)
    (factory : W -> Result JsValue * W) (r : MemCache) (w : W) :
  online r = true ->
  (fst (fst (getOrSet stringify parse key factory ttl (delete key r) w))
   = fst (factory w)
   /\ snd (getOrSet stringify parse key factory ttl (delete key r) w)
      = snd (factory w))
  /\ forall other, other <> key ->
       fst (get parse other (delete key r)) = fst (get parse other r).
Proof.
  intros Hon. unfold delete, deleteKey. cbn [kv_del MemCache_kv].
  unfold mem_del. rewrite Hon. cbn [snd]. split.
  - unfold getOrSet, get, getValue. cbn [kv_get MemCache_kv].
    unfold mem_get. cbn [online cached]. rewrite lookup_delete_eq.
    destruct (factory w) as [[e|v] w']; split; reflexivity.
  - intros other Hother. unfold get, getValue. cbn [kv_get MemCache_kv].
    unfold mem_get. cbn [online cached]. rewrite Hon.
    rewrite lookup_delete_ne by congruence.
    destruct (cached r !! other) as [value|]; [|reflexivity].
    destruct (negb (str_truthy value)); [reflexivity|].
    destruct (parse value); reflexivity.
Qed.

End CacheProps.

Section CacheExamples.
Import CacheService.

Lemma getOrSet_fails_open_witness :
  fst (fst (CacheService.getOrSet CacheSamples.stringify CacheSamples.parse
              "items:t1:" (CacheSamples.counting (JNum 42)) 300
              CacheSamples.down O))
  = fst (CacheSamples.counting (JNum 42) O)
  /\ snd (CacheService.getOrSet CacheSamples.stringify CacheSamples.parse
            "items:t1:" (CacheSamples.counting (JNum 42)) 300
            CacheSamples.down O)
     = snd (CacheSamples.counting (JNum 42) O).
Proof.
  apply (getOrSet_fails_open CacheSamples.stringify CacheSamples.parse
           "items:t1:" 300 (CacheSamples.counting (JNum 42))
           CacheSamples.down O connection_error).
  reflexivity.
Defined.

Lemma getOrSet_second_read_is_cached_witness :
  exists r1,
    CacheService.getOrSet CacheSamples.stringify CacheSamples.parse
      "items:t1:" (CacheSamples.counting (JNum 42)) 300 CacheSamples.up O
    = (Return (JNum 42), r1, 1%nat)
    /\ forall (factory' : nat -> Result JsValue * nat) (w' : nat),
         CacheService.getOrSet CacheSamples.stringify CacheSamples.parse
           "items:t1:" factory' 60 r1 w'
         = (Return (JNum 42), r1, w').
Proof.
  apply (getOrSet_second_read_is_cached CacheSamples.stringify
           CacheSamples.parse (W' := nat) "items:t1:" "42" 300 60
           (CacheSamples.counting (JNum 42)) CacheSamples.up O 1%nat
           (JNum 42) (JNum 42));
    try reflexivity; discriminate.
Defined.

Lemma getOrSet_null_is_not_cached_witness :
  exists r1,
    CacheService.getOrSet CacheSamples.stringify CacheSamples.parse
      "items:t1:" (CacheSamples.counting JNull) 300 CacheSamples.up O
    = (Return JNull, r1, 1%nat)
    /\ forall (factory' : nat -> Result JsValue * nat) (w' : nat),
         fst (fst (CacheService.getOrSet CacheSamples.stringify
                     CacheSamples.parse "items:t1:" factory' 60 r1 w'))
         = fst (factory' w')
         /\ snd (CacheService.getOrSet CacheSamples.stringify
                   CacheSamples.parse "items:t1:" factory' 60 r1 w')
            = snd (factory' w').
Proof.
  apply (getOrSet_null_is_not_cached CacheSamples.stringify
           CacheSamples.parse (W' := nat) "items:t1:" "null" 300 60
           (CacheSamples.counting JNull) CacheSamples.up O 1%nat);
    reflexivity.
Defined.

Lemma delete_invalidates_one_key_witness :
  (fst (fst (CacheService.getOrSet CacheSamples.stringify CacheSamples.parse
               "items:t1:" (CacheSamples.counting (JNum 42)) 300
               (CacheService.delete "items:t1:" CacheSamples.up) O))
   = fst (CacheSamples.counting (JNum 42) O)
   /\ snd (CacheService.getOrSet CacheSamples.stringify CacheSamples.parse
             "items:t1:" (CacheSamples.counting (JNum 42)) 300
             (CacheService.delete "items:t1:" CacheSamples.up) O)
      = snd (CacheSamples.counting (JNum 42) O))
  /\ forall other, other <> "items:t1:" ->
       fst (CacheService.get CacheSamples.parse other
              (CacheService.delete "items:t1:" CacheSamples.up))
       = fst (CacheService.get CacheSamples.parse other CacheSamples.up).
Proof.
  apply (delete_invalidates_one_key CacheSamples.stringify CacheSamples.parse
           "items:t1:" 300 (CacheSamples.counting (JNum 42))
           CacheSamples.up O).
  reflexivity.
Defined.

End CacheExamples.

(** ** Cache keys *)

Section CacheKeys.
Import CacheService ThrottlerGuard Shape.

Lemma colon_free_prefix_inj (a a' x y : string) :
  free_of is_colon a = true -> free_of is_colon a' = true ->
  a +:+ ":" +:+ x = a' +:+ ":" +:+ y -> a = a' /\ x = y.
Proof.
  revert a'. induction a as [|c a IH]; intros [|c' a'] Ha Ha' E.
  - cbn in E. injection E as E. auto.
  - cbn in E. injection E as Ec E. subst c'. cbn in Ha'. discriminate.
  - cbn in E. injection E as Ec E. subst c. cbn in Ha. discriminate.
  - cbn in E. injection E as Ec E. subst c'.
    cbn [free_of] in Ha, Ha'.
    apply andb_true_iff in Ha as [_ Ha]. apply andb_true_iff in Ha' as [_ Ha'].
    destruct (IH a' Ha Ha' E) as [-> ->]. auto.
Qed.

Lemma concat_colon_inj (parts parts' : list string) :
  length parts = length parts' ->
  Forall (fun p => free_of is_colon p = true) parts ->
  Forall (fun p => free_of is_colon p = true) parts' ->
  String.concat ":" parts = String.concat ":" parts' -> parts = parts'.
Proof.
  revert parts'. induction parts as [|p rest IH]; intros [|p' rest'] Hlen Hp Hp' E;
    try discriminate; [reflexivity|].
  apply Forall_cons in Hp as [Hp Hrest]. apply Forall_cons in Hp' as [Hp' Hrest'].
  injection Hlen as Hlen.
  destruct rest as [|q rest], rest' as [|q' rest']; try discriminate.
  - cbn in E. subst. reflexivity.
  - change (p +:+ ":" +:+ String.concat ":" (q :: rest)
            = p' +:+ ":" +:+ String.concat ":" (q' :: rest')) in E.
    destruct (colon_free_prefix_inj _ _ _ _ Hp Hp' E) as [-> E'].
    f_equal. apply IH; assumption.
Qed.

(** X14. Cache keys do not collide: when scopes and identifiers hold no
    colon, two keys are equal only if scope and identifier are equal and
    the joined parts are; with as many colon-free parts on both sides,
    only if the parts are the same.  So entries of different tenants
    never share a key. *)
Theorem createCacheKey_injective (scope scope' identifier identifier' : string)
    (parts parts' : list string) :
  free_of is_colon scope = true -> free_of is_colon scope' = true ->
  free_of is_colon identifier = true -> free_of is_colon identifier' = true ->
  createCacheKey scope identifier parts
  = createCacheKey scope' identifier' parts' ->
  scope = scope' /\ identifier = identifier'
  /\ String.concat ":" parts = String.concat ":" parts'
  /\ (length parts = length parts' ->
      Forall (fun p => free_of is_colon p = true) parts ->
      Forall (fun p => free_of is_colon p = true) parts' ->
      parts = parts').
Proof.
  intros Hs Hs' Hi Hi' E. unfold createCacheKey in E.
  destruct (colon_free_prefix_inj _ _ _ _ Hs Hs' E) as [-> E1].
  destruct (colon_free_prefix_inj _ _ _ _ Hi Hi' E1) as [-> E2].
  repeat split; try assumption.
  intros Hlen Hp Hp'. apply concat_colon_inj; assumption.
Qed.

End CacheKeys.

Lemma createCacheKey_injective_witness :
  "service-c" = "service-c" /\ "t1" = "t1"
  /\ String.concat ":" ["folder"; "f7"] = String.concat ":" ["folder"; "f7"]
  /\ (length ["folder"; "f7"] = length ["folder"; "f7"] ->
      Forall (fun p => Shape.free_of ThrottlerGuard.is_colon p = true)
        ["folder"; "f7"] ->
      Forall (fun p => Shape.free_of ThrottlerGuard.is_colon p = true)
        ["folder"; "f7"] ->
      ["folder"; "f7"] = ["folder"; "f7"]).
Proof.
  apply (createCacheKey_injective "service-c" "service-c" "t1" "t1"
           ["folder"; "f7"] ["folder"; "f7"]); reflexivity.
Defined.

(** ** URLs *)

Section UrlProps.
Import RequestUtils ServiceAService Shape.

Lemma encoded_char_safe (c : ascii) :
  free_of (fun x => negb (url_safe x))
    (if is_unreserved c then String c EmptyString else percent_encode c)
  = true.
Proof.
  destruct c as [[] [] [] [] [] [] [] []]; vm_compute; reflexivity.
Qed.

Lemma encodeURIComponent_safe (s : string) :
  free_of (fun x => negb (url_safe x)) (encodeURIComponent s) = true.
Proof.
  induction s as [|c r IH]; [reflexivity|].
  cbn [encodeURIComponent]. rewrite free_of_app, IH, encoded_char_safe.
  reflexivity.
Qed.

Lemma free_of_weaken (p q : ascii -> bool) (s : string) :
  (forall c, p c = true -> q c = true) ->
  free_of q s = true -> free_of p s = true.
Proof.
  intros Hpq. induction s as [|c r IH]; [reflexivity|].
  cbn [free_of]. intros H. apply andb_true_iff in H as [Hc Hr].
  rewrite (IH Hr), andb_true_r.
  destruct (p c) eqn:E; [|reflexivity].
  rewrite (Hpq c E) in Hc. discriminate.
Qed.

Lemma encoded_free_of (d : ascii) (s : string) :
  url_safe d = false ->
  free_of (Ascii.eqb d) (encodeURIComponent s) = true.
Proof.
  intros Hd.
  apply (free_of_weaken _ (fun x => negb (url_safe x)));
    [|apply encodeURIComponent_safe].
  intros c Hc. apply Ascii.eqb_eq in Hc. subst c. rewrite Hd. reflexivity.
Qed.

Lemma free_of_eqb_sym (d : ascii) (s : string) :
  free_of (fun c => Ascii.eqb c d) s = free_of (Ascii.eqb d) s.
Proof.
  induction s as [|c r IH]; [reflexivity|].
  cbn [free_of]. rewrite IH, (Ascii.eqb_sym c d). reflexivity.
Qed.

Lemma count_of_app (p : ascii -> bool) (a b : string) :
  count_of p (a +:+ b) = (count_of p a + count_of p b)%nat.
Proof.
  induction a as [|c a IH]; [reflexivity|].
  simpl. rewrite IH. destruct (p c); reflexivity.
Qed.

Lemma free_of_count (p : ascii -> bool) (s : string) :
  free_of p s = true -> count_of p s = O.
Proof.
  induction s as [|c r IH]; [reflexivity|].
  cbn [free_of count_of]. intros H. apply andb_true_iff in H as [Hc Hr].
  destruct (p c); [discriminate|]. rewrite (IH Hr). reflexivity.
Qed.

Lemma pair_counts (kv : string * JsValue) :
  free_of is_amp (fst kv) = true -> free_of is_equals (fst kv) = true ->
  count_of is_amp (fst kv +:+ "=" +:+ encodeURIComponent (String_of (snd kv)))
  = O
  /\ count_of is_equals
       (fst kv +:+ "=" +:+ encodeURIComponent (String_of (snd kv))) = 1%nat.
Proof.
  intros Ha He. rewrite !count_of_app.
  rewrite (free_of_count _ _ Ha), (free_of_count _ _ He).
  assert (Hamp : count_of is_amp (encodeURIComponent (String_of (snd kv))) = O).
  { apply free_of_count. unfold is_amp. rewrite free_of_eqb_sym.
    apply encoded_free_of. reflexivity. }
  assert (Heq : count_of is_equals (encodeURIComponent (String_of (snd kv)))
                = O).
  { apply free_of_count. unfold is_equals. rewrite free_of_eqb_sym.
    apply encoded_free_of. reflexivity. }
  rewrite Hamp, Heq. split; reflexivity.
Qed.

Lemma query_counts (l : list (string * JsValue)) :
  Forall (fun kv => free_of is_amp (fst kv) = true
                    /\ free_of is_equals (fst kv) = true) l ->
  let queryString :=
    String.concat "&"
      (map (fun kv => fst kv +:+ "=" +:+ encodeURIComponent (String_of (snd kv)))
         l) in
  count_of is_amp queryString = pred (length l)
  /\ count_of is_equals queryString = length l.
Proof.
  cbv zeta. induction 1 as [|kv rest [Ha He] Hrest IH]; [split; reflexivity|].
  destruct (pair_counts kv Ha He) as [Hamp Heq].
  destruct rest as [|kv' rest].
  - cbn [map String.concat length pred]. auto.
  - change (String.concat "&"
              (map (fun kv => fst kv +:+ "=" +:+
                              encodeURIComponent (String_of (snd kv)))
                 (kv :: kv' :: rest)))
      with ((fst kv +:+ "=" +:+ encodeURIComponent (String_of (snd kv)))
            +:+ "&" +:+
            String.concat "&"
              (map (fun kv => fst kv +:+ "=" +:+
                              encodeURIComponent (String_of (snd kv)))
                 (kv' :: rest))).
    destruct IH as [IHa IHe].
    split.
    + rewrite count_of_app, Hamp, count_of_app, IHa. reflexivity.
    + rewrite count_of_app, Heq, count_of_app, IHe. reflexivity.
Qed.

(** X15. Parameter values cannot add parameters: whatever the values
    are, when the keys hold no [&] and no [=] the query string that
    [buildUrl] appends has one [=] for each parameter that is neither
    [null] nor [undefined], and [&] only between them. *)
Theorem buildUrl_query_shape (baseUrl path : string)
    (params : list (string * JsValue)) :
  params <> [] ->
  Forall (fun kv => free_of is_amp (fst kv) = true
                    /\ free_of is_equals (fst kv) = true) params ->
  exists separator queryString,
    buildUrl baseUrl path (Some params)
    = (baseUrl +:+ "/" +:+ path) +:+ separator +:+ queryString
    /\ (separator = "?" \/ separator = "&")
    /\ count_of is_equals queryString = length (kept params)
    /\ count_of is_amp queryString = pred (length (kept params)).
Proof.
  intros Hne Hkeys. unfold buildUrl.
  destruct params as [|kv params]; [contradiction|]. cbv zeta.
  eexists _, _. split; [reflexivity|]. split.
  - destruct (includes (baseUrl +:+ "/" +:+ path) "?"); auto.
  - assert (Hkept : Forall (fun kv => free_of is_amp (fst kv) = true
                                      /\ free_of is_equals (fst kv) = true)
                      (kept (kv :: params))).
    { unfold kept. apply List.Forall_forall. intros x Hx.
      apply List.filter_In in Hx as [Hx _].
      exact (proj1 (List.Forall_forall _ _) Hkeys x Hx). }
    pose proof (query_counts _ Hkept) as Hcounts. cbv zeta in Hcounts.
    destruct Hcounts as [Ha He]. split; [exact He|exact Ha].
Qed.

Lemma append_empty_r (s : string) : s +:+ "" = s.
Proof.
  induction s as [|c s IH]; [reflexivity|].
  change (String c (s +:+ "") = String c s). f_equal. exact IH.
Qed.

Lemma string_append_assoc (a b c : string) :
  (a +:+ b) +:+ c = a +:+ (b +:+ c).
Proof.
  induction a as [|d a IH]; [reflexivity|].
  change (String d ((a +:+ b) +:+ c) = String d (a +:+ (b +:+ c))).
  f_equal. exact IH.
Qed.

Lemma append_cons_r (a : string) (c : ascii) (b : string) :
  (a +:+ String c EmptyString) +:+ b = a +:+ String c b.
Proof.
  induction a as [|d a IH]; [reflexivity|].
  change (String d ((a +:+ String c EmptyString) +:+ b)
          = String d (a +:+ String c b)).
  f_equal. exact IH.
Qed.

Lemma last_segment_free (b acc : string) :
  free_of is_slash b = true -> last_segment acc b = acc +:+ b.
Proof.
  revert acc. induction b as [|c r IH]; intros acc H.
  - symmetry. apply append_empty_r.
  - cbn [free_of] in H. apply andb_true_iff in H as [Hc Hr].
    cbn [last_segment]. destruct (is_slash c); [discriminate|].
    rewrite (IH _ Hr). apply append_cons_r.
Qed.

Lemma last_segment_app (acc a b : string) :
  free_of is_slash b = true ->
  last_segment acc (a +:+ "/" +:+ b) = b.
Proof.
  intros Hb. revert acc. induction a as [|c a IH]; intros acc.
  - change (last_segment EmptyString b = b).
    apply (last_segment_free b EmptyString Hb).
  - change (last_segment acc (String c (a +:+ "/" +:+ b)) = b).
    cbn [last_segment]. destruct (is_slash c); apply IH.
Qed.

Lemma before_query_app (a b : string) :
  free_of is_qmark a = true -> before_query (a +:+ "?" +:+ b) = a.
Proof.
  induction a as [|c a IH]; intros H; [reflexivity|].
  cbn [free_of] in H. apply andb_true_iff in H as [Hc Hr].
  change (before_query (String c (a +:+ "?" +:+ b)) = String c a).
  cbn [before_query]. destruct (is_qmark c); [discriminate|].
  rewrite (IH Hr). reflexivity.
Qed.

Lemma includes_qmark (s : string) :
  free_of is_qmark s = true -> includes s "?" = false.
Proof.
  induction s as [|c r IH]; [reflexivity|].
  cbn [free_of]. intros H. apply andb_true_iff in H as [Hc Hr].
  cbn [includes String.prefix]. rewrite (IH Hr), orb_false_r.
  destruct (Ascii.ascii_dec "?"%char c) as [<-|Hn]; [discriminate|].
  reflexivity.
Qed.

(** X16. A 404 names the item that was asked for: when the upstream
    answers 404 to the URL [buildUrl] made for an item, [handleError]
    throws the not-found exception of exactly that item id, whatever the
    tenant id is, provided the id holds no [/] and no [?] and the base
    URL no [?], and the error is not taken for a timeout or a connection
    failure first. *)
Theorem not_found_names_requested_item (baseUrl itemId tenantId : string)
    (error : JsError) (r : AxiosResponse) :
  free_of is_slash itemId = true -> free_of is_qmark itemId = true ->
  free_of is_qmark baseUrl = true ->
  config_url error
  = buildUrl baseUrl ("items/" +:+ itemId) (Some [("tenantId", JStr tenantId)]) ->
  response error = Some r -> status r = 404 ->
  timeout_error error = false -> connect_error error = false ->
  handleError error = ResourceNotFoundException "item" itemId.
Proof.
  intros Hslash Hq Hbase Hurl Hresp Hstatus Ht Hc.
  unfold handleError. rewrite Ht, Hc, Hresp, Hstatus. cbn [Z.eqb Pos.eqb].
  cbv zeta. f_equal. rewrite Hurl. unfold buildUrl. cbv zeta.
  rewrite includes_qmark.
  2:{ rewrite !free_of_app, Hbase, Hq. reflexivity. }
  cbn [List.filter map snd fst is_nullish_value negb String.concat String_of].
  change ("items/" +:+ itemId) with ("items" +:+ "/" +:+ itemId).
  replace ((baseUrl +:+ "/" +:+ "items" +:+ "/" +:+ itemId) +:+
           "?" +:+ "tenantId" +:+ "=" +:+ encodeURIComponent tenantId)
    with ((baseUrl +:+ "/" +:+ "items") +:+ "/" +:+
          (itemId +:+ "?" +:+ "tenantId=" +:+ encodeURIComponent tenantId)).
  2:{ rewrite !string_append_assoc. reflexivity. }
  rewrite last_segment_app.
  - apply before_query_app. exact Hq.
  - rewrite !free_of_app, Hslash. cbn [free_of andb].
    unfold is_slash. rewrite free_of_eqb_sym.
    rewrite encoded_free_of by reflexivity. reflexivity.
Qed.

End UrlProps.

Lemma buildUrl_query_shape_witness :
  exists separator queryString,
    RequestUtils.buildUrl "http://localhost:8003" "files"
      (Some [("tenantId", JStr "a&b=c"); ("folder", JNull); ("page", JNum 2)])
    = ("http://localhost:8003" +:+ "/" +:+ "files") +:+ separator
        +:+ queryString
    /\ (separator = "?" \/ separator = "&")
    /\ Shape.count_of Shape.is_equals queryString
       = length (Shape.kept [("tenantId", JStr "a&b=c"); ("folder", JNull);
                             ("page", JNum 2)])
    /\ Shape.count_of Shape.is_amp queryString
       = pred (length (Shape.kept [("tenantId", JStr "a&b=c");
                                   ("folder", JNull); ("page", JNum 2)])).
Proof.
  apply (buildUrl_query_shape "http://localhost:8003" "files"
           [("tenantId", JStr "a&b=c"); ("folder", JNull); ("page", JNum 2)]).
  - discriminate.
  - repeat (apply List.Forall_cons; [split; reflexivity|]).
    apply List.Forall_nil.
Defined.

Lemma not_found_names_requested_item_witness :
  ServiceAService.handleError Samples.not_found_error
  = ResourceNotFoundException "item" "42".
Proof.
  apply (not_found_names_requested_item "http://localhost:8001" "42" "t1"
           Samples.not_found_error
           {| status := 404; data := JObj [("error", JStr "Not Found")] |});
    reflexivity.
Defined.

(** ** What the filter logs *)

Section SanitizerProps.
Import RequestBodySanitizer Policy.

Lemma redact_step (l : list (string * JsValue)) (c k : string) :
  prop (JObj (if truthy (prop (JObj l) c)
              then obj_assign l [(c, REDACTED)] else l)) k
  = if String.eqb k c
    then (if truthy (prop (JObj l) c) then REDACTED else prop (JObj l) c)
    else prop (JObj l) k.
Proof.
  destruct (truthy (prop (JObj l) c)) eqn:E.
  - rewrite prop_obj_assign. cbn [assoc_get].
    destruct (String.eqb k c); reflexivity.
  - destruct (String.eqb_spec k c) as [->|]; reflexivity.
Qed.

Ltac literal_eqb :=
  cbv beta iota delta [String.eqb Ascii.eqb Bool.eqb andb]; cbn [orb].

(** X17. The logged copy of a request body shows no secret at its top
    level: each of [data_base64], [password], [apiKey] and [api_key] is
    either [[REDACTED]] or was falsy to begin with, and every other
    top-level entry is the one of the body. *)
Theorem sanitizeRequestBody_redacts (body : JsValue) (k : string) :
  (is_sensitive k = true ->
   prop (sanitizeRequestBody body) k = REDACTED
   \/ truthy (prop (sanitizeRequestBody body) k) = false)
  /\ (is_sensitive k = false ->
      prop (sanitizeRequestBody body) k
      = if truthy body then prop (JObj (spread body)) k else JUndefined).
Proof.
  unfold sanitizeRequestBody.
  destruct (truthy body); cbn [negb];
    [|split; intros _; [right|]; reflexivity].
  cbv zeta.
  set (fields := spread body).
  pose proof (redact_step fields "data_base64") as P1.
  set (s1 := if truthy (prop (JObj fields) "data_base64")
             then obj_assign fields [("data_base64", REDACTED)]
             else fields) in *.
  pose proof (redact_step s1 "password") as P2.
  set (s2 := if truthy (prop (JObj s1) "password")
             then obj_assign s1 [("password", REDACTED)] else s1) in *.
  assert (P3 : forall k,
             prop (JObj (if truthy (prop (JObj s2) "apiKey")
                            || truthy (prop (JObj s2) "api_key")
                         then obj_assign
                                (obj_assign s2 [("apiKey", REDACTED)])
                                [("api_key", REDACTED)]
                         else s2)) k
             = if String.eqb k "api_key" || String.eqb k "apiKey"
               then (if truthy (prop (JObj s2) "apiKey")
                        || truthy (prop (JObj s2) "api_key")
                     then REDACTED else prop (JObj s2) k)
               else prop (JObj s2) k).
  { intros k'.
    destruct (truthy (prop (JObj s2) "apiKey")
              || truthy (prop (JObj s2) "api_key")).
    - rewrite !prop_obj_assign. cbn [assoc_get].
      destruct (String.eqb k' "api_key"), (String.eqb k' "apiKey");
        reflexivity.
    - destruct (String.eqb k' "api_key" || String.eqb k' "apiKey");
        reflexivity. }
  rewrite P3. unfold is_sensitive, sensitive_keys. cbn [existsb].
  split; intros Hk.
  - rewrite orb_false_r in Hk.
    apply orb_true_iff in Hk as [Hk|Hk];
      [|apply orb_true_iff in Hk as [Hk|Hk];
        [|apply orb_true_iff in Hk as [Hk|Hk]]];
      apply String.eqb_eq in Hk; subst k; literal_eqb.
    + rewrite P2. literal_eqb. rewrite P1. literal_eqb.
      destruct (truthy (prop (JObj fields) "data_base64")) eqn:E; auto.
    + rewrite P2. literal_eqb.
      destruct (truthy (prop (JObj s1) "password")) eqn:E; auto.
    + destruct (truthy (prop (JObj s2) "apiKey")
                || truthy (prop (JObj s2) "api_key")) eqn:E; [auto|].
      apply orb_false_iff in E as [E _]. auto.
    + destruct (truthy (prop (JObj s2) "apiKey")
                || truthy (prop (JObj s2) "api_key")) eqn:E; [auto|].
      apply orb_false_iff in E as [_ E]. auto.
  - rewrite orb_false_r in Hk.
    apply orb_false_iff in Hk as [H1 Hk].
    apply orb_false_iff in Hk as [H2 Hk].
    apply orb_false_iff in Hk as [H3 H4].
    rewrite H3, H4. cbn [orb]. rewrite P2, H2, P1, H1. reflexivity.
Qed.

End SanitizerProps.

(** ** Pagination metadata *)

Section PaginationProps.
Import Pagination.

Lemma extract_fold (response : JsValue) (fields : list string)
    (acc : list (string * JsValue)) (seen : bool) :
  let result := fold_left (extract_field response) fields (acc, seen) in
  snd result = seen || existsb (fun f => has_key f response) fields
  /\ forall k,
       assoc_get k (fst result)
       = if existsb (String.eqb k) fields && has_key k response
         then Some (prop response k) else assoc_get k acc.
Proof.
  cbv zeta. revert acc seen.
  induction fields as [|f rest IH]; intros acc seen.
  - cbn [fold_left existsb fst snd andb]. rewrite orb_false_r. auto.
  - change (fold_left (extract_field response) (f :: rest) (acc, seen))
      with (fold_left (extract_field response) rest
              (if has_key f response
               then (obj_assign acc [(f, prop response f)], true)
               else (acc, seen))).
    cbn [existsb].
    destruct (has_key f response) eqn:Hf.
    + destruct (IH (obj_assign acc [(f, prop response f)]) true)
        as [Hseen Hget].
      split; [rewrite Hseen, orb_true_r; reflexivity|].
      intros k. rewrite Hget, assoc_get_obj_assign. cbn [assoc_get].
      destruct (String.eqb_spec k f) as [->|Hn].
      * rewrite Hf. cbn [orb andb].
        destruct (existsb (String.eqb f) rest); reflexivity.
      * cbn [orb]. reflexivity.
    + destruct (IH acc seen) as [Hseen Hget].
      split; [rewrite Hseen; reflexivity|].
      intros k. rewrite Hget.
      destruct (String.eqb_spec k f) as [->|Hn]; [|reflexivity].
      rewrite Hf, !andb_false_r. reflexivity.
Qed.

(** X18. When a response has no [metadata], [meta] or [pagination] of
    its own, [extractPaginationMetadata] returns exactly the pagination
    fields it has at its top level, with their values, and nothing
    else; it returns [undefined] precisely when it has none of them. *)
Theorem extractPaginationMetadata_fields (response : JsValue) :
  truthy (js_or (prop response "metadata")
            (js_or (prop response "meta") (prop response "pagination")))
  = false ->
  let metadata := extractPaginationMetadata response in
  (metadata = JUndefined
   <-> existsb (fun f => has_key f response) paginationFields = false)
  /\ forall k,
       has_key k metadata
       = existsb (String.eqb k) paginationFields && has_key k response
       /\ (has_key k metadata = true -> prop metadata k = prop response k).
Proof.
  intros Hmeta. cbv zeta. unfold extractPaginationMetadata. rewrite Hmeta.
  destruct (negb (truthy response) || negb (typeof_object response)) eqn:Hobj.
  - assert (Hkeys : forall k, has_key k response = false).
    { intros k. destruct response; try reflexivity. discriminate. }
    split.
    + split; [|reflexivity]. intros _. cbn [existsb paginationFields].
      rewrite !Hkeys. reflexivity.
    + intros k. rewrite Hkeys, andb_false_r. split; [reflexivity|].
      discriminate.
  - destruct (extract_fold response paginationFields [] false)
      as [Hseen Hget]. cbv zeta in Hseen, Hget.
    destruct (fold_left (extract_field response) paginationFields ([], false))
      as [extracted seen].
    cbn [fst snd orb] in Hseen, Hget. rewrite Hseen.
    destruct (existsb (fun f => has_key f response) paginationFields) eqn:Hany.
    + split; [split; discriminate|].
      intros k. cbn [has_key prop]. unfold assoc_mem. rewrite Hget.
      cbn [assoc_get].
      destruct (existsb (String.eqb k) paginationFields
                && has_key k response); split; try reflexivity.
      discriminate.
    + split; [split; reflexivity|].
      intros k. cbn [has_key].
      destruct (existsb (String.eqb k) paginationFields) eqn:Hk;
        [|split; [reflexivity|discriminate]].
      cbn [andb].
      assert (Hnone : has_key k response = false).
      { apply existsb_exists in Hk as (f & Hin & Heq).
        apply String.eqb_eq in Heq. subst f.
        destruct (has_key k response) eqn:E; [|reflexivity].
        assert (existsb (fun f => has_key f response) paginationFields = true)
          by (apply existsb_exists; eauto).
        congruence. }
      rewrite Hnone. split; [reflexivity|discriminate].
Qed.

End PaginationProps.

Lemma extractPaginationMetadata_fields_witness :
  let response :=
    JObj [("items", JArr []); ("page", JNum 2); ("total", JNum 40)] in
  let metadata := Pagination.extractPaginationMetadata response in
  (metadata = JUndefined
   <-> existsb (fun f => has_key f response) Pagination.paginationFields
       = false)
  /\ forall k,
       has_key k metadata
       = existsb (String.eqb k) Pagination.paginationFields
         && has_key k response
       /\ (has_key k metadata = true -> prop metadata k = prop response k).
Proof.
  apply (extractPaginationMetadata_fields
           (JObj [("items", JArr []); ("page", JNum 2); ("total", JNum 40)])).
  reflexivity.
Defined.

(** ** The request id *)

Section RequestIdProps.
Import AllExceptionsFilter Middleware.

(** X19. Every error answer names the request: after the logging
    middleware, whatever exception reaches the filter, the envelope's
    [requestId] is the [X-Request-Id] the client sent, or the generated
    id when it sent none (or an empty one). *)
Theorem envelope_carries_request_id (uuid now : string)
    (exception : Exception) (request : Request) :
  str_truthy uuid = true ->
  prop (snd (catch now exception (logging uuid request))) "requestId"
  = JStr (match req_headers request !! "x-request-id" with
          | Some v => if str_truthy v then v else uuid
          | None => uuid
          end).
Proof.
  intros Huuid. unfold catch.
  destruct (classify now exception (logging uuid request))
    as [status errorResponse].
  cbn [snd]. unfold finish. cbv zeta.
  set (requestId := match req_headers request !! "x-request-id" with
                    | Some v => if str_truthy v then v else uuid
                    | None => uuid
                    end).
  assert (Hid : header (logging uuid request) "x-request-id" = JStr requestId).
  { unfold header, logging, set_header. cbn [req_headers].
    rewrite lookup_insert_eq. reflexivity. }
  assert (Htruthy : str_truthy requestId = true).
  { subst requestId.
    destruct (req_headers request !! "x-request-id") as [v|]; [|exact Huuid].
    destruct (str_truthy v) eqn:E; assumption. }
  rewrite Hid. cbn [truthy]. fold (str_truthy requestId). rewrite Htruthy.
  rewrite prop_obj_assign. reflexivity.
Qed.

End RequestIdProps.

Lemma envelope_carries_request_id_witness :
  prop (snd (AllExceptionsFilter.catch Samples.timestamp
               (ErrorObject Samples.boom)
               (Middleware.logging "0b8f6c9e-0d0c-4d5e-9a84-1f1f6a3f3c11"
                  Samples.items_request))) "requestId"
  = JStr "0b8f6c9e-0d0c-4d5e-9a84-1f1f6a3f3c11".
Proof.
  apply (envelope_carries_request_id "0b8f6c9e-0d0c-4d5e-9a84-1f1f6a3f3c11"
           Samples.timestamp (ErrorObject Samples.boom)
           Samples.items_request).
  reflexivity.
Defined.

(** ** Breakers of different services *)

Section BreakerIsolation.
Import CircuitBreaker.
Context {W T : Type}.

(** X20. Breakers do not interfere: the first call for a service is
    always admitted, whatever state the breakers of other services are
    in, so its outcome is the wrapped function's; and a call for one
    service leaves every other breaker as it was. *)
Theorem breakers_are_independent (serviceName : string) (now later : Z)
    (fn : W -> Result T * W) (options : option PartialOptions)
    (circuits : gmap string CircuitBreaker) (w : W) :
  let outcome :=
    executeWithCircuitBreaker serviceName now fn later options circuits w in
  (forall other, other <> serviceName ->
     snd (fst outcome) !! other = circuits !! other)
  /\ (circuits !! serviceName = None ->
      fst (fst outcome) = fst (fn w) /\ snd outcome = snd (fn w)).
Proof.
  cbv zeta. unfold executeWithCircuitBreaker, getCircuit. split.
  - intros other Hother.
    destruct (circuits !! serviceName) as [c|];
      [destruct (execute now fn later c w) as [[res c'] w']
      |destruct (execute now fn later (new_breaker serviceName options) w)
         as [[res c'] w']];
      cbn [fst snd]; rewrite !lookup_insert_ne by congruence; reflexivity.
  - intros ->. unfold execute, checkState, new_breaker.
    cbn [state state_eqb nextAttempt andb].
    destruct (fn w) as [[e|v] w']; split; reflexivity.
Qed.

End BreakerIsolation.

(** ** A token principal through the guards *)

Section TokenChain.
Import AuthPolicy Policy CoreModule JwtAuthGuard.

Variable apiKeys : list string.
Variable now : Z.

Lemma some_role_single (roleName : string) (requiredRoles : list string) :
  RolesGuard.some_role (JArr [JStr roleName]) requiredRoles
  = Return (existsb (String.eqb roleName) requiredRoles).
Proof.
  induction requiredRoles as [|role rest IH]; [reflexivity|].
  cbn [RolesGuard.some_role js_includes existsb is_str]. unfold Return at 1.
  rewrite orb_false_r.
  destruct (String.eqb roleName role); [reflexivity|exact IH].
Qed.

(** X21. What a token is worth: a request without API key whose token
    validates and names an entry of the requested tenant passes the
    three guards on a role-gated route with resource and action exactly
    when the entry's role ([admin] for type [ADMIN], [user] otherwise)
    is one of the required roles, or is [admin], or the role [user] is
    granted the action on the resource; otherwise it is refused with the
    403 of the roles guard. *)
Theorem token_principal_rights (validate : string -> Result JsValue)
    (role : string) (rest : list string) (res act : string)
    (request : Request) (token tenantId : string)
    (userData : JsValue) (userAccess : list JsValue) (entry : JsValue) :
  req_user request = JUndefined ->
  ApiKeyAuthGuard.endsWith (req_path request) "/health" = false ->
  req_headers request !! "x-api-key" = None ->
  req_headers request !! "authorization" = Some token ->
  str_truthy token = true ->
  req_headers request !! "tenantid" = Some tenantId ->
  str_truthy tenantId = true ->
  validate token = Return userData ->
  prop userData "userAccess" = JArr userAccess ->
  find_access tenantId userAccess = Return (Some entry) ->
  is_nullish (req_params request) = false ->
  str_truthy res = true -> str_truthy act = true ->
  let roleName :=
    if is_str (prop entry "type") "ADMIN" then "admin" else "user" in
  fst (guards false apiKeys validate (Some (role :: rest)) (Some res)
         (Some act) now request)
  = if existsb (String.eqb roleName) (role :: rest)
       || String.eqb roleName "admin" || granted_to_user res act
    then Return true
    else Throw (RolesGuard.NestForbiddenException
                  ("You don't have permission to " +:+ act +:+ " this "
                     +:+ res)).
Proof.
  intros Huser Hpath Hkey Hauth Htoken Htenant Htid Hvalid Haccess Hfind
    Hparams Hres Hact roleName.
  destruct userData as [| | | | | |fields]; try discriminate.
  unfold guards.
  (* the API-key guard leaves the request to the token guard *)
  assert (Hapi : exists stored,
             ApiKeyAuthGuard.canActivate false apiKeys (Some res) (Some act)
               now request = (Return true, request, stored)).
  { unfold ApiKeyAuthGuard.canActivate.
    rewrite (endsWith_health _ Hpath), Hpath. cbn [orb]. cbv zeta.
    unfold header at 1 2. rewrite Hkey, Hauth. cbn [truthy].
    fold (str_truthy token). rewrite Htoken. cbn [negb andb]. eauto. }
  destruct Hapi as [stored ->]. unfold Return at 1.
  (* the token guard builds the principal *)
  assert (Hjwt : exists user,
             JwtAuthGuard.canActivate false validate request
             = (Return true, set_user request (JObj user))
             /\ prop (JObj user) "roles" = JArr [JStr roleName]).
  { unfold JwtAuthGuard.canActivate.
    rewrite (endsWith_health _ Hpath), Huser, Hauth, Htoken, Htenant, Htid.
    cbn [truthy andb negb].
    unfold authenticate. rewrite Hvalid. unfold Return at 1.
    rewrite Haccess, Hfind. unfold Return at 1.
    assert (Hname : exists tenantName,
               tenant_name request entry (JObj fields) = Return tenantName).
    { unfold tenant_name.
      destruct (truthy (prop entry "tenantName")); [eauto|].
      destruct (req_params request); try discriminate; eauto. }
    destruct Hname as [tenantName ->]. unfold Return at 1.
    eexists. split; [reflexivity|].
    rewrite principal_roles. subst roleName.
    destruct (is_str (prop entry "type") "ADMIN"); reflexivity. }
  destruct Hjwt as (user & -> & Hroles). unfold Return at 1.
  (* the roles guard *)
  unfold RolesGuard.canActivate.
  change (req_user (set_user request (JObj user))) with (JObj user).
  cbn [truthy negb]. rewrite Hroles. cbn [truthy]. unfold js_or.
  rewrite Hroles. cbn [truthy].
  rewrite some_role_single. unfold Return at 1.
  destruct (existsb (String.eqb roleName) (role :: rest)); [reflexivity|].
  rewrite Hres, Hact. cbn [andb orb].
  subst roleName.
  destruct (is_str (prop entry "type") "ADMIN").
  - rewrite validatePermissions_admin. reflexivity.
  - rewrite validatePermissions_user.
    change (String.eqb "user" "admin") with false. cbn [orb].
    destruct (granted_to_user res act); reflexivity.
Qed.

End TokenChain.

Lemma token_principal_rights_witness :
  fst (CoreModule.guards false ["secret"]
         (AuthenticationProvider.validateToken Samples.introspect)
         (Some ["manager"]) (Some "order") (Some "create") Samples.now_ms
         (Samples.request "POST" "/api/service-a/items"
            [("authorization", "Bearer abc"); ("tenantid", "t0")]))
  = Return true.
Proof.
  apply (token_principal_rights ["secret"] Samples.now_ms
           (AuthenticationProvider.validateToken Samples.introspect)
           "manager" [] "order" "create"
           (Samples.request "POST" "/api/service-a/items"
              [("authorization", "Bearer abc"); ("tenantid", "t0")])
           "Bearer abc" "t0"
           (set_prop Samples.user_data "roles" (JArr []))
           [JObj [("tenantId", JStr "t0"); ("type", JStr "USER")];
            JObj [("tenantId", JStr "t1"); ("type", JStr "ADMIN");
                  ("tenantName", JStr "Tenant One")]]
           (JObj [("tenantId", JStr "t0"); ("type", JStr "USER")]));
    reflexivity.
Defined.
